(** * ADA tracer backend: backpressure state machine and drain worker

    A shallow embedding of two translation units of the tracer backend:

    - [backpressure.cpp] (with [backpressure/backpressure.h]): the per-lane
      backpressure state machine, its configuration validator and its
      drop accounting;
    - [drain_thread.c] (with [drain_thread_private.h]): the drain worker,
      its per-lane drain loop, the round-robin cycle, the final pass at
      shutdown and the start/stop lifecycle.

    Unsigned C integers are naturals ([N]) with the wrap-around of each
    arithmetic operation written out; [int] return codes are integers ([Z]).
    Atomics are read and written sequentially: every function below is the
    behaviour of the C function when no other thread touches the object
    during the call. *)

From Stdlib Require Import NArith ZArith Lia Bool List Ascii.
From stdpp Require Import base list strings.
Import ListNotations.

Local Open Scope N_scope.

(** ** Machine integers *)

Definition UINT32_MAX : N := 4294967295.
Definition wrap32 (x : N) : N := x mod 4294967296.
Definition wrap64 (x : N) : N := x mod 18446744073709551616.

(** Unsigned 64-bit subtraction [a - b]. *)
Definition sub64 (a b : N) : N :=
  wrap64 (wrap64 a + (18446744073709551616 - wrap64 b)).

(** The sum of a list of naturals. *)
Definition sum_N (l : list N) : N := fold_right N.add 0 l.

Module Backpressure.

(** ** Data model ([backpressure.h]) *)

Inductive ada_backpressure_mode_t : Type :=
  | ADA_BACKPRESSURE_STATE_NORMAL
  | ADA_BACKPRESSURE_STATE_PRESSURE
  | ADA_BACKPRESSURE_STATE_DROPPING
  | ADA_BACKPRESSURE_STATE_RECOVERY.

Abbreviation NORMAL := ADA_BACKPRESSURE_STATE_NORMAL.
Abbreviation PRESSURE := ADA_BACKPRESSURE_STATE_PRESSURE.
Abbreviation DROPPING := ADA_BACKPRESSURE_STATE_DROPPING.
Abbreviation RECOVERY := ADA_BACKPRESSURE_STATE_RECOVERY.

Definition mode_eqb (a b : ada_backpressure_mode_t) : bool :=
  match a, b with
  | NORMAL, NORMAL | PRESSURE, PRESSURE
  | DROPPING, DROPPING | RECOVERY, RECOVERY => true
  | _, _ => false
  end.

Record ada_backpressure_config_t : Type := mk_config {
  pressure_threshold_percent : N;   (* uint32_t *)
  recovery_threshold_percent : N;   (* uint32_t *)
  recovery_stable_ns : N;           (* uint64_t *)
  drop_log_interval : N             (* uint32_t *)
}.

Record ada_backpressure_state_t : Type := mk_state {
  mode : ada_backpressure_mode_t;
  transitions : N;
  events_dropped : N;
  bytes_dropped : N;
  drop_sequences : N;
  free_rings : N;
  total_rings : N;
  low_watermark : N;
  last_drop_ns : N;
  last_recovery_ns : N;
  pressure_start_ns : N;
  recovery_candidate_ns : N;
  config : ada_backpressure_config_t
}.

(** The file-static log counters of [backpressure.cpp]
    ([g_drop_log_invocations] and friends). *)
Record bp_log_t : Type := mk_log {
  g_drop_log_invocations : N;
  g_state_log_invocations : N;
  g_last_prev_state : ada_backpressure_mode_t;
  g_last_next_state : ada_backpressure_mode_t
}.

(** ** Configuration *)

Definition bp_default_config : ada_backpressure_config_t :=
  {| pressure_threshold_percent := 25;
     recovery_threshold_percent := 50;
     recovery_stable_ns := 1000000000;
     drop_log_interval := 64 |}.

(** [bp_config_validate] on a non-null record: the result flag and the
    record as the call leaves it.  The five [if] blocks of the C function
    run in order, each on the record left by the previous one. *)
Definition validate_pressure (c : ada_backpressure_config_t) (valid : bool)
  : ada_backpressure_config_t * bool :=
  if (pressure_threshold_percent c =? 0) || (100 <=? pressure_threshold_percent c)
  then (mk_config (pressure_threshold_percent bp_default_config)
                  (recovery_threshold_percent c)
                  (recovery_stable_ns c) (drop_log_interval c), false)
  else (c, valid).

Definition validate_recovery (c : ada_backpressure_config_t) (valid : bool)
  : ada_backpressure_config_t * bool :=
  if (recovery_threshold_percent c =? 0) || (100 <? recovery_threshold_percent c)
  then (mk_config (pressure_threshold_percent c)
                  (recovery_threshold_percent bp_default_config)
                  (recovery_stable_ns c) (drop_log_interval c), false)
  else (c, valid).

Definition validate_order (c : ada_backpressure_config_t) (valid : bool)
  : ada_backpressure_config_t * bool :=
  if recovery_threshold_percent c <=? pressure_threshold_percent c
  then
    if pressure_threshold_percent c <? 95
    then (mk_config (pressure_threshold_percent c)
                    (wrap32 (pressure_threshold_percent c + 5))
                    (recovery_stable_ns c) (drop_log_interval c), false)
    else (mk_config (pressure_threshold_percent bp_default_config)
                    (recovery_threshold_percent bp_default_config)
                    (recovery_stable_ns c) (drop_log_interval c), false)
  else (c, valid).

Definition validate_interval (c : ada_backpressure_config_t) (valid : bool)
  : ada_backpressure_config_t * bool :=
  if drop_log_interval c =? 0
  then (mk_config (pressure_threshold_percent c)
                  (recovery_threshold_percent c)
                  (recovery_stable_ns c)
                  (drop_log_interval bp_default_config), false)
  else (c, valid).

Definition validate_stable (c : ada_backpressure_config_t) (valid : bool)
  : ada_backpressure_config_t * bool :=
  if recovery_stable_ns c =? 0
  then (mk_config (pressure_threshold_percent c)
                  (recovery_threshold_percent c)
                  (recovery_stable_ns bp_default_config)
                  (drop_log_interval c), false)
  else (c, valid).

Definition bp_config_validate (cfg : ada_backpressure_config_t)
  : bool * ada_backpressure_config_t :=
  let '(c1, v1) := validate_pressure cfg true in
  let '(c2, v2) := validate_recovery c1 v1 in
  let '(c3, v3) := validate_order c2 v2 in
  let '(c4, v4) := validate_interval c3 v3 in
  let '(c5, v5) := validate_stable c4 v4 in
  (v5, c5).

(** ** State operations *)

Definition ada_backpressure_state_init
    (cfg : option ada_backpressure_config_t) : ada_backpressure_state_t :=
  let effective := match cfg with Some c => c | None => bp_default_config end in
  {| mode := NORMAL; transitions := 0; events_dropped := 0;
     bytes_dropped := 0; drop_sequences := 0; free_rings := 0;
     total_rings := 0; low_watermark := UINT32_MAX; last_drop_ns := 0;
     last_recovery_ns := 0; pressure_start_ns := 0;
     recovery_candidate_ns := 0;
     config := snd (bp_config_validate effective) |}.

Definition ada_backpressure_state_reset
    (s : ada_backpressure_state_t) : ada_backpressure_state_t :=
  {| mode := NORMAL; transitions := 0; events_dropped := 0;
     bytes_dropped := 0; drop_sequences := 0; free_rings := 0;
     total_rings := 0; low_watermark := UINT32_MAX; last_drop_ns := 0;
     last_recovery_ns := 0; pressure_start_ns := 0;
     recovery_candidate_ns := 0;
     config := config s |}.

Definition ada_backpressure_state_set_total_rings
    (s : ada_backpressure_state_t) (total : N) : ada_backpressure_state_t :=
  if total =? 0 then s
  else if total_rings s =? total then s
  else mk_state (mode s) (transitions s) (events_dropped s) (bytes_dropped s)
         (drop_sequences s) (free_rings s) total (low_watermark s)
         (last_drop_ns s) (last_recovery_ns s) (pressure_start_ns s)
         (recovery_candidate_ns s) (config s).

Definition set_free_rings (s : ada_backpressure_state_t) (free : N) :=
  mk_state (mode s) (transitions s) (events_dropped s) (bytes_dropped s)
    (drop_sequences s) free (total_rings s) (low_watermark s)
    (last_drop_ns s) (last_recovery_ns s) (pressure_start_ns s)
    (recovery_candidate_ns s) (config s).

Definition set_last_recovery_ns (s : ada_backpressure_state_t) (t : N) :=
  mk_state (mode s) (transitions s) (events_dropped s) (bytes_dropped s)
    (drop_sequences s) (free_rings s) (total_rings s) (low_watermark s)
    (last_drop_ns s) t (pressure_start_ns s)
    (recovery_candidate_ns s) (config s).

Definition set_recovery_candidate_ns (s : ada_backpressure_state_t) (t : N) :=
  mk_state (mode s) (transitions s) (events_dropped s) (bytes_dropped s)
    (drop_sequences s) (free_rings s) (total_rings s) (low_watermark s)
    (last_drop_ns s) (last_recovery_ns s) (pressure_start_ns s)
    t (config s).

(** The compare-exchange loop stores [free_rings] only while it is below
    the stored watermark. *)
Definition bp_update_low_watermark
    (s : ada_backpressure_state_t) (free : N) : ada_backpressure_state_t :=
  if free <? low_watermark s
  then mk_state (mode s) (transitions s) (events_dropped s) (bytes_dropped s)
         (drop_sequences s) (free_rings s) (total_rings s) free
         (last_drop_ns s) (last_recovery_ns s) (pressure_start_ns s)
         (recovery_candidate_ns s) (config s)
  else s.

Definition bp_total_effective (s : ada_backpressure_state_t) : N :=
  if total_rings s =? 0 then 1 else total_rings s.

Definition bp_log_state_change
    (l : bp_log_t) (previous next : ada_backpressure_mode_t) : bp_log_t :=
  mk_log (g_drop_log_invocations l) (wrap64 (g_state_log_invocations l + 1))
         previous next.

Definition bp_log_drop_event (l : bp_log_t) : bp_log_t :=
  mk_log (wrap64 (g_drop_log_invocations l + 1)) (g_state_log_invocations l)
         (g_last_prev_state l) (g_last_next_state l).

(** The state together with the log counters it shares with every other
    state of the process. *)
Definition bp_world : Type := (bp_log_t * ada_backpressure_state_t)%type.

(** [bp_transition]: the compare-exchange succeeds exactly when the mode
    is [expected]; the bookkeeping then runs once. *)
Definition bp_transition (w : bp_world)
    (expected desired : ada_backpressure_mode_t) (now_ns : N) : bp_world :=
  let '(l, s) := w in
  if mode_eqb (mode s) expected then
    let ps := match desired with
              | PRESSURE => now_ns
              | NORMAL => 0
              | _ => pressure_start_ns s
              end in
    let rc := match desired with
              | RECOVERY => now_ns
              | NORMAL => 0
              | _ => recovery_candidate_ns s
              end in
    let s' := mk_state desired (wrap64 (transitions s + 1))
                (events_dropped s) (bytes_dropped s) (drop_sequences s)
                (free_rings s) (total_rings s) (low_watermark s)
                (last_drop_ns s) (last_recovery_ns s) ps rc (config s) in
    let l' := if mode_eqb expected desired then l
              else bp_log_state_change l expected desired in
    (l', s')
  else w.

Definition bp_threshold_crossed (percent total free : N) : bool :=
  if total =? 0 then false
  else wrap64 (free * 100) <? wrap64 (percent * total).

(** [now_ns == 0] asks for the monotonic clock; [clock] is the value
    [bp_now_ns()] returns during the call. *)
Definition resolve_now (clock now_ns : N) : N :=
  if now_ns =? 0 then clock else now_ns.

Definition ada_backpressure_state_sample (clock : N) (w : bp_world)
    (free now_ns : N) : bp_world :=
  let '(l, s0) := w in
  let s := bp_update_low_watermark (set_free_rings s0 free) free in
  let total := bp_total_effective s in
  let now := resolve_now clock now_ns in
  match mode s with
  | NORMAL =>
      if bp_threshold_crossed (pressure_threshold_percent (config s)) total free
      then bp_transition (l, s) NORMAL PRESSURE now
      else (l, s)
  | PRESSURE =>
      if free =? 0
      then bp_transition (l, s) PRESSURE DROPPING now
      else if negb (bp_threshold_crossed
                      (pressure_threshold_percent (config s)) total free)
      then bp_transition (l, s) PRESSURE NORMAL now
      else (l, s)
  | DROPPING =>
      if negb (bp_threshold_crossed
                 (recovery_threshold_percent (config s)) total free)
      then bp_transition (l, s) DROPPING RECOVERY now
      else (l, s)
  | RECOVERY =>
      if bp_threshold_crossed (pressure_threshold_percent (config s)) total free
      then bp_transition (l, s) RECOVERY PRESSURE now
      else
        let candidate := recovery_candidate_ns s in
        if candidate =? 0
        then (l, set_recovery_candidate_ns s now)
        else if recovery_stable_ns (config s) <=? sub64 now candidate
        then
          let '(l1, s1) := bp_transition (l, s) RECOVERY NORMAL now in
          (l1, set_last_recovery_ns s1 now)
        else (l, s)
  end.

Definition ada_backpressure_state_on_exhaustion (clock : N) (w : bp_world)
    (now_ns : N) : bp_world :=
  let now := resolve_now clock now_ns in
  let w1 := bp_transition w NORMAL PRESSURE now in
  let w2 := bp_transition w1 RECOVERY DROPPING now in
  let w3 := bp_transition w2 PRESSURE DROPPING now in
  bp_transition w3 NORMAL DROPPING now.

Definition ada_backpressure_state_on_drop (clock : N) (w : bp_world)
    (dropped_bytes now_ns : N) : bp_world :=
  let '(l, s) := w in
  let now := resolve_now clock now_ns in
  let s' := mk_state (mode s) (transitions s)
              (wrap64 (events_dropped s + 1))
              (wrap64 (bytes_dropped s + wrap64 dropped_bytes))
              (wrap64 (drop_sequences s + 1))
              (free_rings s) (total_rings s) (low_watermark s)
              now (last_recovery_ns s) (pressure_start_ns s)
              (recovery_candidate_ns s) (config s) in
  let interval := drop_log_interval (config s') in
  if negb (interval =? 0) then
    let drops := events_dropped s' in
    if drops mod interval =? 0 then (bp_log_drop_event l, s') else (l, s')
  else (l, s').

Definition ada_backpressure_state_on_recovery (clock : N) (w : bp_world)
    (free now_ns : N) : bp_world :=
  let '(l, s) := w in
  let now := resolve_now clock now_ns in
  let s1 := set_last_recovery_ns (set_free_rings s free) now in
  match mode s1 with
  | DROPPING => bp_transition (l, s1) DROPPING RECOVERY now
  | _ => (l, s1)
  end.

Definition ada_backpressure_state_get_mode (s : ada_backpressure_state_t) :=
  mode s.

Definition ada_backpressure_state_get_drops (s : ada_backpressure_state_t) :=
  events_dropped s.

Definition ada_backpressure_state_get_low_watermark
    (s : ada_backpressure_state_t) : N :=
  if low_watermark s =? UINT32_MAX then 0 else low_watermark s.

(** ** Vocabulary: validated configurations *)

(** What the first two blocks of the validator leave in the thresholds. *)
Definition range_repaired_pressure (p : N) : N :=
  if (p =? 0) || (100 <=? p) then 25 else p.

Definition range_repaired_recovery (r : N) : N :=
  if (r =? 0) || (100 <? r) then 50 else r.

Definition thresholds_ok (c : ada_backpressure_config_t) : Prop :=
  0 < pressure_threshold_percent c
  /\ pressure_threshold_percent c < recovery_threshold_percent c
  /\ recovery_threshold_percent c <= 100.

Definition config_ok (c : ada_backpressure_config_t) : Prop :=
  thresholds_ok c /\ drop_log_interval c <> 0 /\ recovery_stable_ns c <> 0.

(** ** Vocabulary: the transition table *)

(** "free% < threshold": [free / total < percent / 100], cross-multiplied. *)
Definition below_threshold (percent total free : N) : Prop :=
  free * 100 < percent * total.

(** The free count "has stayed recovered for at least [recovery_stable_ns]":
    a recovery candidate timestamp is recorded, the present sample is not
    below the pressure threshold, and the stable window has elapsed since
    the candidate. *)
Definition stayed_recovered (s : ada_backpressure_state_t) (free now : N) : Prop :=
  ~ below_threshold (pressure_threshold_percent (config s)) (total_rings s) free
  /\ recovery_candidate_ns s <> 0
  /\ recovery_stable_ns (config s) <= now - recovery_candidate_ns s.

(** The test the code makes before it leaves RECOVERY for NORMAL: as
    [stayed_recovered], but with the elapsed time [now - candidate] taken
    in unsigned 64-bit arithmetic, which wraps around when [now] is earlier
    than the candidate. *)
Definition recovery_window_elapsed (s : ada_backpressure_state_t)
    (free now : N) : Prop :=
  ~ below_threshold (pressure_threshold_percent (config s)) (total_rings s) free
  /\ recovery_candidate_ns s <> 0
  /\ recovery_stable_ns (config s) <= sub64 now (recovery_candidate_ns s).

(** ** Concrete scenarios *)

Definition log0 : bp_log_t := mk_log 0 0 NORMAL NORMAL.

(** A lane of four rings in RECOVERY since t = 40 ns. *)
Definition recovering_state : ada_backpressure_state_t :=
  mk_state RECOVERY 3 1 32 1 3 4 0 35 0 20 40 bp_default_config.

(** ** Call sequences *)

Inductive bp_call : Type :=
  | CallSample (clock free now_ns : N)
  | CallOnDrop (clock dropped_bytes now_ns : N)
  | CallOnExhaustion (clock now_ns : N)
  | CallOnRecovery (clock free now_ns : N).

Definition run_call (w : bp_world) (c : bp_call) : bp_world :=
  match c with
  | CallSample clock free now_ns =>
      ada_backpressure_state_sample clock w free now_ns
  | CallOnDrop clock bytes now_ns =>
      ada_backpressure_state_on_drop clock w bytes now_ns
  | CallOnExhaustion clock now_ns =>
      ada_backpressure_state_on_exhaustion clock w now_ns
  | CallOnRecovery clock free now_ns =>
      ada_backpressure_state_on_recovery clock w free now_ns
  end.

Definition run_calls (w : bp_world) (cs : list bp_call) : bp_world :=
  fold_left run_call cs w.

(** ** Metrics export *)

Module Exported.
Record ada_backpressure_metrics_t : Type := mk_metrics {
  mode : ada_backpressure_mode_t;
  transitions : N;
  events_dropped : N;
  bytes_dropped : N;
  drop_sequences : N;
  free_rings : N;
  total_rings : N;
  low_watermark : N;
  last_drop_ns : N;
  last_recovery_ns : N;
  pressure_start_ns : N
}.
End Exported.

(** [bp_export_metrics] on non-null arguments: the record written to
    [*out]. *)
Definition bp_export_metrics (s : ada_backpressure_state_t)
  : Exported.ada_backpressure_metrics_t :=
  {| Exported.mode := mode s;
     Exported.transitions := transitions s;
     Exported.events_dropped := events_dropped s;
     Exported.bytes_dropped := bytes_dropped s;
     Exported.drop_sequences := drop_sequences s;
     Exported.free_rings := free_rings s;
     Exported.total_rings := total_rings s;
     Exported.low_watermark := ada_backpressure_state_get_low_watermark s;
     Exported.last_drop_ns := last_drop_ns s;
     Exported.last_recovery_ns := last_recovery_ns s;
     Exported.pressure_start_ns := pressure_start_ns s |}.

(** What [bp_export_metrics] reports of a state nothing has happened to. *)
Definition zero_metrics : Exported.ada_backpressure_metrics_t :=
  Exported.mk_metrics NORMAL 0 0 0 0 0 0 0 0 0 0.

(** ** Environment overrides *)

(** The byte [s[i]] of a C string, its terminating NUL included. *)
Definition char_at (s : string) (i : nat) : N :=
  match String.get i s with
  | Some c => N_of_ascii c
  | None => 0
  end.

(** [bp_parse_env_u32] with a non-null [out]: [Some v] when the function
    returns true after storing [v], [None] when it returns false.
    [strtoul s] is the value the C library's [strtoul(s, &end, 10)] returns
    together with the offset of [end] in [s]. *)
Definition bp_parse_env_u32 (strtoul : string -> N * nat)
    (value : option string) : option N :=
  match value with
  | None => None
  | Some v =>
      if char_at v 0 =? 0 then None
      else
        let '(parsed, end_) := strtoul v in
        if Nat.eqb end_ 0 || negb (char_at v end_ =? 0) then None
        else if UINT32_MAX <? parsed then None
        else Some (wrap32 parsed)
  end.

(** [bp_config_from_env]; [getenv] is the process environment. *)
Definition bp_config_from_env (strtoul : string -> N * nat)
    (getenv : string -> option string) : ada_backpressure_config_t :=
  let cfg := bp_default_config in
  let cfg :=
    match bp_parse_env_u32 strtoul (getenv "BP_PRESSURE_THRESHOLD"%string) with
    | Some value => mk_config value (recovery_threshold_percent cfg)
                      (recovery_stable_ns cfg) (drop_log_interval cfg)
    | None => cfg
    end in
  let cfg :=
    match bp_parse_env_u32 strtoul (getenv "BP_RECOVERY_THRESHOLD"%string) with
    | Some value => mk_config (pressure_threshold_percent cfg) value
                      (recovery_stable_ns cfg) (drop_log_interval cfg)
    | None => cfg
    end in
  let cfg :=
    match bp_parse_env_u32 strtoul (getenv "BP_DROP_LOG_INTERVAL"%string) with
    | Some value => mk_config (pressure_threshold_percent cfg)
                      (recovery_threshold_percent cfg)
                      (recovery_stable_ns cfg) value
    | None => cfg
    end in
  snd (bp_config_validate cfg).

(** *** The C library's [strtoul] in base 10 *)

Definition ULONG_MAX : N := 18446744073709551615.

(** [isspace] in the C locale: space and the controls TAB to CR. *)
Definition isspace (c : N) : bool := (c =? 32) || ((9 <=? c) && (c <=? 13)).

Definition digit_value (c : N) : option N :=
  if (48 <=? c) && (c <=? 57) then Some (c - 48) else None.

Fixpoint skip_spaces (s : string) : nat * string :=
  match s with
  | String c rest =>
      if isspace (N_of_ascii c)
      then let '(n, r) := skip_spaces rest in (S n, r)
      else (O, s)
  | EmptyString => (O, s)
  end.

(** The longest run of decimal digits at the head of [s]: its value on top
    of [acc] and its length. *)
Fixpoint read_digits (s : string) (acc : N) : N * nat :=
  match s with
  | String c rest =>
      match digit_value (N_of_ascii c) with
      | Some d => let '(v, n) := read_digits rest (acc * 10 + d) in (v, S n)
      | None => (acc, O)
      end
  | EmptyString => (acc, O)
  end.

(** [strtoul(s, &end, 10)] as ISO C (7.22.1.4) describes it, for a 64-bit
    [unsigned long]: white space is skipped, one sign is accepted, the
    longest run of digits is converted; without a digit nothing is consumed
    and 0 is returned; a magnitude above [ULONG_MAX] gives [ULONG_MAX]; a
    minus sign negates the value in the unsigned type. *)
Definition strtoul_base10 (s : string) : N * nat :=
  let '(nspace, s1) := skip_spaces s in
  let '(negative, nsign, s2) :=
    match s1 with
    | String c rest =>
        if N_of_ascii c =? 45 then (true, 1%nat, rest)         (* '-' *)
        else if N_of_ascii c =? 43 then (false, 1%nat, rest)   (* '+' *)
        else (false, O, s1)
    | EmptyString => (false, O, s1)
    end in
  let '(magnitude, ndigits) := read_digits s2 0 in
  if Nat.eqb ndigits 0 then (0, O)
  else
    let parsed :=
      if ULONG_MAX <? magnitude then ULONG_MAX
      else if negative then wrap64 (18446744073709551616 - magnitude)
      else magnitude in
    (parsed, (nspace + nsign + ndigits)%nat).

(** ** Every operation on a state *)

Inductive bp_op : Type :=
  | OpCall (c : bp_call)
  | OpSetTotalRings (total : N)
  | OpReset.

Definition run_op (w : bp_world) (o : bp_op) : bp_world :=
  match o with
  | OpCall c => run_call w c
  | OpSetTotalRings total =>
      (fst w, ada_backpressure_state_set_total_rings (snd w) total)
  | OpReset => (fst w, ada_backpressure_state_reset (snd w))
  end.

Definition run_ops (w : bp_world) (os : list bp_op) : bp_world :=
  fold_left run_op os w.

(** ** Vocabulary: decimal numerals *)

Definition digit_char (d : N) : ascii := ascii_of_N (48 + d).

Fixpoint numeral (ds : list N) : string :=
  match ds with
  | [] => EmptyString
  | d :: rest => String (digit_char d) (numeral rest)
  end.

Definition numeral_value (ds : list N) : N :=
  fold_left (fun acc d => acc * 10 + d) ds 0.

(** What follows a numeral stops the run of digits. *)
Definition stops_digits (rest : string) : Prop :=
  match rest with
  | String c _ => digit_value (N_of_ascii c) = None
  | EmptyString => True
  end.

(** ** Vocabulary: drops in a call sequence *)

(** The byte sizes of the drops a call sequence reports, in order. *)
Definition dropped_sizes (cs : list bp_call) : list N :=
  omap (fun c => match c with
                 | CallOnDrop _ bytes _ => Some bytes
                 | _ => None
                 end) cs.

Definition is_drop (c : bp_call) : bool :=
  match c with CallOnDrop _ _ _ => true | _ => false end.

Definition without_drops (cs : list bp_call) : list bp_call :=
  List.filter (fun c => negb (is_drop c)) cs.

(** The world with everything only [ada_backpressure_state_on_drop] writes
    blanked out. *)
Definition erase_drops (w : bp_world) : bp_world :=
  let '(l, s) := w in
  (mk_log 0 (g_state_log_invocations l) (g_last_prev_state l)
          (g_last_next_state l),
   mk_state (mode s) (transitions s) 0 0 0 (free_rings s) (total_rings s)
     (low_watermark s) 0 (last_recovery_ns s) (pressure_start_ns s)
     (recovery_candidate_ns s) (config s)).

(** The drop counters [n] drops of [bytes] bytes in total leave behind. *)
Definition drops_counted (s : ada_backpressure_state_t) (n bytes : N) : Prop :=
  events_dropped s = wrap64 n
  /\ drop_sequences s = wrap64 n
  /\ bytes_dropped s = wrap64 bytes.

(** [n] drops so far, logged once per [i]. *)
Definition drops_logged (i : N) (w : bp_world) (n : N) : Prop :=
  events_dropped (snd w) = n
  /\ g_drop_log_invocations (fst w) = n / i
  /\ drop_log_interval (config (snd w)) = i.

(** ** Vocabulary: invariants of the state and its log *)

(** The timestamps of an episode are cleared in NORMAL. *)
Definition normal_is_clean (s : ada_backpressure_state_t) : Prop :=
  mode s = NORMAL -> pressure_start_ns s = 0 /\ recovery_candidate_ns s = 0.

(** The state-change log has seen every counted transition, the last of
    which led to the present mode. *)
Definition log_coherent (w : bp_world) : Prop :=
  g_state_log_invocations (fst w) = transitions (snd w)
  /\ g_last_next_state (fst w) = mode (snd w).

End Backpressure.

Module Drain.

(** ** Collaborators declared outside [drain_thread.c] *)

(** Modelled from the spec: [DrainState] is declared in
    [drain_thread/drain_thread.h], which is not among the sources.  The
    spec gives the lifecycle INITIALIZED, RUNNING, STOPPING, STOPPED;
    [drain_thread_get_state] adds UNINITIALIZED for a null handle. *)
Inductive DrainState : Type :=
  | DRAIN_STATE_UNINITIALIZED
  | DRAIN_STATE_INITIALIZED
  | DRAIN_STATE_RUNNING
  | DRAIN_STATE_STOPPING
  | DRAIN_STATE_STOPPED.

(** Modelled from the spec: [MAX_THREADS] comes from
    [utils/thread_registry.h], which is not among the sources; the spec
    names 64 as its usual value.  The general theorems do not depend on
    the number. *)
Definition MAX_THREADS : N := 64.

(** [errno.h] values (Linux); the code only negates and returns them. *)
Definition EINVAL : Z := 22.
Definition EALREADY : Z := 114.

(** Modelled from the spec: [Lane] and its drain-side operations
    [lane_take_ring] / [lane_return_ring] live in the thread registry,
    which is not among the sources.  The spec: a lane has two strict-FIFO
    ring-index queues; take_from_submit consumes the submit queue's head or
    reports NONE; return_to_free enqueues at the free queue's tail and can
    only fail when that queue is full. *)
Record Lane : Type := mk_lane {
  submit_q : list N;        (* producer -> drain, head first *)
  free_q : list N;          (* drain -> producer, head first *)
  free_capacity : nat       (* slots of the free queue *)
}.

Definition lane_take_ring (lane : Lane) : N * Lane :=
  match submit_q lane with
  | [] => (UINT32_MAX, lane)
  | ring_idx :: rest => (ring_idx, mk_lane rest (free_q lane) (free_capacity lane))
  end.

Definition lane_return_ring (lane : Lane) (ring_idx : N) : bool * Lane :=
  if Nat.ltb (length (free_q lane)) (free_capacity lane)
  then (true, mk_lane (submit_q lane) (free_q lane ++ [ring_idx])
                (free_capacity lane))
  else (false, lane).

(** Modelled from the spec: the registry is a fixed array of per-thread
    lane sets; bounded iteration hands out a slot only while it is
    [active]. *)
Record ThreadLaneSet : Type := mk_lanes {
  thread_id : N;
  active : bool;
  index_lane : Lane;
  detail_lane : Lane
}.

Record ThreadRegistry : Type := mk_registry {
  slots : list ThreadLaneSet
}.

Definition thread_registry_get_capacity (reg : ThreadRegistry) : N :=
  N.of_nat (length (slots reg)).

Definition thread_registry_get_thread_at (reg : ThreadRegistry) (index : N)
  : option ThreadLaneSet :=
  match slots reg !! N.to_nat index with
  | Some lanes => if active lanes then Some lanes else None
  | None => None
  end.

Definition thread_lanes_get_index_lane (lanes : ThreadLaneSet) : option Lane :=
  Some (index_lane lanes).

Definition thread_lanes_get_detail_lane (lanes : ThreadLaneSet) : option Lane :=
  Some (detail_lane lanes).

(** The in-place effect of draining through the two lane pointers of the
    slot at [index]. *)
Definition store_lanes (reg : ThreadRegistry) (index : N)
    (lanes : ThreadLaneSet) : ThreadRegistry :=
  mk_registry (<[N.to_nat index := lanes]> (slots reg)).

(** ** Data model ([drain_thread_private.h]) *)

Record DrainConfig : Type := mk_drain_config {
  poll_interval_us : N;
  max_batch_size : N;
  fairness_quantum : N;
  yield_on_idle : bool
}.

Record DrainMetricsAtomic : Type := mk_metrics {
  cycles_total : N;
  cycles_idle : N;
  rings_total : N;
  rings_index : N;
  rings_detail : N;
  fairness_switches : N;
  sleeps : N;
  yields : N;
  final_drains : N;
  total_sleep_us : N;
  per_thread_rings : list (N * N)   (* [MAX_THREADS][2]: (index, detail) *)
}.

Record DrainThread : Type := mk_drain {
  state : DrainState;
  registry : option ThreadRegistry;   (* NULL or the registry it points to *)
  config : DrainConfig;
  thread_started : bool;
  rr_cursor : N;
  last_cycle_ns : N;
  metrics : DrainMetricsAtomic
}.

Definition set_metrics (d : DrainThread) (m : DrainMetricsAtomic) : DrainThread :=
  mk_drain (state d) (registry d) (config d) (thread_started d)
           (rr_cursor d) (last_cycle_ns d) m.

Definition set_registry (d : DrainThread) (r : option ThreadRegistry) : DrainThread :=
  mk_drain (state d) r (config d) (thread_started d)
           (rr_cursor d) (last_cycle_ns d) (metrics d).

Definition set_state (d : DrainThread) (s : DrainState) : DrainThread :=
  mk_drain s (registry d) (config d) (thread_started d)
           (rr_cursor d) (last_cycle_ns d) (metrics d).

Definition set_thread_started (d : DrainThread) (b : bool) : DrainThread :=
  mk_drain (state d) (registry d) (config d) b
           (rr_cursor d) (last_cycle_ns d) (metrics d).

Definition drain_metrics_atomic_reset : DrainMetricsAtomic :=
  mk_metrics 0 0 0 0 0 0 0 0 0 0 (replicate (N.to_nat MAX_THREADS) (0, 0)).

Definition drain_config_default : DrainConfig :=
  mk_drain_config 1000 8 8 false.

(** ** Internal helpers *)

Definition compute_effective_limit (d : DrainThread) (final_pass : bool) : N :=
  if final_pass then UINT32_MAX
  else
    let limit := max_batch_size (config d) in
    let quantum := fairness_quantum (config d) in
    let limit :=
      if limit =? 0 then quantum
      else if (0 <? quantum) && (quantum <? limit) then quantum
      else limit in
    if limit =? 0 then UINT32_MAX else limit.

(** The bounded retry loop of [return_ring_to_producer]. *)
Fixpoint return_attempts (attempts : nat) (lane : Lane) (ring_idx : N)
  : option Lane :=
  match attempts with
  | O => None
  | S k =>
      let '(ok, lane') := lane_return_ring lane ring_idx in
      if ok then Some lane' else return_attempts k lane' ring_idx
  end.

(** [return_ring_to_producer] on a non-null lane.  [None]: the last-resort
    busy wait never ends, because with the producer quiescent every further
    [lane_return_ring] call fails like the one before. *)
Definition return_ring_to_producer (lane : Lane) (ring_idx : N) : option Lane :=
  match return_attempts 1000 lane ring_idx with
  | Some lane' => Some lane'
  | None =>
      let '(ok, lane') := lane_return_ring lane ring_idx in
      if ok then Some lane' else None
  end.

(** The [while (processed < limit)] loop of [drain_lane].  Every iteration
    that does not leave the loop removes one entry of the submit queue, so
    [fuel] above the queue length is never used up
    ([drain_lane_loop_enough]). *)
Fixpoint drain_lane_loop (fuel : nat) (limit processed : N) (lane : Lane)
  : option (N * Lane) :=
  match fuel with
  | O => None
  | S k =>
      if processed <? limit then
        let '(ring_idx, lane1) := lane_take_ring lane in
        if ring_idx =? UINT32_MAX then Some (processed, lane1)
        else
          match return_ring_to_producer lane1 ring_idx with
          | None => None
          | Some lane2 => drain_lane_loop k limit (processed + 1) lane2
          end
      else Some (processed, lane)
  end.

Definition per_thread_add (ptr : list (N * N)) (slot_index : N)
    (is_detail : bool) (processed : N) : list (N * N) :=
  alter (fun p => if is_detail then (fst p, wrap64 (snd p + processed))
                  else (wrap64 (fst p + processed), snd p))
        (N.to_nat slot_index) ptr.

(** The three [atomic_fetch_add] blocks at the end of [drain_lane]. *)
Definition add_ring_metrics (m : DrainMetricsAtomic) (slot_index : N)
    (is_detail : bool) (processed : N) : DrainMetricsAtomic :=
  mk_metrics (cycles_total m) (cycles_idle m)
    (wrap64 (rings_total m + processed))
    (if is_detail then rings_index m else wrap64 (rings_index m + processed))
    (if is_detail then wrap64 (rings_detail m + processed) else rings_detail m)
    (fairness_switches m) (sleeps m) (yields m) (final_drains m)
    (total_sleep_us m)
    (if slot_index <? MAX_THREADS
     then per_thread_add (per_thread_rings m) slot_index is_detail processed
     else per_thread_rings m).

(** [drain_lane]: the rings processed, [*out_hit_limit], the drain with its
    metrics updated and the lane as the call leaves it. *)
Definition drain_lane (d : DrainThread) (slot_index : N) (lane : option Lane)
    (is_detail final_pass : bool)
  : option (N * bool * DrainThread * option Lane) :=
  match lane with
  | None => Some (0, false, d, None)
  | Some ln =>
      let limit := compute_effective_limit d final_pass in
      match drain_lane_loop (S (length (submit_q ln))) limit 0 ln with
      | None => None
      | Some (processed, ln') =>
          let hit_limit := negb (limit =? UINT32_MAX) && (processed =? limit) in
          if processed =? 0 then Some (0, hit_limit, d, Some ln')
          else Some (processed, hit_limit,
                     set_metrics d (add_ring_metrics (metrics d) slot_index
                                      is_detail processed),
                     Some ln')
      end
  end.

Definition add_fairness_switch (d : DrainThread) : DrainThread :=
  let m := metrics d in
  set_metrics d
    (mk_metrics (cycles_total m) (cycles_idle m) (rings_total m)
       (rings_index m) (rings_detail m) (wrap64 (fairness_switches m + 1))
       (sleeps m) (yields m) (final_drains m) (total_sleep_us m)
       (per_thread_rings m)).

Definition upd_metrics (f : DrainMetricsAtomic -> DrainMetricsAtomic)
    (d : DrainThread) : DrainThread :=
  set_metrics d (f (metrics d)).

Definition inc_cycles_total (m : DrainMetricsAtomic) : DrainMetricsAtomic :=
  mk_metrics (wrap64 (cycles_total m + 1)) (cycles_idle m) (rings_total m)
    (rings_index m) (rings_detail m) (fairness_switches m) (sleeps m)
    (yields m) (final_drains m) (total_sleep_us m) (per_thread_rings m).

Definition inc_cycles_idle (m : DrainMetricsAtomic) : DrainMetricsAtomic :=
  mk_metrics (cycles_total m) (wrap64 (cycles_idle m + 1)) (rings_total m)
    (rings_index m) (rings_detail m) (fairness_switches m) (sleeps m)
    (yields m) (final_drains m) (total_sleep_us m) (per_thread_rings m).

Definition inc_yields (m : DrainMetricsAtomic) : DrainMetricsAtomic :=
  mk_metrics (cycles_total m) (cycles_idle m) (rings_total m)
    (rings_index m) (rings_detail m) (fairness_switches m) (sleeps m)
    (wrap64 (yields m + 1)) (final_drains m) (total_sleep_us m)
    (per_thread_rings m).

Definition add_sleep (us : N) (m : DrainMetricsAtomic) : DrainMetricsAtomic :=
  mk_metrics (cycles_total m) (cycles_idle m) (rings_total m)
    (rings_index m) (rings_detail m) (fairness_switches m)
    (wrap64 (sleeps m + 1)) (yields m) (final_drains m)
    (wrap64 (total_sleep_us m + us)) (per_thread_rings m).

Definition inc_final_drains (m : DrainMetricsAtomic) : DrainMetricsAtomic :=
  mk_metrics (cycles_total m) (cycles_idle m) (rings_total m)
    (rings_index m) (rings_detail m) (fairness_switches m) (sleeps m)
    (yields m) (wrap64 (final_drains m + 1)) (total_sleep_us m)
    (per_thread_rings m).

(** ** The drain cycle *)

(** One iteration of the [for] loop of [drain_cycle], for the slot index
    already computed: both lanes of the slot are drained through their
    pointers, which shows in the registry the drain points to. *)
Definition drain_cycle_slot (d : DrainThread) (slot : N)
    (final_pass work_done : bool) : option (bool * DrainThread) :=
  match registry d with
  | None => Some (work_done, d)
  | Some reg =>
      match thread_registry_get_thread_at reg slot with
      | None => Some (work_done, d)
      | Some lanes =>
          match drain_lane d slot (thread_lanes_get_index_lane lanes)
                  false final_pass with
          | None => None
          | Some (processed, hit_limit, d1, il) =>
              let work1 := if 0 <? processed then true else work_done in
              let d2 := if hit_limit then add_fairness_switch d1 else d1 in
              match drain_lane d2 slot (thread_lanes_get_detail_lane lanes)
                      true final_pass with
              | None => None
              | Some (processed', hit_limit', d3, dl) =>
                  let work2 := if 0 <? processed' then true else work1 in
                  let d4 := if hit_limit' then add_fairness_switch d3 else d3 in
                  let lanes' := mk_lanes (thread_id lanes) (active lanes)
                                  (default (index_lane lanes) il)
                                  (default (detail_lane lanes) dl) in
                  Some (work2,
                        set_registry d4 (Some (store_lanes reg slot lanes')))
              end
          end
      end
  end.

Fixpoint drain_cycle_loop (n : nat) (offset start capacity : N)
    (final_pass work_done : bool) (d : DrainThread)
  : option (bool * DrainThread) :=
  match n with
  | O => Some (work_done, d)
  | S k =>
      let slot := wrap32 (start + offset) mod capacity in
      match drain_cycle_slot d slot final_pass work_done with
      | None => None
      | Some (work, d') =>
          drain_cycle_loop k (wrap32 (offset + 1)) start capacity
            final_pass work d'
      end
  end.

(** [drain_cycle]; [now] is what [monotonic_now_ns()] returns at its end. *)
Definition drain_cycle (now : N) (d : DrainThread) (final_pass : bool)
  : option (bool * DrainThread) :=
  match registry d with
  | None => Some (false, d)
  | Some reg =>
      let capacity := thread_registry_get_capacity reg in
      if capacity =? 0 then Some (false, d)
      else
        let start := if capacity <=? rr_cursor d then 0 else rr_cursor d in
        match drain_cycle_loop (N.to_nat capacity) 0 start capacity
                final_pass false d with
        | None => None
        | Some (work_done, d') =>
            Some (work_done,
                  mk_drain (state d') (registry d') (config d')
                    (thread_started d') (wrap32 (start + 1) mod capacity)
                    now (metrics d'))
        end
  end.

(** ** The worker thread *)

(** Body of the [while (state == RUNNING)] loop of [drain_worker_thread]. *)
Definition drain_worker_iteration (now : N) (d : DrainThread)
  : option DrainThread :=
  match drain_cycle now d false with
  | None => None
  | Some (work, d1) =>
      let d2 := upd_metrics inc_cycles_total d1 in
      if work then Some d2
      else
        let d3 := upd_metrics inc_cycles_idle d2 in
        if yield_on_idle (config d3) then Some (upd_metrics inc_yields d3)
        else if 0 <? poll_interval_us (config d3)
        then Some (upd_metrics (add_sleep (poll_interval_us (config d3))) d3)
        else Some d3
  end.

(** The [do ... while (had_work)] loop of the final drain; [clock k] is the
    monotonic clock at the end of its [k]-th cycle. *)
Fixpoint final_pass_loop (fuel : nat) (clock : nat -> N) (k : nat)
    (d : DrainThread) : option DrainThread :=
  match fuel with
  | O => None
  | S f =>
      match drain_cycle (clock k) d true with
      | None => None
      | Some (had_work, d1) =>
          let d2 := upd_metrics inc_cycles_total d1 in
          if had_work then final_pass_loop f clock (S k) d2 else Some d2
      end
  end.

(** Rings standing in the two submit queues of a slot. *)
Definition lanes_pending (lanes : ThreadLaneSet) : nat :=
  (length (submit_q (index_lane lanes))
   + length (submit_q (detail_lane lanes)))%nat.

Definition registry_pending (reg : ThreadRegistry) : nat :=
  sum_list (lanes_pending <$> slots reg).

(** Rings standing in the submit queues the drain can reach. *)
Definition pending_rings (d : DrainThread) : nat :=
  match registry d with
  | None => O
  | Some reg => registry_pending reg
  end.

(** The final drain: everything [drain_worker_thread] does once its loop
    has seen a state other than RUNNING, up to the store of STOPPED
    excluded.  A cycle that reports work has taken a ring from a submit
    queue, so one cycle per pending ring and one more is all the loop can
    run: any fuel above [pending_rings] gives the same outcome
    ([final_pass_loop_enough]). *)
Definition drain_final_pass (clock : nat -> N) (d : DrainThread)
  : option DrainThread :=
  final_pass_loop (S (S (pending_rings d))) clock O
    (upd_metrics inc_final_drains d).

(** [drain_worker_thread] from the exit of its main loop to its return. *)
Definition drain_worker_shutdown (clock : nat -> N) (d : DrainThread)
  : option DrainThread :=
  match drain_final_pass clock d with
  | None => None
  | Some d1 => Some (set_state d1 DRAIN_STATE_STOPPED)
  end.

(** ** Lifecycle *)

(** [drain_thread_start] on a non-null handle; [create_rc] is the result
    of [pthread_create]. *)
Definition drain_thread_start (create_rc : Z) (d : DrainThread)
  : Z * DrainThread :=
  match state d with
  | DRAIN_STATE_INITIALIZED =>
      if (create_rc =? 0)%Z
      then (0%Z, set_thread_started (set_state d DRAIN_STATE_RUNNING) true)
      else (create_rc, set_state d DRAIN_STATE_INITIALIZED)
  | DRAIN_STATE_RUNNING => (0%Z, d)
  | DRAIN_STATE_STOPPING | DRAIN_STATE_STOPPED => ((- EALREADY)%Z, d)
  | DRAIN_STATE_UNINITIALIZED => ((- EINVAL)%Z, d)
  end.

(** [drain_thread_stop] on a non-null handle; [join_rc] is the result of
    [pthread_join].  A join that returns 0 has waited for the worker, which
    leaves its main loop at the state stored here and runs its shutdown
    part; [None] when that never returns. *)
Definition drain_thread_stop (clock : nat -> N) (join_rc : Z) (d : DrainThread)
  : option (Z * DrainThread) :=
  match state d with
  | DRAIN_STATE_INITIALIZED => Some (0%Z, d)
  | DRAIN_STATE_STOPPED =>
      if thread_started d
      then Some (join_rc, set_thread_started d false)
      else Some (0%Z, d)
  | st =>
      let d1 := match st with
                | DRAIN_STATE_RUNNING => set_state d DRAIN_STATE_STOPPING
                | _ => d
                end in
      if thread_started d1 then
        if (join_rc =? 0)%Z then
          match drain_worker_shutdown clock d1 with
          | None => None
          | Some d2 => Some (0%Z, set_thread_started d2 false)
          end
        else Some (join_rc, set_thread_started d1 false)
      else Some (0%Z, d1)
  end.

Definition drain_thread_get_state (d : option DrainThread) : DrainState :=
  match d with
  | None => DRAIN_STATE_UNINITIALIZED
  | Some d => state d
  end.

(** ** The session's per-thread files *)

(** The spec's per-thread file writer receives ring payloads; an entry
    [(slot, is_detail, ring_idx)] records one ring handed to it.
    [drain_thread.c] holds no writer handle and calls nothing but the lane
    and registry functions above, so each of its operations carries the
    files through as they were. *)
Record DrainWorld : Type := mk_world {
  drain : DrainThread;
  handed_to_writer : list (N * bool * N)
}.

Definition world_drain_lane (w : DrainWorld) (slot_index : N)
    (lane : option Lane) (is_detail final_pass : bool)
  : option (N * bool * DrainWorld * option Lane) :=
  match drain_lane (drain w) slot_index lane is_detail final_pass with
  | None => None
  | Some (processed, hit_limit, d', lane') =>
      Some (processed, hit_limit, mk_world d' (handed_to_writer w), lane')
  end.

Definition world_worker_shutdown (clock : nat -> N) (w : DrainWorld)
  : option DrainWorld :=
  match drain_worker_shutdown clock (drain w) with
  | None => None
  | Some d' => Some (mk_world d' (handed_to_writer w))
  end.

(** ** Concrete scenarios *)

Definition lane_of (submit free : list N) : Lane := mk_lane submit free 4.

Definition demo_registry : ThreadRegistry :=
  mk_registry
    [ mk_lanes 4096 true (lane_of [0; 1; 2] [3]) (lane_of [] [0; 1; 2; 3]);
      mk_lanes 4097 false (lane_of [1] [0; 2]) (lane_of [] [0; 1; 2; 3]);
      mk_lanes 4098 true (lane_of [2] [3; 0]) (lane_of [1; 3] [0]) ].

Definition demo_drain (st : DrainState) (batch quantum : N) : DrainThread :=
  mk_drain st (Some demo_registry) (mk_drain_config 0 batch quantum false)
    true 1 0 drain_metrics_atomic_reset.

Definition demo_world (st : DrainState) : DrainWorld :=
  mk_world (demo_drain st 2 8) [].

(** ** Vocabulary: well-formed lanes and what a drain leaves of them *)

(** A lane whose free queue has room for every ring still in its submit
    queue (the pool invariant), whose submitted indices are real ring
    indices (not the NONE marker) and whose queue size is below that
    marker. *)
Definition lane_wf (ln : Lane) : Prop :=
  (length (free_q ln) + length (submit_q ln) <= free_capacity ln)%nat
  /\ Forall (fun r => r <> UINT32_MAX) (submit_q ln)
  /\ N.of_nat (free_capacity ln) < UINT32_MAX.

(** The lane after its first [k] submitted rings went to the free queue. *)
Definition drained (k : nat) (ln : Lane) : Lane :=
  mk_lane (drop k (submit_q ln)) (free_q ln ++ take k (submit_q ln))
          (free_capacity ln).

(** Rings one [drain_lane] call takes under [limit]. *)
Definition quota (limit : N) (ln : Lane) : nat :=
  Nat.min (N.to_nat limit) (length (submit_q ln)).

(** ** Vocabulary: one slot of a cycle *)

(** Both lanes of a slot are well-formed. *)
Definition lanes_wf (lanes : ThreadLaneSet) : Prop :=
  lane_wf (index_lane lanes) /\ lane_wf (detail_lane lanes).

(** Every active slot holds well-formed lanes, and the slot array is small
    enough for [start + offset] to stay within [uint32_t]. *)
Definition registry_wf (reg : ThreadRegistry) : Prop :=
  N.of_nat (length (slots reg)) <= 2147483648
  /\ Forall (fun lanes => active lanes = true -> lanes_wf lanes) (slots reg).

(** What one visit of a cycle under [limit] leaves of a slot. *)
Definition cycle_lanes (limit : N) (lanes : ThreadLaneSet) : ThreadLaneSet :=
  if active lanes
  then mk_lanes (thread_id lanes) true
         (drained (quota limit (index_lane lanes)) (index_lane lanes))
         (drained (quota limit (detail_lane lanes)) (detail_lane lanes))
  else lanes.

(** [*out_hit_limit] of a lane drained under [limit]. *)
Definition lane_hit (limit : N) (ln : Lane) : bool :=
  negb (limit =? UINT32_MAX) && (N.of_nat (quota limit ln) =? limit).

(** Lanes of a slot whose drain under [limit] reports [*out_hit_limit]. *)
Definition slot_hits (limit : N) (lanes : ThreadLaneSet) : nat :=
  if active lanes
  then ((if lane_hit limit (index_lane lanes) then 1 else 0)
        + (if lane_hit limit (detail_lane lanes) then 1 else 0))%nat
  else O.

(** Rings one visit under [limit] takes from a slot. *)
Definition slot_taken (limit : N) (lanes : ThreadLaneSet) : nat :=
  if active lanes
  then (quota limit (index_lane lanes) + quota limit (detail_lane lanes))%nat
  else O.

(** The fields of the drain that no cycle writes. *)
Definition same_control (d d' : DrainThread) : Prop :=
  state d' = state d /\ config d' = config d
  /\ thread_started d' = thread_started d.

(** The counters only the worker loop itself advances. *)
Definition same_loop_metrics (m m' : DrainMetricsAtomic) : Prop :=
  cycles_total m' = cycles_total m /\ cycles_idle m' = cycles_idle m
  /\ sleeps m' = sleeps m /\ yields m' = yields m
  /\ final_drains m' = final_drains m /\ total_sleep_us m' = total_sleep_us m.

(** [atomic_fetch_add(&counter, 1)] on a 64-bit counter. *)
Definition incr64 (x : N) : N := wrap64 (x + 1).

(** The effect of one [drain_lane] call followed by its fairness
    bookkeeping in [drain_cycle]. *)
Definition after_lane (d : DrainThread) (slot : N) (ln : Lane)
    (is_detail final_pass : bool) : DrainThread :=
  let limit := compute_effective_limit d final_pass in
  let k := N.of_nat (quota limit ln) in
  let d1 := if k =? 0 then d
            else set_metrics d (add_ring_metrics (metrics d) slot is_detail k) in
  if lane_hit limit ln then add_fairness_switch d1 else d1.

(** ** Vocabulary: the round-robin order *)

(** The slot indices the [for] loop of [drain_cycle] computes, in order. *)
Fixpoint cycle_order (n : nat) (offset start capacity : N) : list N :=
  match n with
  | O => []
  | S k => wrap32 (start + offset) mod capacity
           :: cycle_order k (wrap32 (offset + 1)) start capacity
  end.

(** The loop of [drain_cycle] run over a given list of slot indices. *)
Fixpoint visit_slots (idxs : list N) (final_pass work_done : bool)
    (d : DrainThread) : option (bool * DrainThread) :=
  match idxs with
  | [] => Some (work_done, d)
  | slot :: rest =>
      match drain_cycle_slot d slot final_pass work_done with
      | None => None
      | Some (work, d') => visit_slots rest final_pass work d'
      end
  end.

Definition taken_at (limit : N) (reg : ThreadRegistry) (slot : N) : nat :=
  from_option (slot_taken limit) O (slots reg !! N.to_nat slot).

Definition hits_at (limit : N) (reg : ThreadRegistry) (slot : N) : nat :=
  from_option (slot_hits limit) O (slots reg !! N.to_nat slot).

(** ** Vocabulary: the final pass *)

(** A lane whose whole submit queue went to the free queue. *)
Definition flushed (ln : Lane) : Lane :=
  mk_lane [] (free_q ln ++ submit_q ln) (free_capacity ln).

(** What the final pass leaves of a slot. *)
Definition final_lanes (lanes : ThreadLaneSet) : ThreadLaneSet :=
  if active lanes
  then mk_lanes (thread_id lanes) true
         (flushed (index_lane lanes)) (flushed (detail_lane lanes))
  else lanes.

Definition EBUSY : Z := 16.

(** ** Creation, reconfiguration and destruction *)

(** [drain_thread_create]; [calloc_ok] tells whether the allocation
    succeeds, [mutex_init_rc] is the result of [pthread_mutex_init] and
    [now] the monotonic clock at the call. *)
Definition drain_thread_create (calloc_ok : bool) (mutex_init_rc : Z) (now : N)
    (registry : option ThreadRegistry) (config : option DrainConfig)
  : option DrainThread :=
  match registry with
  | None => None
  | Some reg =>
      if negb calloc_ok then None
      else
        let local_config :=
          match config with
          | Some c => c
          | None => drain_config_default
          end in
        let drain :=
          mk_drain DRAIN_STATE_INITIALIZED (Some reg) local_config false 0 now
            drain_metrics_atomic_reset in
        if (mutex_init_rc =? 0)%Z then Some drain else None
  end.

(** [drain_thread_update_config] on a non-null handle. *)
Definition drain_thread_update_config (d : DrainThread)
    (config : option DrainConfig) : Z * DrainThread :=
  match config with
  | None => ((- EINVAL)%Z, d)
  | Some c =>
      match state d with
      | DRAIN_STATE_RUNNING | DRAIN_STATE_STOPPING => ((- EBUSY)%Z, d)
      | _ => (0%Z, mk_drain (state d) (registry d) c (thread_started d)
                      (rr_cursor d) (last_cycle_ns d) (metrics d))
      end
  end.

(** [drain_thread_destroy] on a non-null handle.  The drain itself is freed;
    what the call leaves behind is the registry the drain pointed to.
    [None] when the implied [drain_thread_stop] never returns. *)
Definition drain_thread_destroy (clock : nat -> N) (join_rc : Z)
    (d : DrainThread) : option (option ThreadRegistry) :=
  match state d with
  | DRAIN_STATE_RUNNING | DRAIN_STATE_STOPPING =>
      match drain_thread_stop clock join_rc d with
      | None => None
      | Some (_, d') => Some (registry d')
      end
  | _ => Some (registry d)
  end.

(** ** Metrics snapshot *)

(** Modelled from the spec: the public [DrainMetrics] record is declared in
    [drain_thread/drain_thread.h], which is not among the sources; its
    fields are the ones [drain_metrics_snapshot] writes. *)
Module Snapshot.
Record DrainMetrics : Type := mk_snapshot {
  cycles_total : N;
  cycles_idle : N;
  rings_total : N;
  rings_index : N;
  rings_detail : N;
  fairness_switches : N;
  sleeps : N;
  yields : N;
  final_drains : N;
  total_sleep_us : N;
  rings_per_thread : list (N * N)   (* [MAX_THREADS][2] *)
}.
End Snapshot.

(** [drain_metrics_snapshot] on non-null arguments: the record written to
    [*out], zeroed first and then filled row by row. *)
Definition drain_metrics_snapshot (d : DrainThread) : Snapshot.DrainMetrics :=
  let src := metrics d in
  Snapshot.mk_snapshot (cycles_total src) (cycles_idle src) (rings_total src)
    (rings_index src) (rings_detail src) (fairness_switches src) (sleeps src)
    (yields src) (final_drains src) (total_sleep_us src)
    ((fun i => default (0, 0) (per_thread_rings src !! i))
       <$> seq 0 (N.to_nat MAX_THREADS)).

Definition drain_thread_get_metrics (d : DrainThread) : Snapshot.DrainMetrics :=
  drain_metrics_snapshot d.

(** ** Test helpers *)

Definition drain_thread_test_set_rr_cursor (d : DrainThread) (value : N)
  : DrainThread :=
  mk_drain (state d) (registry d) (config d) (thread_started d)
           value (last_cycle_ns d) (metrics d).

Definition drain_thread_test_get_rr_cursor (d : DrainThread) : N := rr_cursor d.

(** ** The worker's main loop *)

(** The first [n] iterations of the [while (state == RUNNING)] loop of
    [drain_worker_thread], no other thread storing a state meanwhile;
    [clock j] is the monotonic clock at the end of the [j]-th cycle. *)
Fixpoint drain_worker_loop (n : nat) (clock : nat -> N) (k : nat)
    (d : DrainThread) : option DrainThread :=
  match n with
  | O => Some d
  | S n' =>
      match state d with
      | DRAIN_STATE_RUNNING =>
          match drain_worker_iteration (clock k) d with
          | None => None
          | Some d' => drain_worker_loop n' clock (S k) d'
          end
      | _ => Some d
      end
  end.

(** ** Vocabulary: counting rings *)

(** Rings standing in the submit queues of the active slots. *)
Definition active_backlog (reg : ThreadRegistry) : nat :=
  sum_list_with lanes_pending
    (filter (fun lanes => active lanes = true) (slots reg)).

(** Entries of the free queues of all index lanes, and of all detail
    lanes. *)
Definition freed_index (reg : ThreadRegistry) : nat :=
  sum_list_with (fun lanes => length (free_q (index_lane lanes))) (slots reg).

Definition freed_detail (reg : ThreadRegistry) : nat :=
  sum_list_with (fun lanes => length (free_q (detail_lane lanes))) (slots reg).

(** [atomic_fetch_add(&counter, delta)] on a 64-bit counter, which
    [drain_lane] skips when it processed nothing. *)
Definition counter_add (x delta : N) : N :=
  if delta =? 0 then x else wrap64 (x + delta).

(** The ring counters of [m'] are those of [m] advanced by the rings that
    reached the free queues between [reg] and [reg']. *)
Definition rings_counted (m : DrainMetricsAtomic) (reg : ThreadRegistry)
    (m' : DrainMetricsAtomic) (reg' : ThreadRegistry) : Prop :=
  (freed_index reg <= freed_index reg')%nat
  /\ (freed_detail reg <= freed_detail reg')%nat
  /\ rings_index m'
     = counter_add (rings_index m)
         (N.of_nat (freed_index reg' - freed_index reg))
  /\ rings_detail m'
     = counter_add (rings_detail m)
         (N.of_nat (freed_detail reg' - freed_detail reg))
  /\ rings_total m'
     = counter_add (rings_total m)
         (N.of_nat ((freed_index reg' - freed_index reg)
                    + (freed_detail reg' - freed_detail reg))).

(** The per-thread rows add up to [rings_total], which is the sum of the
    two lane counters (all modulo 2^64). *)
Definition counters_agree (m : DrainMetricsAtomic) : Prop :=
  length (per_thread_rings m) = N.to_nat MAX_THREADS
  /\ rings_total m = wrap64 (rings_index m + rings_detail m)
  /\ wrap64 (sum_N ((fun p => fst p + snd p) <$> per_thread_rings m))
     = rings_total m.

(** What [n] non-final cycles under [limit] leave of a slot. *)
Definition batches (limit : N) (n : nat) (lanes : ThreadLaneSet)
  : ThreadLaneSet :=
  if active lanes
  then mk_lanes (thread_id lanes) true
         (drained (quota (N.of_nat n * limit) (index_lane lanes))
                  (index_lane lanes))
         (drained (quota (N.of_nat n * limit) (detail_lane lanes))
                  (detail_lane lanes))
  else lanes.

(** ** Vocabulary: steps of the ring accounting *)

(** The ring counters one lane drain leaves behind, fairness bookkeeping
    included. *)
Definition lane_step (d : DrainThread) (slot : N) (is_detail hit : bool)
    (processed : N) : DrainThread :=
  let d1 := if processed =? 0 then d
            else set_metrics d (add_ring_metrics (metrics d) slot is_detail
                                  processed) in
  if hit then add_fairness_switch d1 else d1.

(** [d'] is [d] after some draining: the ring counters followed the free
    queues and the per-thread rows stayed consistent. *)
Definition ring_step (d d' : DrainThread) : Prop :=
  exists reg reg',
    registry d = Some reg /\ registry d' = Some reg'
    /\ length (slots reg') = length (slots reg)
    /\ rings_counted (metrics d) reg (metrics d') reg'
    /\ ((length (slots reg) <= N.to_nat MAX_THREADS)%nat ->
        counters_agree (metrics d) -> counters_agree (metrics d')).

(** [d'] differs from [d] in nothing the ring accounting reads. *)
Definition same_rings (d d' : DrainThread) : Prop :=
  registry d' = registry d
  /\ rings_total (metrics d') = rings_total (metrics d)
  /\ rings_index (metrics d') = rings_index (metrics d)
  /\ rings_detail (metrics d') = rings_detail (metrics d)
  /\ per_thread_rings (metrics d') = per_thread_rings (metrics d).

End Drain.

(** * Properties *)

(** ** Machine integers *)

Lemma wrap64_small x : x < 18446744073709551616 -> wrap64 x = x.
Proof. intros H. unfold wrap64. now apply N.mod_small. Qed.

Lemma wrap32_small x : x < 4294967296 -> wrap32 x = x.
Proof. intros H. unfold wrap32. now apply N.mod_small. Qed.

Lemma sub64_le a b :
  b <= a -> a < 18446744073709551616 -> sub64 a b = a - b.
Proof.
  intros Hba Ha. unfold sub64, wrap64.
  rewrite (N.mod_small a) by lia. rewrite (N.mod_small b) by lia.
  replace (a + (18446744073709551616 - b))
    with ((a - b) + 1 * 18446744073709551616) by lia.
  rewrite N.Div0.mod_add. apply N.mod_small. lia.
Qed.

Lemma sub64_lt a b :
  a < b -> b < 18446744073709551616 ->
  sub64 a b = 18446744073709551616 - (b - a).
Proof.
  intros Hab Hb. unfold sub64, wrap64.
  rewrite (N.mod_small a) by lia. rewrite (N.mod_small b) by lia.
  rewrite N.mod_small by lia. lia.
Qed.

Lemma wrap64_add_l a b : wrap64 (wrap64 a + b) = wrap64 (a + b).
Proof. unfold wrap64. apply N.Div0.add_mod_idemp_l. Qed.

Lemma wrap64_add_r a b : wrap64 (a + wrap64 b) = wrap64 (a + b).
Proof. unfold wrap64. apply N.Div0.add_mod_idemp_r. Qed.

Lemma sum_N_app l1 l2 : sum_N (l1 ++ l2) = sum_N l1 + sum_N l2.
Proof.
  induction l1 as [|x l1 IH]; [reflexivity|].
  unfold sum_N in *. cbn [app fold_right]. rewrite IH. lia.
Qed.

Module BackpressureFacts.
Import Backpressure.

(** ** Modes *)

Lemma mode_eqb_eq a b : mode_eqb a b = true <-> a = b.
Proof. destruct a, b; simpl; split; congruence. Qed.

(** ** Configuration validator: repair and idempotence *)

Ltac validate_cases :=
  unfold bp_config_validate, validate_pressure, validate_recovery,
    validate_order, validate_interval, validate_stable,
    range_repaired_pressure, range_repaired_recovery, wrap32; simpl;
  repeat match goal with
         | |- context [N.eqb ?a ?b] => destruct (N.eqb_spec a b); simpl
         | |- context [N.leb ?a ?b] => destruct (N.leb_spec a b); simpl
         | |- context [N.ltb ?a ?b] => destruct (N.ltb_spec a b); simpl
         end.

Lemma wrap32_plus5 p : p < 95 -> (p + 5) mod 4294967296 = p + 5.
Proof. intros H. apply N.mod_small. lia. Qed.

Lemma bp_config_validate_thresholds cfg :
  thresholds_ok (snd (bp_config_validate cfg)).
Proof.
  destruct cfg as [p r s d]. unfold thresholds_ok.
  validate_cases; simpl; try rewrite wrap32_plus5 by lia; lia.
Qed.

Lemma bp_config_validate_ok cfg : config_ok (snd (bp_config_validate cfg)).
Proof.
  split; [apply bp_config_validate_thresholds|].
  destruct cfg as [p r s d].
  validate_cases; simpl; split; lia.
Qed.

Lemma bp_config_validate_fixpoint c :
  config_ok c -> bp_config_validate c = (true, c).
Proof.
  destruct c as [p r s d]. unfold config_ok, thresholds_ok. simpl.
  intros [(Hp & Hpr & Hr) [Hd Hs]].
  validate_cases; try lia; reflexivity.
Qed.

(** C5.  For every configuration record, [bp_config_validate] reports
    "invalid" (returns false) whenever the pressure threshold is outside
    (0,100), the recovery threshold is outside (0,100], or recovery is not
    strictly above pressure.  Inverted thresholds (as they stand after the
    two range repairs) become recovery = pressure + 5 when pressure < 95,
    and otherwise both are reset to the defaults 25/50.  After any call
    0 < pressure < recovery <= 100 holds. *)
Theorem bp_config_validate_repairs (cfg : ada_backpressure_config_t) :
  let p := pressure_threshold_percent cfg in
  let r := recovery_threshold_percent cfg in
  let p1 := range_repaired_pressure p in
  let r1 := range_repaired_recovery r in
  let out := snd (bp_config_validate cfg) in
  ((p = 0 \/ 100 <= p \/ r = 0 \/ 100 < r \/ r <= p) ->
     fst (bp_config_validate cfg) = false)
  /\ (r1 <= p1 -> p1 < 95 ->
        pressure_threshold_percent out = p1
        /\ recovery_threshold_percent out = p1 + 5)
  /\ (r1 <= p1 -> 95 <= p1 ->
        pressure_threshold_percent out = 25
        /\ recovery_threshold_percent out = 50)
  /\ (p1 < r1 ->
        pressure_threshold_percent out = p1
        /\ recovery_threshold_percent out = r1)
  /\ 0 < pressure_threshold_percent out
  /\ pressure_threshold_percent out < recovery_threshold_percent out
  /\ recovery_threshold_percent out <= 100.
Proof.
  intros p r p1 r1 out.
  pose proof (bp_config_validate_thresholds cfg) as Hpost.
  split; [|split; [|split; [|split; [|exact Hpost]]]];
    subst p r p1 r1 out; clear Hpost; destruct cfg as [p r s d]; simpl;
    validate_cases; simpl; try rewrite wrap32_plus5 by lia;
    intros; try lia; try (split; (reflexivity || lia)).
Qed.

(** C9.  [bp_config_validate] is idempotent: after one call on any record,
    a second call returns true and leaves every field unchanged. *)
Theorem bp_config_validate_idempotent (cfg : ada_backpressure_config_t) :
  bp_config_validate (snd (bp_config_validate cfg))
  = (true, snd (bp_config_validate cfg)).
Proof.
  apply bp_config_validate_fixpoint, bp_config_validate_ok.
Qed.

(** ** The sampled transition table *)

Lemma bp_threshold_crossed_spec percent total free :
  0 < total -> total < 4294967296 -> free < 4294967296 -> percent <= 100 ->
  bp_threshold_crossed percent total free = true
  <-> below_threshold percent total free.
Proof.
  intros Ht Htr Hf Hp. unfold bp_threshold_crossed, below_threshold.
  destruct (N.eqb_spec total 0) as [->|_]; [lia|].
  rewrite (wrap64_small (free * 100)) by lia.
  rewrite (wrap64_small (percent * total)) by nia.
  apply N.ltb_lt.
Qed.

Lemma bp_transition_mode l s expected desired now :
  mode (snd (bp_transition (l, s) expected desired now))
  = if mode_eqb (mode s) expected then desired else mode s.
Proof. unfold bp_transition. destruct (mode_eqb (mode s) expected); reflexivity. Qed.

Lemma sample_prefix_mode s free :
  mode (bp_update_low_watermark (set_free_rings s free) free) = mode s.
Proof. unfold bp_update_low_watermark. simpl. destruct (_ <? _); reflexivity. Qed.

Lemma sample_prefix_config s free :
  config (bp_update_low_watermark (set_free_rings s free) free) = config s.
Proof. unfold bp_update_low_watermark. simpl. destruct (_ <? _); reflexivity. Qed.

Lemma sample_prefix_total s free :
  bp_total_effective (bp_update_low_watermark (set_free_rings s free) free)
  = bp_total_effective s.
Proof.
  unfold bp_total_effective, bp_update_low_watermark. simpl.
  destruct (_ <? _); reflexivity.
Qed.

Lemma sample_prefix_candidate s free :
  recovery_candidate_ns (bp_update_low_watermark (set_free_rings s free) free)
  = recovery_candidate_ns s.
Proof. unfold bp_update_low_watermark. simpl. destruct (_ <? _); reflexivity. Qed.

Ltac mode_after Hm :=
  cbv beta iota delta [negb]; cbn [snd set_recovery_candidate_ns mode];
  rewrite ?bp_transition_mode, ?sample_prefix_mode, ?Hm;
  cbn [mode_eqb].

(** C1, as the code has it.  With [total_rings] T > 0, one call of
    [ada_backpressure_state_sample(state, free, now)] moves the mode as the
    transition table says: NORMAL to PRESSURE iff free*100 < pressure*T;
    PRESSURE to DROPPING iff free = 0 and to NORMAL iff
    free*100 >= pressure*T; DROPPING to RECOVERY iff
    free*100 >= recovery*T; RECOVERY to PRESSURE iff free*100 < pressure*T
    and to NORMAL iff the sample is not below the pressure threshold, a
    recovery candidate is recorded and the unsigned 64-bit difference
    now - candidate is at least [recovery_stable_ns]; in every other case
    the mode is unchanged.  For a timestamp that is not earlier than the
    candidate the last condition says that the free count has stayed
    recovered for at least [recovery_stable_ns]; for an earlier one the
    difference is 2^64 - (candidate - now).  The state carries validated
    thresholds (as [ada_backpressure_state_init] leaves them, see
    [reachable_thresholds_ok]) and the arguments are in their C ranges. *)
Theorem sample_follows_transition_table
    (clock : N) (l : bp_log_t) (s : ada_backpressure_state_t) (free now_ns : N) :
  0 < total_rings s ->
  total_rings s < 4294967296 ->
  free < 4294967296 ->
  thresholds_ok (config s) ->
  resolve_now clock now_ns < 18446744073709551616 ->
  let T := total_rings s in
  let p := pressure_threshold_percent (config s) in
  let r := recovery_threshold_percent (config s) in
  let now := resolve_now clock now_ns in
  let m' := mode (snd (ada_backpressure_state_sample clock (l, s) free now_ns)) in
  match mode s with
  | NORMAL =>
      (m' = PRESSURE <-> free * 100 < p * T)
      /\ (m' = NORMAL <-> ~ free * 100 < p * T)
  | PRESSURE =>
      (m' = DROPPING <-> free = 0)
      /\ (m' = NORMAL <-> p * T <= free * 100)
      /\ (m' = PRESSURE <-> free <> 0 /\ free * 100 < p * T)
  | DROPPING =>
      (m' = RECOVERY <-> r * T <= free * 100)
      /\ (m' = DROPPING <-> ~ r * T <= free * 100)
  | RECOVERY =>
      (m' = PRESSURE <-> free * 100 < p * T)
      /\ (m' = NORMAL <-> recovery_window_elapsed s free now)
      /\ (m' = RECOVERY <->
            ~ free * 100 < p * T /\ ~ recovery_window_elapsed s free now)
      /\ (recovery_candidate_ns s <= now ->
          (recovery_window_elapsed s free now <-> stayed_recovered s free now))
      /\ (now < recovery_candidate_ns s ->
          recovery_candidate_ns s < 18446744073709551616 ->
          sub64 now (recovery_candidate_ns s)
          = 18446744073709551616 - (recovery_candidate_ns s - now))
  end.
Proof.
  intros HT HTr Hf (Hp & Hpr & Hr) Hnow T p r now m'.
  assert (Htot : bp_total_effective s = T).
  { unfold bp_total_effective, T. destruct (N.eqb_spec (total_rings s) 0); [lia|reflexivity]. }
  assert (Hcp : if bp_threshold_crossed p T free
                then free * 100 < p * T else ~ free * 100 < p * T).
  { pose proof (bp_threshold_crossed_spec p T free HT HTr Hf) as H.
    unfold below_threshold in H.
    destruct (bp_threshold_crossed p T free).
    - apply H; [subst p; lia | reflexivity].
    - intros Hlt. apply H in Hlt; [congruence | subst p; lia]. }
  assert (Hcr : if bp_threshold_crossed r T free
                then free * 100 < r * T else ~ free * 100 < r * T).
  { pose proof (bp_threshold_crossed_spec r T free HT HTr Hf) as H.
    unfold below_threshold in H.
    destruct (bp_threshold_crossed r T free).
    - apply H; [subst r; lia | reflexivity].
    - intros Hlt. apply H in Hlt; [congruence | subst r; lia]. }
  subst m'. unfold ada_backpressure_state_sample.
  rewrite sample_prefix_mode, sample_prefix_config, sample_prefix_total,
    sample_prefix_candidate, Htot.
  fold p r now.
  assert (Hpos : 0 < p * T) by (subst p; nia).
  destruct (mode s) eqn:Hm.
  - (* NORMAL *)
    destruct (bp_threshold_crossed p T free); mode_after Hm;
      split; split; intros; try congruence; try lia; tauto.
  - (* PRESSURE *)
    destruct (N.eqb_spec free 0) as [Hz|Hz];
      [|destruct (bp_threshold_crossed p T free)]; mode_after Hm;
      repeat split; intros; try congruence; try lia.
  - (* DROPPING *)
    destruct (bp_threshold_crossed r T free); mode_after Hm;
      repeat split; intros; try congruence; try lia.
  - (* RECOVERY *)
    assert (Hmono : recovery_candidate_ns s <= now ->
              (recovery_window_elapsed s free now
               <-> stayed_recovered s free now)).
    { intros Hcand. unfold recovery_window_elapsed, stayed_recovered.
      rewrite (sub64_le _ _ Hcand Hnow). tauto. }
    assert (Hwrap : now < recovery_candidate_ns s ->
              recovery_candidate_ns s < 18446744073709551616 ->
              sub64 now (recovery_candidate_ns s)
              = 18446744073709551616 - (recovery_candidate_ns s - now)).
    { intros Hlt Hc. now apply sub64_lt. }
    split; [|split; [|split; [|split; [exact Hmono|exact Hwrap]]]];
      clear Hmono Hwrap;
      unfold recovery_window_elapsed, below_threshold; fold p T.
    all: destruct (bp_threshold_crossed p T free);
      [mode_after Hm; repeat split; intros; try congruence; try lia; tauto|].
    all: destruct (N.eqb_spec (recovery_candidate_ns s) 0) as [Hz|Hz];
      [mode_after Hm; repeat split; intros; try congruence; try lia; tauto|].
    all: destruct (N.leb_spec (recovery_stable_ns (config s))
                     (sub64 now (recovery_candidate_ns s))) as [Hst|Hst];
      [|mode_after Hm; repeat split; intros; try congruence; try lia; tauto].
    all: cbv beta iota;
      destruct (bp_transition _ RECOVERY NORMAL _) as [l1 s1] eqn:Ht;
      assert (Hm1 : mode s1 = NORMAL)
        by (change s1 with (snd (l1, s1)); rewrite <- Ht;
            rewrite bp_transition_mode, sample_prefix_mode, Hm; reflexivity);
      cbn [snd set_last_recovery_ns mode]; rewrite Hm1;
      repeat split; intros; try congruence; try lia; tauto.
Qed.

Lemma sample_follows_transition_table_witness :
  let m' := mode (snd (ada_backpressure_state_sample 0 (log0, recovering_state)
                         3 1000000045)) in
  (m' = PRESSURE <-> 3 * 100 < 25 * 4)
  /\ (m' = NORMAL <-> recovery_window_elapsed recovering_state 3 1000000045)
  /\ (m' = RECOVERY <->
        ~ 3 * 100 < 25 * 4
        /\ ~ recovery_window_elapsed recovering_state 3 1000000045)
  /\ (40 <= 1000000045 ->
      (recovery_window_elapsed recovering_state 3 1000000045
       <-> stayed_recovered recovering_state 3 1000000045))
  /\ (1000000045 < 40 -> 40 < 18446744073709551616 ->
      sub64 1000000045 40 = 18446744073709551616 - (40 - 1000000045)).
Proof.
  refine (sample_follows_transition_table 0 log0 recovering_state 3 1000000045
            _ _ _ _ _); try reflexivity.
  repeat split; cbn; lia.
Defined.

(** C1 as stated fails.  The trace follows the repository's ring-pool
    test: a lane of four rings is driven to DROPPING, a sample of three
    free rings with [now_ns] = 0 enters RECOVERY at the clock's time
    (5 s here), and the next sample carries the explicit timestamp 1.1 s.
    No time has passed since the candidate, let alone
    [recovery_stable_ns] = 1 s, yet the unsigned difference wraps around
    and the mode returns to NORMAL. *)
Lemma sample_leaves_recovery_on_earlier_timestamp :
  let w := run_calls
             (log0, ada_backpressure_state_set_total_rings
                      (ada_backpressure_state_init None) 4)
             [CallSample 0 0 10; CallSample 0 0 20;
              CallSample 5000000000 3 0] in
  let s := snd w in
  let m' := mode (snd (ada_backpressure_state_sample 0 w 3 1100000000)) in
  0 < total_rings s
  /\ mode s = RECOVERY
  /\ recovery_candidate_ns s = 5000000000
  /\ recovery_stable_ns (config s) = 1000000000
  /\ m' = NORMAL
  /\ ~ stayed_recovered s 3 (resolve_now 0 1100000000)
  /\ ~ (m' = NORMAL <-> stayed_recovered s 3 (resolve_now 0 1100000000)).
Proof.
  cbv zeta.
  assert (Hno : ~ stayed_recovered
                    (snd (run_calls
                            (log0, ada_backpressure_state_set_total_rings
                                     (ada_backpressure_state_init None) 4)
                            [CallSample 0 0 10; CallSample 0 0 20;
                             CallSample 5000000000 3 0]))
                    3 (resolve_now 0 1100000000)).
  { intros (_ & _ & H). vm_compute in H. apply H. reflexivity. }
  split; [reflexivity|]. split; [reflexivity|]. split; [reflexivity|].
  split; [reflexivity|]. split; [reflexivity|]. split; [exact Hno|].
  intros [H _]. apply Hno, H. reflexivity.
Qed.

(** ** Pool exhaustion *)

(** C10.  [ada_backpressure_state_on_exhaustion] on a non-null state always
    leaves the mode DROPPING.  From NORMAL the first [bp_transition] moves
    to PRESSURE and the third to DROPPING, so two transitions are counted
    and logged; from PRESSURE or RECOVERY one transition leads straight to
    DROPPING; from DROPPING nothing changes. *)
Theorem on_exhaustion_reaches_dropping
    (clock : N) (l : bp_log_t) (s : ada_backpressure_state_t) (now_ns : N) :
  let now := resolve_now clock now_ns in
  let w' := ada_backpressure_state_on_exhaustion clock (l, s) now_ns in
  mode (snd w') = DROPPING
  /\ match mode s with
     | NORMAL =>
         mode (snd (bp_transition (l, s) NORMAL PRESSURE now)) = PRESSURE
         /\ w' = bp_transition (bp_transition (l, s) NORMAL PRESSURE now)
                   PRESSURE DROPPING now
         /\ transitions (snd w') = wrap64 (wrap64 (transitions s + 1) + 1)
         /\ g_state_log_invocations (fst w')
            = wrap64 (wrap64 (g_state_log_invocations l + 1) + 1)
         /\ g_last_prev_state (fst w') = PRESSURE
         /\ g_last_next_state (fst w') = DROPPING
     | PRESSURE =>
         w' = bp_transition (l, s) PRESSURE DROPPING now
         /\ transitions (snd w') = wrap64 (transitions s + 1)
         /\ g_state_log_invocations (fst w')
            = wrap64 (g_state_log_invocations l + 1)
         /\ g_last_prev_state (fst w') = PRESSURE
     | RECOVERY =>
         w' = bp_transition (l, s) RECOVERY DROPPING now
         /\ transitions (snd w') = wrap64 (transitions s + 1)
         /\ g_state_log_invocations (fst w')
            = wrap64 (g_state_log_invocations l + 1)
         /\ g_last_prev_state (fst w') = RECOVERY
     | DROPPING => w' = (l, s)
     end.
Proof.
  intros now w'. subst w'. unfold ada_backpressure_state_on_exhaustion.
  fold now. destruct s as [m t e b q f tot lw ld lr ps rc c].
  destruct m; cbn; repeat split; reflexivity.
Qed.

(** ** Drop accounting *)

Lemma on_drop_counters clock l s bytes now_ns :
  let s' := snd (ada_backpressure_state_on_drop clock (l, s) bytes now_ns) in
  events_dropped s' = wrap64 (events_dropped s + 1)
  /\ bytes_dropped s' = wrap64 (bytes_dropped s + wrap64 bytes)
  /\ drop_sequences s' = wrap64 (drop_sequences s + 1)
  /\ last_drop_ns s' = resolve_now clock now_ns.
Proof.
  unfold ada_backpressure_state_on_drop. cbn.
  destruct (negb _); [destruct (_ =? 0)|]; cbn; repeat split; reflexivity.
Qed.

(** The human-readable drop log fires exactly when the interval is
    non-zero and divides the running drop count. *)
Lemma on_drop_log_gate clock l s bytes now_ns :
  let w' := ada_backpressure_state_on_drop clock (l, s) bytes now_ns in
  let interval := drop_log_interval (config s) in
  fst w' =
    if negb (interval =? 0) && (wrap64 (events_dropped s + 1) mod interval =? 0)
    then bp_log_drop_event l else l.
Proof.
  unfold ada_backpressure_state_on_drop. cbn.
  destruct (negb _); [destruct (_ =? 0)|]; reflexivity.
Qed.

(** C6, where the code departs from it.  [drop_sequences] is meant to
    count contiguous drop episodes, yet [ada_backpressure_state_on_drop]
    bumps it on every call: two back-to-back drops of one episode (no
    recovery, no successful write in between) leave it at 2, in lock-step
    with [events_dropped]. *)
Lemma on_drop_twice_counts_two_sequences :
  let w0 := (log0, ada_backpressure_state_init None) in
  let w1 := ada_backpressure_state_on_drop 0 w0 32 10 in
  let w2 := ada_backpressure_state_on_drop 0 w1 32 11 in
  events_dropped (snd w2) = 2
  /\ bytes_dropped (snd w2) = 64
  /\ drop_sequences (snd w2) = 2.
Proof. vm_compute. repeat split; reflexivity. Qed.

(** ** Low watermark *)

Lemma bp_transition_low_watermark w expected desired now :
  low_watermark (snd (bp_transition w expected desired now))
  = low_watermark (snd w).
Proof.
  destruct w as [l s]. unfold bp_transition.
  destruct (mode_eqb _ _); reflexivity.
Qed.

Lemma bp_update_low_watermark_le s free :
  low_watermark (bp_update_low_watermark s free) <= low_watermark s.
Proof.
  unfold bp_update_low_watermark.
  destruct (N.ltb_spec free (low_watermark s)); cbn; lia.
Qed.

Lemma sample_low_watermark clock w free now_ns :
  low_watermark (snd (ada_backpressure_state_sample clock w free now_ns))
  = N.min free (low_watermark (snd w)).
Proof.
  destruct w as [l s]. unfold ada_backpressure_state_sample.
  set (s1 := bp_update_low_watermark (set_free_rings s free) free).
  assert (H1 : low_watermark s1 = N.min free (low_watermark s)).
  { subst s1. unfold bp_update_low_watermark. cbn.
    destruct (N.ltb_spec free (low_watermark s)); cbn; lia. }
  cbn [snd].
  destruct (mode s1);
    repeat match goal with
           | |- context [if ?b then _ else _] => destruct b
           end;
    rewrite ?bp_transition_low_watermark; cbn [snd]; try exact H1.
  destruct (bp_transition (l, s1) RECOVERY NORMAL _) as [l1 s2] eqn:Ht.
  cbn. rewrite <- H1.
  change s2 with (snd (l1, s2)). rewrite <- Ht.
  apply bp_transition_low_watermark.
Qed.

Lemma run_call_low_watermark_le w c :
  low_watermark (snd (run_call w c)) <= low_watermark (snd w).
Proof.
  destruct c as [clock free now|clock bytes now|clock now|clock free now]; cbn.
  - rewrite sample_low_watermark. lia.
  - destruct w as [l s]. unfold ada_backpressure_state_on_drop. cbn.
    destruct (negb _); [destruct (_ =? 0)|]; cbn; lia.
  - unfold ada_backpressure_state_on_exhaustion.
    rewrite !bp_transition_low_watermark. lia.
  - destruct w as [l s]. unfold ada_backpressure_state_on_recovery. cbn.
    destruct (mode s); cbn; lia.
Qed.

Lemma run_calls_low_watermark_le cs : forall w,
  low_watermark (snd (run_calls w cs)) <= low_watermark (snd w).
Proof.
  induction cs as [|c cs IH]; intros w; cbn.
  - lia.
  - etransitivity; [apply IH | apply run_call_low_watermark_le].
Qed.

(** C8, as the code has it.  Over any sequence of sample, on_drop,
    on_exhaustion and on_recovery calls the stored [low_watermark] never
    increases, and the value returned by
    [ada_backpressure_state_get_low_watermark] never increases once the
    stored watermark has left its "unset" sentinel [UINT32_MAX] (while it
    is unset the getter reports 0). *)
Theorem low_watermark_non_increasing
    (w : bp_world) (before after : list bp_call) :
  let w1 := run_calls w before in
  let w2 := run_calls w1 after in
  low_watermark (snd w2) <= low_watermark (snd w1)
  /\ (low_watermark (snd w1) < UINT32_MAX ->
      ada_backpressure_state_get_low_watermark (snd w2)
      <= ada_backpressure_state_get_low_watermark (snd w1)).
Proof.
  intros w1 w2.
  pose proof (run_calls_low_watermark_le after w1) as Hle. fold w2 in Hle.
  split; [exact Hle|].
  intros Hset. unfold ada_backpressure_state_get_low_watermark.
  destruct (N.eqb_spec (low_watermark (snd w2)) UINT32_MAX);
    destruct (N.eqb_spec (low_watermark (snd w1)) UINT32_MAX); lia.
Qed.

Lemma low_watermark_non_increasing_witness :
  let w0 := (log0, ada_backpressure_state_init None) in
  let w1 := run_calls w0 [CallSample 0 3 10] in
  let w2 := run_calls w1 [CallSample 0 5 20; CallOnDrop 0 32 25;
                          CallOnExhaustion 0 30; CallSample 0 2 40;
                          CallOnRecovery 0 4 50] in
  low_watermark (snd w1) = 3
  /\ ada_backpressure_state_get_low_watermark (snd w2) = 2
  /\ ada_backpressure_state_get_low_watermark (snd w2)
     <= ada_backpressure_state_get_low_watermark (snd w1).
Proof.
  intros w0 w1 w2.
  destruct (low_watermark_non_increasing w0 [CallSample 0 3 10]
              [CallSample 0 5 20; CallOnDrop 0 32 25; CallOnExhaustion 0 30;
               CallSample 0 2 40; CallOnRecovery 0 4 50]) as [_ Hget].
  split; [reflexivity|]. split; [reflexivity|].
  apply Hget. reflexivity.
Defined.

(** C8 as stated fails: the value returned by the getter is not monotone.
    A fresh state reports 0, still 0 after a drop, and the first sample
    (3 free rings) raises the reported value to 3. *)
Lemma low_watermark_getter_rises_on_first_sample :
  let w0 := (log0, ada_backpressure_state_init None) in
  let w1 := run_calls w0 [CallOnDrop 0 32 5] in
  let w2 := run_calls w1 [CallSample 0 3 10] in
  ada_backpressure_state_get_low_watermark (snd w0) = 0
  /\ ada_backpressure_state_get_low_watermark (snd w1) = 0
  /\ ada_backpressure_state_get_low_watermark (snd w2) = 3
  /\ ~ (ada_backpressure_state_get_low_watermark (snd w2)
        <= ada_backpressure_state_get_low_watermark (snd w1)).
Proof.
  vm_compute. repeat split; try reflexivity. intros H. apply H. reflexivity.
Qed.

(** ** Invariants of reachable states *)

Lemma bp_transition_config w expected desired now :
  config (snd (bp_transition w expected desired now)) = config (snd w).
Proof.
  destruct w as [l s]. unfold bp_transition.
  destruct (mode_eqb _ _); reflexivity.
Qed.

Lemma run_call_config w c : config (snd (run_call w c)) = config (snd w).
Proof.
  destruct c as [clock free now|clock bytes now|clock now|clock free now]; cbn.
  - destruct w as [l s]. unfold ada_backpressure_state_sample.
    set (s1 := bp_update_low_watermark (set_free_rings s free) free).
    assert (H1 : config s1 = config s) by apply sample_prefix_config.
    cbn [snd].
    destruct (mode s1);
      repeat match goal with
             | |- context [if ?b then _ else _] => destruct b
             end;
      rewrite ?bp_transition_config; cbn [snd]; try exact H1.
    destruct (bp_transition (l, s1) RECOVERY NORMAL _) as [l1 s2] eqn:Ht.
    cbn. rewrite <- H1.
    change s2 with (snd (l1, s2)). rewrite <- Ht.
    apply bp_transition_config.
  - destruct w as [l s]. unfold ada_backpressure_state_on_drop. cbn.
    destruct (negb _); [destruct (_ =? 0)|]; reflexivity.
  - unfold ada_backpressure_state_on_exhaustion.
    now rewrite !bp_transition_config.
  - destruct w as [l s]. unfold ada_backpressure_state_on_recovery. cbn.
    destruct (mode s); reflexivity.
Qed.

Lemma run_calls_config cs : forall w,
  config (snd (run_calls w cs)) = config (snd w).
Proof.
  induction cs as [|c cs IH]; intros w; cbn; [reflexivity|].
  unfold run_calls in IH. now rewrite IH, run_call_config.
Qed.

(** Every state reached from [ada_backpressure_state_init] carries
    validated thresholds, whatever configuration was passed in. *)
Lemma reachable_thresholds_ok l cfg total cs :
  thresholds_ok
    (config (snd (run_calls
                    (l, ada_backpressure_state_set_total_rings
                          (ada_backpressure_state_init cfg) total) cs))).
Proof.
  rewrite run_calls_config. cbn [snd].
  unfold ada_backpressure_state_set_total_rings.
  destruct (total =? 0); [|destruct (_ =? total)];
    apply bp_config_validate_thresholds.
Qed.

(** When the timestamp passed in is earlier than the recorded candidate,
    the unsigned difference wraps around and the stable window counts as
    elapsed. *)
Lemma sample_recovery_elapsed_wraps :
  mode (snd (ada_backpressure_state_sample 0 (log0, recovering_state) 3 10))
  = NORMAL.
Proof. reflexivity. Qed.

(** ** Configuration from the environment *)

Lemma bp_config_validate_stable cfg :
  recovery_stable_ns (snd (bp_config_validate cfg))
  = if recovery_stable_ns cfg =? 0 then 1000000000 else recovery_stable_ns cfg.
Proof. destruct cfg as [p r st i]. validate_cases; try reflexivity; try lia. Qed.

Lemma bp_config_validate_interval cfg :
  drop_log_interval (snd (bp_config_validate cfg))
  = if drop_log_interval cfg =? 0 then 64 else drop_log_interval cfg.
Proof. destruct cfg as [p r st i]. validate_cases; try reflexivity; try lia. Qed.

(** X1.  Whatever the environment holds and whatever [strtoul] makes of it,
    [bp_config_from_env] returns a validated configuration: 0 < pressure <
    recovery <= 100, a non-zero drop-log interval, and a further
    [bp_config_validate] returns true and changes nothing.
    [recovery_stable_ns] is always the default of one second, which no
    variable overrides.  With no variable set the result is the default
    configuration, and threshold overrides that are consistent already are
    taken as they are. *)
Theorem config_from_env_is_validated
    (strtoul : string -> N * nat) (getenv : string -> option string) :
  let cfg := bp_config_from_env strtoul getenv in
  config_ok cfg
  /\ bp_config_validate cfg = (true, cfg)
  /\ recovery_stable_ns cfg = 1000000000
  /\ ((forall name, getenv name = None) -> cfg = bp_default_config)
  /\ (forall p r,
        bp_parse_env_u32 strtoul (getenv "BP_PRESSURE_THRESHOLD"%string) = Some p ->
        bp_parse_env_u32 strtoul (getenv "BP_RECOVERY_THRESHOLD"%string) = Some r ->
        0 < p -> p < r -> r <= 100 ->
        pressure_threshold_percent cfg = p
        /\ recovery_threshold_percent cfg = r).
Proof.
  intros cfg. subst cfg. unfold bp_config_from_env.
  split; [apply bp_config_validate_ok|].
  split; [apply bp_config_validate_fixpoint, bp_config_validate_ok|].
  split.
  { rewrite bp_config_validate_stable.
    repeat match goal with
           | |- context [match ?x with Some _ => _ | None => _ end] => destruct x
           end; reflexivity. }
  split.
  { intros Hnone. rewrite !Hnone. reflexivity. }
  intros p r Hp Hr H0 Hpr Hr100. rewrite Hp, Hr.
  destruct (bp_parse_env_u32 strtoul (getenv "BP_DROP_LOG_INTERVAL"%string));
    cbn -[bp_config_validate]; validate_cases; cbn; split;
    try reflexivity; try lia.
Qed.


(** ** Parsing an override *)

Lemma N_of_digit_char d : d < 10 -> N_of_ascii (digit_char d) = 48 + d.
Proof. intros H. unfold digit_char. apply N_ascii_embedding. lia. Qed.

Lemma digit_value_digit_char d :
  d < 10 -> digit_value (N_of_ascii (digit_char d)) = Some d.
Proof.
  intros H. rewrite N_of_digit_char by exact H. unfold digit_value.
  destruct (N.leb_spec 48 (48 + d)); [|lia].
  destruct (N.leb_spec (48 + d) 57); [|lia].
  cbn. f_equal. lia.
Qed.

Lemma read_digits_stop rest acc : stops_digits rest -> read_digits rest acc = (acc, O).
Proof. destruct rest as [|c r]; cbn; [reflexivity|]. intros ->. reflexivity. Qed.

Lemma read_digits_numeral ds : forall acc rest,
  Forall (fun d => d < 10) ds -> stops_digits rest ->
  read_digits (String.append (numeral ds) rest) acc
  = (fold_left (fun a d => a * 10 + d) ds acc, length ds).
Proof.
  induction ds as [|d ds IH]; intros acc rest Hds Hrest.
  - cbn. apply read_digits_stop, Hrest.
  - apply Forall_cons in Hds as [Hd Hds]. simpl.
    rewrite digit_value_digit_char by exact Hd.
    rewrite (IH _ _ Hds Hrest). reflexivity.
Qed.

Lemma char_at_numeral ds rest :
  char_at (String.append (numeral ds) rest) (length ds) = char_at rest 0.
Proof.
  unfold char_at. induction ds as [|d ds IH]; simpl; [reflexivity|exact IH].
Qed.

Lemma String_append_empty s : String.append s EmptyString = s.
Proof.
  induction s as [|c s IH]; [reflexivity|].
  change (String c (String.append s EmptyString) = String c s).
  f_equal. exact IH.
Qed.

(** A string whose first byte is a digit: [strtoul] converts the leading
    numeral and stops behind it. *)
Lemma strtoul_base10_numeral d ds rest :
  Forall (fun d => d < 10) (d :: ds) -> stops_digits rest ->
  strtoul_base10 (String.append (numeral (d :: ds)) rest)
  = ((if ULONG_MAX <? numeral_value (d :: ds) then ULONG_MAX
      else numeral_value (d :: ds)),
     length (d :: ds)).
Proof.
  intros Hds Hrest. unfold strtoul_base10.
  pose proof (Forall_inv Hds) as Hd. cbn beta in Hd.
  pose proof (read_digits_numeral _ 0 _ Hds Hrest) as Hread.
  change (String.append (numeral (d :: ds)) rest)
    with (String (digit_char d) (String.append (numeral ds) rest)) in *.
  pose proof (N_of_digit_char d Hd) as Hc.
  cbv beta iota delta [skip_spaces]. rewrite !Hc. unfold isspace.
  destruct (N.eqb_spec (48 + d) 32); [lia|].
  destruct (N.leb_spec (48 + d) 13); [lia|].
  rewrite andb_false_r. cbv beta iota delta [orb]. rewrite !Hc.
  destruct (N.eqb_spec (48 + d) 45); [lia|].
  destruct (N.eqb_spec (48 + d) 43); [lia|].
  rewrite Hread. cbn [length Nat.eqb Nat.add]. reflexivity.
Qed.

(** X2.  With [strtoul] as ISO C describes it for a 64-bit [unsigned long],
    [bp_parse_env_u32] accepts a non-empty string of decimal digits exactly
    when its value is at most [UINT32_MAX], and then stores that value;
    leading zeros are allowed, and a numeral beyond [ULONG_MAX] is rejected
    like any other that is too large. *)
Theorem parse_env_accepts_numerals (ds : list N) :
  ds <> [] ->
  Forall (fun d => d < 10) ds ->
  bp_parse_env_u32 strtoul_base10 (Some (numeral ds))
  = if numeral_value ds <=? UINT32_MAX then Some (numeral_value ds) else None.
Proof.
  intros Hne Hds. destruct ds as [|d ds]; [congruence|].
  pose proof (Forall_inv Hds) as Hd. cbn beta in Hd.
  unfold bp_parse_env_u32.
  assert (H0 : char_at (numeral (d :: ds)) 0 = 48 + d).
  { unfold char_at. cbn. apply N_of_digit_char, Hd. }
  rewrite H0. destruct (N.eqb_spec (48 + d) 0); [lia|].
  rewrite <- (String_append_empty (numeral (d :: ds))).
  rewrite (strtoul_base10_numeral d ds EmptyString Hds I).
  rewrite char_at_numeral. cbn [length Nat.eqb orb char_at String.get].
  rewrite N.eqb_refl. cbn [negb].
  generalize (numeral_value (d :: ds)). intros v.
  unfold ULONG_MAX, UINT32_MAX.
  destruct (N.ltb_spec 18446744073709551615 v).
  - change (18446744073709551615 <? 18446744073709551615) with false.
    cbv iota. change (4294967295 <? 18446744073709551615) with true.
    cbv iota. destruct (N.leb_spec v 4294967295); [lia|reflexivity].
  - destruct (N.ltb_spec 4294967295 v);
      destruct (N.leb_spec v 4294967295); try lia; [reflexivity|].
    f_equal. apply wrap32_small. lia.
Qed.

Lemma parse_env_accepts_numerals_witness :
  bp_parse_env_u32 strtoul_base10 (Some "070"%string) = Some 70.
Proof.
  exact (parse_env_accepts_numerals [0; 7; 0] ltac:(discriminate)
           ltac:(repeat constructor)).
Defined.


Lemma numeral_length_pos (ds : list N) : ds <> [] -> length ds <> O.
Proof. destruct ds; [congruence|discriminate]. Qed.

Lemma strtoul_base10_minus ds :
  ds <> [] -> Forall (fun d => d < 10) ds ->
  strtoul_base10 (String "-"%char (numeral ds))
  = ((if ULONG_MAX <? numeral_value ds then ULONG_MAX
      else wrap64 (18446744073709551616 - numeral_value ds)),
     S (length ds)).
Proof.
  intros Hne Hds. unfold strtoul_base10.
  pose proof (read_digits_numeral ds 0 EmptyString Hds I) as Hread.
  rewrite String_append_empty in Hread.
  cbv beta iota delta [skip_spaces].
  change (N_of_ascii "-"%char) with 45.
  change (isspace 45) with false. cbv beta iota.
  change (N_of_ascii "-"%char) with 45.
  change (45 =? 45) with true. cbv beta iota.
  rewrite Hread.
  destruct (length ds) eqn:Hlen; [now apply numeral_length_pos in Hne|].
  cbn [Nat.eqb Nat.add]. reflexivity.
Qed.

Lemma char_at_end s : char_at s (String.length s) = 0.
Proof.
  unfold char_at. induction s as [|c s IH]; [reflexivity|exact IH].
Qed.

Lemma numeral_string_length ds : String.length (numeral ds) = length ds.
Proof. induction ds as [|d ds IH]; [reflexivity|]. cbn. f_equal. exact IH. Qed.

(** X3.  With [strtoul] as ISO C describes it for a 64-bit [unsigned long],
    [bp_parse_env_u32] rejects an unset variable, the empty string, a
    numeral followed by a character that is not a digit, and a string that
    starts with a character that is neither a digit, white space nor a
    sign.  A numeral behind a minus sign is accepted only where [strtoul]'s
    negation lands in range: as 0 for -0, and as 2^64 - v for a magnitude v
    with 2^64 - v <= [UINT32_MAX]; every other negative numeral is
    rejected. *)
Theorem parse_env_rejects_malformed :
  bp_parse_env_u32 strtoul_base10 None = None
  /\ bp_parse_env_u32 strtoul_base10 (Some EmptyString) = None
  /\ (forall ds c rest,
        ds <> [] -> Forall (fun d => d < 10) ds ->
        digit_value (N_of_ascii c) = None -> N_of_ascii c <> 0 ->
        bp_parse_env_u32 strtoul_base10
          (Some (String.append (numeral ds) (String c rest))) = None)
  /\ (forall c rest,
        digit_value (N_of_ascii c) = None ->
        isspace (N_of_ascii c) = false ->
        N_of_ascii c <> 45 -> N_of_ascii c <> 43 ->
        bp_parse_env_u32 strtoul_base10 (Some (String c rest)) = None)
  /\ (forall ds,
        ds <> [] -> Forall (fun d => d < 10) ds ->
        let v := numeral_value ds in
        bp_parse_env_u32 strtoul_base10 (Some (String "-"%char (numeral ds)))
        = if (v =? 0) then Some 0
          else if (18446744069414584320 <? v) && (v <=? ULONG_MAX)
          then Some (18446744073709551616 - v)
          else None).
Proof.
  split; [reflexivity|]. split; [reflexivity|]. split; [|split].
  - intros ds c rest Hne Hds Hc Hc0.
    destruct ds as [|d ds]; [congruence|].
    pose proof (Forall_inv Hds) as Hd. cbn beta in Hd.
    unfold bp_parse_env_u32.
    assert (H0 : char_at (String.append (numeral (d :: ds)) (String c rest)) 0
                 = 48 + d).
    { unfold char_at. simpl. apply N_of_digit_char, Hd. }
    rewrite H0. destruct (N.eqb_spec (48 + d) 0); [lia|].
    rewrite (strtoul_base10_numeral d ds (String c rest) Hds Hc).
    rewrite char_at_numeral.
    change (char_at (String c rest) 0) with (N_of_ascii c).
    destruct (N.eqb_spec (N_of_ascii c) 0); [contradiction|].
    cbn [length Nat.eqb negb orb]. reflexivity.
  - intros c rest Hc Hsp H45 H43. unfold bp_parse_env_u32.
    change (char_at (String c rest) 0) with (N_of_ascii c).
    destruct (N.eqb_spec (N_of_ascii c) 0); [reflexivity|].
    unfold strtoul_base10. cbv beta iota delta [skip_spaces]. rewrite Hsp.
    cbv beta iota.
    destruct (N.eqb_spec (N_of_ascii c) 45); [contradiction|].
    destruct (N.eqb_spec (N_of_ascii c) 43); [contradiction|].
    cbv beta iota delta [read_digits]. rewrite Hc. reflexivity.
  - intros ds Hne Hds v. subst v. unfold bp_parse_env_u32.
    change (char_at (String "-"%char (numeral ds)) 0) with 45.
    change (45 =? 0) with false. cbv beta iota.
    rewrite (strtoul_base10_minus ds Hne Hds).
    replace (char_at (String "-"%char (numeral ds)) (S (length ds))) with 0.
    2:{ rewrite <- (numeral_string_length ds).
        exact (eq_sym (char_at_end (String "-"%char (numeral ds)))). }
    cbn [Nat.eqb orb negb]. change (0 =? 0) with true. cbn [negb].
    generalize (numeral_value ds). intros v.
    unfold ULONG_MAX, UINT32_MAX, wrap64.
    destruct (N.eqb_spec v 0) as [->|Hv0]; [reflexivity|].
    destruct (N.ltb_spec 18446744073709551615 v).
    + destruct (N.leb_spec v 18446744073709551615); [lia|].
      rewrite andb_false_r. reflexivity.
    + destruct (N.leb_spec v 18446744073709551615); [|lia].
      rewrite andb_true_r.
      rewrite (N.mod_small (18446744073709551616 - v)) by lia.
      destruct (N.ltb_spec 18446744069414584320 v);
        destruct (N.ltb_spec 4294967295 (18446744073709551616 - v)); try lia;
        [|reflexivity].
      f_equal. apply wrap32_small. lia.
Qed.


(** ** Invariants over every operation *)

Lemma run_op_config w o : config (snd (run_op w o)) = config (snd w).
Proof.
  destruct o as [c|total|]; cbn.
  - apply run_call_config.
  - unfold ada_backpressure_state_set_total_rings.
    destruct (total =? 0); [reflexivity|].
    destruct (total_rings (snd w) =? total); reflexivity.
  - reflexivity.
Qed.

Lemma run_ops_config os : forall w,
  config (snd (run_ops w os)) = config (snd w).
Proof.
  induction os as [|o os IH]; intros w; [reflexivity|].
  unfold run_ops in *. cbn. rewrite IH. apply run_op_config.
Qed.

(** X4.  After any sequence of sample, drop, exhaustion, recovery,
    set_total_rings and reset calls on an initialised state,
    [ada_backpressure_state_reset] gives back exactly the state
    [ada_backpressure_state_init] produced for the same configuration
    argument ([total_rings] unbound again, configuration kept), and
    [bp_export_metrics] then reports NORMAL with every counter, ring count
    and timestamp zero, the low watermark included. *)
Theorem reset_restores_initial_state
    (cfg : option ada_backpressure_config_t) (l : bp_log_t) (os : list bp_op) :
  let s := snd (run_ops (l, ada_backpressure_state_init cfg) os) in
  ada_backpressure_state_reset s = ada_backpressure_state_init cfg
  /\ bp_export_metrics (ada_backpressure_state_reset s) = zero_metrics.
Proof.
  intros s. split; [|reflexivity].
  unfold ada_backpressure_state_reset. subst s. rewrite run_ops_config.
  reflexivity.
Qed.

Lemma bp_transition_clean w expected desired now :
  normal_is_clean (snd w) ->
  normal_is_clean (snd (bp_transition w expected desired now)).
Proof.
  destruct w as [l s]. cbn [snd]. intros H. unfold bp_transition.
  destruct (mode_eqb (mode s) expected); [|exact H].
  unfold normal_is_clean. cbn. destruct desired; intros Hm; try discriminate.
  split; reflexivity.
Qed.

Lemma run_call_clean w c : normal_is_clean (snd w) -> normal_is_clean (snd (run_call w c)).
Proof.
  destruct w as [l s]. cbn [snd]. intros H.
  destruct c as [clock free now|clock bytes now|clock now|clock free now];
    cbn [run_call].
  - unfold ada_backpressure_state_sample.
    set (s1 := bp_update_low_watermark (set_free_rings s free) free).
    assert (H1 : normal_is_clean s1).
    { subst s1. unfold normal_is_clean, bp_update_low_watermark, set_free_rings.
      destruct (_ <? _); cbn; exact H. }
    clearbody s1.
    destruct (mode s1) eqn:Hm;
      repeat match goal with
             | |- context [if ?b then _ else _] => destruct b
             end;
      try (apply (bp_transition_clean (l, s1)); exact H1); try exact H1.
    + unfold normal_is_clean. cbn. congruence.
    + pose proof (bp_transition_clean (l, s1) RECOVERY NORMAL
                    (resolve_now clock now) H1) as H2.
      destruct (bp_transition (l, s1) RECOVERY NORMAL _) as [l2 s2].
      cbn [snd] in *. exact H2.
  - unfold ada_backpressure_state_on_drop.
    repeat match goal with
           | |- context [if ?b then _ else _] => destruct b
           end; exact H.
  - unfold ada_backpressure_state_on_exhaustion.
    repeat apply bp_transition_clean. exact H.
  - unfold ada_backpressure_state_on_recovery.
    set (s1 := set_last_recovery_ns (set_free_rings s free) _).
    assert (H1 : normal_is_clean s1) by exact H.
    clearbody s1.
    destruct (mode s1); try exact H1.
    apply (bp_transition_clean (l, s1)), H1.
Qed.


Lemma run_op_clean w o : normal_is_clean (snd w) -> normal_is_clean (snd (run_op w o)).
Proof.
  destruct o as [c|total|]; cbn [run_op snd].
  - apply run_call_clean.
  - intros H. unfold ada_backpressure_state_set_total_rings.
    destruct (total =? 0); [exact H|].
    destruct (total_rings (snd w) =? total); exact H.
  - intros _ _. split; reflexivity.
Qed.

Lemma run_ops_clean os : forall w,
  normal_is_clean (snd w) -> normal_is_clean (snd (run_ops w os)).
Proof.
  induction os as [|o os IH]; intros w H; [exact H|].
  unfold run_ops in *. cbn. apply IH, run_op_clean, H.
Qed.

(** X5.  In every state reached from [ada_backpressure_state_init] by any
    sequence of operations, NORMAL mode comes with [pressure_start_ns] and
    [recovery_candidate_ns] both zero: the timestamps of an episode never
    outlive it, so the exported [pressure_start_ns] is zero whenever the
    lane is healthy. *)
Theorem normal_mode_has_clean_timestamps
    (cfg : option ada_backpressure_config_t) (l : bp_log_t) (os : list bp_op) :
  let s := snd (run_ops (l, ada_backpressure_state_init cfg) os) in
  mode s = NORMAL ->
  pressure_start_ns s = 0
  /\ recovery_candidate_ns s = 0
  /\ Exported.pressure_start_ns (bp_export_metrics s) = 0.
Proof.
  intros s Hm.
  assert (H : normal_is_clean s).
  { apply run_ops_clean. intros _. split; reflexivity. }
  destruct (H Hm) as [Hp Hc]. repeat split; assumption.
Qed.

Lemma normal_mode_has_clean_timestamps_witness :
  let os := [OpSetTotalRings 4; OpCall (CallSample 0 0 10);
             OpCall (CallSample 0 4 20)] in
  pressure_start_ns
    (snd (run_ops (log0, ada_backpressure_state_init None)
            [OpSetTotalRings 4; OpCall (CallSample 0 0 10)])) = 10
  /\ pressure_start_ns
       (snd (run_ops (log0, ada_backpressure_state_init None) os)) = 0.
Proof.
  intros os. split; [reflexivity|].
  exact (proj1 (normal_mode_has_clean_timestamps None log0 os eq_refl)).
Defined.

(** ** Transitions and the state-change log *)

Lemma bp_transition_coherent w expected desired now :
  expected <> desired ->
  log_coherent w -> log_coherent (bp_transition w expected desired now).
Proof.
  destruct w as [l s]. intros Hne [Hc Hm]. cbn [fst snd] in *.
  unfold bp_transition.
  destruct (mode_eqb (mode s) expected) eqn:He; [|split; assumption].
  destruct (mode_eqb expected desired) eqn:Hd.
  { apply mode_eqb_eq in Hd. contradiction. }
  split; cbn; [rewrite Hc|]; reflexivity.
Qed.

Lemma run_call_coherent w c : log_coherent w -> log_coherent (run_call w c).
Proof.
  destruct w as [l s]. intros H.
  destruct c as [clock free now|clock bytes now|clock now|clock free now];
    cbn [run_call].
  - unfold ada_backpressure_state_sample.
    set (s1 := bp_update_low_watermark (set_free_rings s free) free).
    assert (H1 : log_coherent (l, s1)).
    { subst s1. unfold log_coherent, bp_update_low_watermark, set_free_rings.
      destruct (_ <? _); cbn; exact H. }
    clearbody s1.
    destruct (mode s1) eqn:Hm;
      repeat match goal with
             | |- context [if ?b then _ else _] => destruct b
             end;
      try (apply bp_transition_coherent; [discriminate|exact H1]);
      try exact H1.
    pose proof (bp_transition_coherent (l, s1) RECOVERY NORMAL
                  (resolve_now clock now) ltac:(discriminate) H1) as H2.
    destruct (bp_transition (l, s1) RECOVERY NORMAL _) as [l2 s2].
    exact H2.
  - unfold ada_backpressure_state_on_drop.
    repeat match goal with
           | |- context [if ?b then _ else _] => destruct b
           end; exact H.
  - unfold ada_backpressure_state_on_exhaustion.
    repeat (apply bp_transition_coherent; [discriminate|]). exact H.
  - unfold ada_backpressure_state_on_recovery.
    set (s1 := set_last_recovery_ns (set_free_rings s free) _).
    assert (H1 : log_coherent (l, s1)) by exact H.
    clearbody s1.
    destruct (mode s1); try exact H1.
    apply bp_transition_coherent; [discriminate|exact H1].
Qed.

Lemma run_calls_coherent cs : forall w,
  log_coherent w -> log_coherent (run_calls w cs).
Proof.
  induction cs as [|c cs IH]; intros w H; [exact H|].
  unfold run_calls in *. cbn. apply IH, run_call_coherent, H.
Qed.

(** X6.  Starting with the log counters reset on an initialised state, after
    any sequence of sample, drop, exhaustion and recovery calls the number
    of state-change log invocations equals the state's [transitions]
    counter, and the last logged "next" state is the mode
    [ada_backpressure_state_get_mode] returns. *)
Theorem every_transition_is_logged
    (cfg : option ada_backpressure_config_t) (total : N) (cs : list bp_call) :
  let w := run_calls
             (log0, ada_backpressure_state_set_total_rings
                      (ada_backpressure_state_init cfg) total) cs in
  g_state_log_invocations (fst w) = transitions (snd w)
  /\ g_last_next_state (fst w) = ada_backpressure_state_get_mode (snd w).
Proof.
  intros w. apply run_calls_coherent.
  unfold ada_backpressure_state_set_total_rings.
  destruct (total =? 0); [split; reflexivity|].
  destruct (_ =? total); split; reflexivity.
Qed.


(** ** Drops over a call sequence *)

Lemma bp_transition_drops w expected desired now n bytes :
  drops_counted (snd w) n bytes ->
  drops_counted (snd (bp_transition w expected desired now)) n bytes.
Proof.
  destruct w as [l s]. cbn [snd]. intros H. unfold bp_transition.
  destruct (mode_eqb (mode s) expected); exact H.
Qed.

Lemma run_call_drops w c n bytes :
  drops_counted (snd w) n bytes ->
  drops_counted (snd (run_call w c))
    (n + N.of_nat (length (dropped_sizes [c])))
    (bytes + sum_N (dropped_sizes [c])).
Proof.
  destruct w as [l s]. cbn [snd]. intros H.
  destruct c as [clock free now|clock b now|clock now|clock free now];
    cbn [run_call dropped_sizes omap length sum_N fold_right N.of_nat];
    rewrite ?N.add_0_r.
  - unfold ada_backpressure_state_sample.
    set (s1 := bp_update_low_watermark (set_free_rings s free) free).
    assert (H1 : drops_counted s1 n bytes).
    { subst s1. unfold drops_counted, bp_update_low_watermark, set_free_rings.
      destruct (_ <? _); cbn; exact H. }
    clearbody s1.
    destruct (mode s1) eqn:Hm;
      repeat match goal with
             | |- context [if ?b then _ else _] => destruct b
             end;
      try (apply (bp_transition_drops (l, s1)); exact H1); try exact H1.
    pose proof (bp_transition_drops (l, s1) RECOVERY NORMAL
                  (resolve_now clock now) n bytes H1) as H2.
    destruct (bp_transition (l, s1) RECOVERY NORMAL _) as [l2 s2].
    exact H2.
  - destruct H as (He & Hs & Hb). unfold ada_backpressure_state_on_drop.
    assert (Hgoal : drops_counted
              (mk_state (mode s) (transitions s) (wrap64 (events_dropped s + 1))
                 (wrap64 (bytes_dropped s + wrap64 b))
                 (wrap64 (drop_sequences s + 1)) (free_rings s) (total_rings s)
                 (low_watermark s) (resolve_now clock now) (last_recovery_ns s)
                 (pressure_start_ns s) (recovery_candidate_ns s) (config s))
              (n + 1) (bytes + (b + 0))).
    { unfold drops_counted. cbn. rewrite He, Hs, Hb.
      rewrite !wrap64_add_l, wrap64_add_r, N.add_0_r. repeat split. }
    change (N.pos (Pos.of_succ_nat 0)) with 1.
    repeat match goal with
           | |- context [if ?b then _ else _] => destruct b
           end; exact Hgoal.
  - unfold ada_backpressure_state_on_exhaustion.
    repeat apply bp_transition_drops. exact H.
  - unfold ada_backpressure_state_on_recovery.
    set (s1 := set_last_recovery_ns (set_free_rings s free) _).
    assert (H1 : drops_counted s1 n bytes) by exact H.
    clearbody s1.
    destruct (mode s1); try exact H1.
    apply (bp_transition_drops (l, s1)), H1.
Qed.

Lemma dropped_sizes_cons c cs :
  dropped_sizes (c :: cs) = dropped_sizes [c] ++ dropped_sizes cs.
Proof. unfold dropped_sizes. cbn. destruct c; reflexivity. Qed.

Lemma run_calls_drops cs : forall w n bytes,
  drops_counted (snd w) n bytes ->
  drops_counted (snd (run_calls w cs))
    (n + N.of_nat (length (dropped_sizes cs)))
    (bytes + sum_N (dropped_sizes cs)).
Proof.
  induction cs as [|c cs IH]; intros w n bytes H.
  - cbn. rewrite !N.add_0_r. exact H.
  - rewrite dropped_sizes_cons, length_app, sum_N_app, Nat2N.inj_add.
    rewrite !N.add_assoc. unfold run_calls in *. cbn [fold_left].
    apply IH, run_call_drops, H.
Qed.

(** X7.  After any call sequence on an initialised state,
    [ada_backpressure_state_get_drops] is the number of
    [ada_backpressure_state_on_drop] calls and [bytes_dropped] the sum of
    their sizes (both modulo 2^64), whatever sample, exhaustion or recovery
    calls came in between; [drop_sequences] always equals the drop
    count. *)
Theorem drop_counters_count_every_drop
    (cfg : option ada_backpressure_config_t) (l : bp_log_t) (cs : list bp_call) :
  let s := snd (run_calls (l, ada_backpressure_state_init cfg) cs) in
  let sizes := dropped_sizes cs in
  ada_backpressure_state_get_drops s = wrap64 (N.of_nat (length sizes))
  /\ bytes_dropped s = wrap64 (sum_N sizes)
  /\ drop_sequences s = ada_backpressure_state_get_drops s.
Proof.
  intros s sizes.
  destruct (run_calls_drops cs (l, ada_backpressure_state_init cfg) 0 0
              ltac:(repeat split)) as (He & Hs & Hb).
  fold s in He, Hs, Hb. fold sizes in He, Hs, Hb.
  rewrite !N.add_0_l in *. unfold ada_backpressure_state_get_drops.
  rewrite He, Hs, Hb. repeat split.
Qed.


(** ** Drops do not steer the state machine *)

Lemma erase_drops_transition w expected desired now :
  erase_drops (bp_transition w expected desired now)
  = bp_transition (erase_drops w) expected desired now.
Proof.
  destruct w as [l s]. unfold bp_transition, erase_drops. cbn.
  destruct (mode_eqb (mode s) expected); [|reflexivity].
  destruct (mode_eqb expected desired); reflexivity.
Qed.

Lemma erase_drops_idem w : erase_drops (erase_drops w) = erase_drops w.
Proof. destruct w as [l s]. reflexivity. Qed.

Lemma erase_drops_run_call w c :
  erase_drops (run_call w c)
  = if is_drop c then erase_drops w
    else erase_drops (run_call (erase_drops w) c).
Proof.
  destruct w as [l s].
  destruct c as [clock free now|clock bytes now|clock now|clock free now];
    cbn [run_call is_drop].
  - destruct s as [m t e b d f tot lw ld lr ps rc cfg].
    unfold ada_backpressure_state_sample, bp_update_low_watermark,
      set_free_rings, bp_total_effective, erase_drops.
    cbn [low_watermark total_rings mode config recovery_candidate_ns
         transitions events_dropped bytes_dropped drop_sequences free_rings
         last_drop_ns last_recovery_ns pressure_start_ns].
    destruct (free <? lw);
      cbn [low_watermark total_rings mode config recovery_candidate_ns
           transitions events_dropped bytes_dropped drop_sequences free_rings
           last_drop_ns last_recovery_ns pressure_start_ns];
      destruct m;
      repeat match goal with
             | |- context [if ?b then _ else _] => destruct b
             end;
      reflexivity.
  - unfold ada_backpressure_state_on_drop.
    repeat match goal with
           | |- context [if ?b then _ else _] => destruct b
           end; reflexivity.
  - unfold ada_backpressure_state_on_exhaustion. cbv zeta.
    rewrite !erase_drops_transition, erase_drops_idem. reflexivity.
  - destruct s as [m t e b d f tot lw ld lr ps rc cfg].
    unfold ada_backpressure_state_on_recovery, set_last_recovery_ns,
      set_free_rings, erase_drops.
    cbn [low_watermark total_rings mode config recovery_candidate_ns
         transitions events_dropped bytes_dropped drop_sequences free_rings
         last_drop_ns last_recovery_ns pressure_start_ns].
    destruct m; reflexivity.
Qed.

Lemma erase_drops_run_calls cs : forall w,
  erase_drops (run_calls w cs) = erase_drops (run_calls (erase_drops w) cs).
Proof.
  induction cs as [|c cs IH]; intros w.
  - cbn. symmetry. apply erase_drops_idem.
  - unfold run_calls in *. cbn [fold_left].
    rewrite (IH (run_call w c)), (IH (run_call (erase_drops w) c)).
    rewrite (erase_drops_run_call w c), (erase_drops_run_call (erase_drops w) c).
    rewrite !erase_drops_idem. destruct (is_drop c); reflexivity.
Qed.

(** X8.  [ada_backpressure_state_on_drop] is invisible to the state
    machine: deleting the drop calls from any call sequence changes nothing
    but the drop counters, [last_drop_ns] and the drop-log counter.  Mode,
    transition count, ring counts, low watermark, the other timestamps,
    the configuration and the state-change log come out the same. *)
Theorem drops_do_not_steer_the_state_machine
    (w : bp_world) (cs : list bp_call) :
  erase_drops (run_calls w cs) = erase_drops (run_calls w (without_drops cs)).
Proof.
  revert w. induction cs as [|c cs IH]; intros w; [reflexivity|].
  unfold run_calls in *. cbn [fold_left without_drops List.filter].
  destruct (is_drop c) eqn:Hd; cbn [negb fold_left].
  - fold (run_calls (run_call w c) cs). rewrite erase_drops_run_calls.
    rewrite erase_drops_run_call, Hd. rewrite <- erase_drops_run_calls.
    apply IH.
  - apply IH.
Qed.


(** ** Frequency of the drop log *)

Lemma div_succ n i :
  i <> 0 -> (n + 1) / i = n / i + (if (n + 1) mod i =? 0 then 1 else 0).
Proof.
  intros Hi.
  pose proof (N.div_mod n i Hi) as Hn.
  pose proof (N.mod_lt n i Hi) as Hr.
  set (q := n / i) in *. set (r := n mod i) in *. clearbody q r.
  destruct (N.eq_dec (r + 1) i) as [He|He].
  - assert (Hm : 0 = (n + 1) mod i).
    { apply (N.mod_unique _ _ (q + 1)); lia. }
    rewrite <- Hm. cbn. symmetry. apply (N.div_unique _ _ _ 0); lia.
  - assert (Hm : r + 1 = (n + 1) mod i).
    { apply (N.mod_unique _ _ q); lia. }
    rewrite <- Hm. destruct (N.eqb_spec (r + 1) 0); [lia|].
    rewrite N.add_0_r. symmetry. apply (N.div_unique _ _ _ (r + 1)); lia.
Qed.

Lemma bp_transition_logged i w expected desired now n :
  drops_logged i w n -> drops_logged i (bp_transition w expected desired now) n.
Proof.
  destruct w as [l s]. intros H. unfold bp_transition.
  destruct (mode_eqb (mode s) expected); [|exact H].
  destruct (mode_eqb expected desired); exact H.
Qed.

Lemma run_call_logged i w c n :
  i <> 0 ->
  n + N.of_nat (length (dropped_sizes [c])) < 18446744073709551616 ->
  drops_logged i w n ->
  drops_logged i (run_call w c) (n + N.of_nat (length (dropped_sizes [c]))).
Proof.
  destruct w as [l s]. intros Hi Hn H.
  destruct c as [clock free now|clock b now|clock now|clock free now];
    cbn [run_call];
    try (change (N.of_nat (length (dropped_sizes [CallSample clock free now])))
           with 0 in *);
    try (change (N.of_nat (length (dropped_sizes [CallOnExhaustion clock now])))
           with 0 in *);
    try (change (N.of_nat (length (dropped_sizes [CallOnRecovery clock free now])))
           with 0 in *);
    rewrite ?N.add_0_r in *.
  - unfold ada_backpressure_state_sample.
    set (s1 := bp_update_low_watermark (set_free_rings s free) free).
    assert (H1 : drops_logged i (l, s1) n).
    { subst s1. unfold drops_logged, bp_update_low_watermark, set_free_rings.
      destruct (_ <? _); cbn; exact H. }
    clearbody s1.
    destruct (mode s1) eqn:Hm;
      repeat match goal with
             | |- context [if ?b then _ else _] => destruct b
             end;
      try (apply bp_transition_logged; exact H1); try exact H1.
    pose proof (bp_transition_logged i (l, s1) RECOVERY NORMAL
                  (resolve_now clock now) n H1) as H2.
    destruct (bp_transition (l, s1) RECOVERY NORMAL _) as [l2 s2].
    exact H2.
  - destruct H as (He & Hl & Hc). cbn [fst snd] in *.
    change (N.of_nat (length (dropped_sizes [CallOnDrop clock b now])))
      with 1 in *.
    unfold ada_backpressure_state_on_drop.
    cbn [config events_dropped]. rewrite Hc, He.
    rewrite (wrap64_small (n + 1)) by exact Hn.
    destruct (N.eqb_spec i 0); [contradiction|]. cbn [negb].
    pose proof (div_succ n i Hi) as Hd.
    destruct ((n + 1) mod i =? 0); unfold drops_logged;
      cbn [fst snd events_dropped config bp_log_drop_event
           g_drop_log_invocations]; rewrite Hd, Hl.
    + split; [reflexivity|]. split; [|exact Hc].
      apply wrap64_small.
      assert (n / i <= n) by (apply N.Div0.div_le_upper_bound; nia). lia.
    + rewrite N.add_0_r. repeat split; assumption.
  - unfold ada_backpressure_state_on_exhaustion.
    repeat apply bp_transition_logged. exact H.
  - unfold ada_backpressure_state_on_recovery.
    set (s1 := set_last_recovery_ns (set_free_rings s free) _).
    assert (H1 : drops_logged i (l, s1) n) by exact H.
    clearbody s1.
    destruct (mode s1); try exact H1.
    apply bp_transition_logged, H1.
Qed.

Lemma run_calls_logged i cs : forall w n,
  i <> 0 ->
  n + N.of_nat (length (dropped_sizes cs)) < 18446744073709551616 ->
  drops_logged i w n ->
  drops_logged i (run_calls w cs) (n + N.of_nat (length (dropped_sizes cs))).
Proof.
  induction cs as [|c cs IH]; intros w n Hi Hn H.
  - cbn. rewrite N.add_0_r. exact H.
  - rewrite dropped_sizes_cons, length_app, Nat2N.inj_add, N.add_assoc in *.
    unfold run_calls in *. cbn [fold_left].
    apply IH; [exact Hi|exact Hn|]. apply run_call_logged; [exact Hi|lia|exact H].
Qed.

(** X9.  With the log counters reset, after a call sequence holding [n]
    drops (fewer than 2^64) the drop log has been emitted exactly
    [n / interval] times, where [interval] is the validated
    [drop_log_interval] of the state (never zero). *)
Theorem drop_log_fires_once_per_interval
    (cfg : option ada_backpressure_config_t) (cs : list bp_call) :
  let w := run_calls (log0, ada_backpressure_state_init cfg) cs in
  let n := N.of_nat (length (dropped_sizes cs)) in
  let interval := drop_log_interval (config (snd w)) in
  n < 18446744073709551616 ->
  interval = drop_log_interval
               (snd (bp_config_validate (default bp_default_config cfg)))
  /\ interval <> 0
  /\ g_drop_log_invocations (fst w) = n / interval.
Proof.
  intros w n interval Hn.
  assert (Hi : interval
               = drop_log_interval
                   (snd (bp_config_validate (default bp_default_config cfg)))).
  { subst interval w. rewrite run_calls_config. destruct cfg; reflexivity. }
  assert (Hi0 : interval <> 0).
  { rewrite Hi. apply bp_config_validate_ok. }
  split; [exact Hi|]. split; [exact Hi0|].
  destruct (run_calls_logged interval cs (log0, ada_backpressure_state_init cfg)
              0 Hi0 ltac:(rewrite N.add_0_l; exact Hn)) as (_ & Hl & _).
  { split; [reflexivity|]. split.
    - cbn. symmetry. apply N.Div0.div_0_l.
    - rewrite Hi. destruct cfg; reflexivity. }
  rewrite N.add_0_l in Hl. exact Hl.
Qed.

Lemma drop_log_fires_once_per_interval_witness :
  let cfg := Some (mk_config 1 2 1000000000 2) in
  let cs := [CallOnDrop 0 0 1; CallOnDrop 0 0 2; CallSample 0 0 3;
             CallOnDrop 0 0 4; CallOnDrop 0 0 5; CallOnDrop 0 0 6] in
  g_drop_log_invocations
    (fst (run_calls (log0, ada_backpressure_state_init cfg) cs)) = 5 / 2.
Proof.
  intros cfg cs.
  exact (proj2 (proj2 (drop_log_fires_once_per_interval cfg cs eq_refl))).
Defined.


(** ** The threshold test *)

(** X10.  For 32-bit arguments the 64-bit products in
    [bp_threshold_crossed] cannot wrap: the function returns true exactly
    when [total] is non-zero and free * 100 < percent * total, also for
    percentages that were never validated. *)
Theorem threshold_test_never_overflows (percent total free : N) :
  percent < 4294967296 -> total < 4294967296 -> free < 4294967296 ->
  bp_threshold_crossed percent total free = true
  <-> total <> 0 /\ free * 100 < percent * total.
Proof.
  intros Hp Ht Hf. unfold bp_threshold_crossed.
  destruct (N.eqb_spec total 0) as [->|Hne].
  - split; [discriminate|]. intros [H _]. congruence.
  - rewrite (wrap64_small (free * 100)) by lia.
    rewrite (wrap64_small (percent * total)) by nia.
    rewrite N.ltb_lt. tauto.
Qed.

Lemma threshold_test_never_overflows_witness :
  bp_threshold_crossed 4294967295 4294967295 4294967295 = true
  <-> 4294967295 <> 0 /\ 4294967295 * 100 < 4294967295 * 4294967295.
Proof.
  apply threshold_test_never_overflows; reflexivity.
Defined.

(** ** A lane whose ring count was never bound *)

Lemma unbound_total_crossed s free percent :
  total_rings s = 0 -> free < 4294967296 -> 0 < percent -> percent <= 100 ->
  bp_threshold_crossed percent
    (bp_total_effective (bp_update_low_watermark (set_free_rings s free) free))
    free
  = (free =? 0).
Proof.
  intros Ht Hf Hp Hp100. rewrite sample_prefix_total.
  unfold bp_total_effective. rewrite Ht. cbn [N.eqb].
  unfold bp_threshold_crossed. cbn [N.eqb].
  rewrite (wrap64_small (free * 100)) by lia.
  rewrite (wrap64_small (percent * 1)) by lia.
  destruct (N.eqb_spec free 0) as [->|Hne]; [apply N.ltb_lt; lia|].
  apply N.ltb_ge. lia.
Qed.

(** X11.  While [total_rings] was never bound (it is 0),
    [ada_backpressure_state_sample] works with a total of one ring: any
    non-zero free count is healthy and only a free count of 0 is below
    either threshold.  So NORMAL and RECOVERY enter PRESSURE iff free = 0,
    PRESSURE enters DROPPING iff free = 0 and returns to NORMAL otherwise,
    and DROPPING enters RECOVERY iff free <> 0. *)
Theorem unbound_total_counts_as_one_ring
    (clock : N) (l : bp_log_t) (s : ada_backpressure_state_t) (free now_ns : N) :
  total_rings s = 0 ->
  free < 4294967296 ->
  thresholds_ok (config s) ->
  let m' := mode (snd (ada_backpressure_state_sample clock (l, s) free now_ns)) in
  match mode s with
  | NORMAL => (m' = PRESSURE <-> free = 0) /\ (m' = NORMAL <-> free <> 0)
  | PRESSURE => (m' = DROPPING <-> free = 0) /\ (m' = NORMAL <-> free <> 0)
  | DROPPING => (m' = RECOVERY <-> free <> 0) /\ (m' = DROPPING <-> free = 0)
  | RECOVERY => (m' = PRESSURE <-> free = 0)
  end.
Proof.
  intros Ht Hf (Hp0 & Hpr & Hr100) m'. subst m'.
  unfold ada_backpressure_state_sample.
  set (s1 := bp_update_low_watermark (set_free_rings s free) free).
  assert (Hm1 : mode s1 = mode s) by apply sample_prefix_mode.
  assert (Hc1 : config s1 = config s) by apply sample_prefix_config.
  pose proof (unbound_total_crossed s free
                (pressure_threshold_percent (config s)) Ht Hf Hp0
                ltac:(lia)) as Hcp.
  pose proof (unbound_total_crossed s free
                (recovery_threshold_percent (config s)) Ht Hf
                ltac:(lia) Hr100) as Hcr.
  fold s1 in Hcp, Hcr. rewrite Hc1, Hm1. rewrite ?Hcp, ?Hcr.
  clearbody s1.
  destruct (mode s) eqn:Hm; rewrite ?Hcp, ?Hcr;
    destruct (N.eqb_spec free 0) as [Hz|Hz]; cbn [negb];
    rewrite ?bp_transition_mode, ?Hm1; cbn [mode_eqb snd];
    try (split; split; intros; try congruence; try discriminate;
         try contradiction; reflexivity);
    try (rewrite Hm1; split; split; intros; try congruence; try discriminate;
         try contradiction; reflexivity).
  - split; [intros _; exact Hz|reflexivity].
  - split; [|contradiction]. intros Hbad. exfalso.
    destruct (recovery_candidate_ns s1 =? 0).
    { cbn in Hbad. congruence. }
    destruct (_ <=? _).
    + destruct (bp_transition (l, s1) RECOVERY NORMAL _) as [l2 s2] eqn:Hb.
      apply (f_equal (fun w => mode (snd w))) in Hb.
      rewrite bp_transition_mode, Hm1 in Hb. cbn in Hb, Hbad. congruence.
    + cbn in Hbad. congruence.
Qed.

Lemma unbound_total_counts_as_one_ring_witness :
  mode (snd (ada_backpressure_state_sample 0
               (log0, ada_backpressure_state_init None) 1 10)) = NORMAL
  <-> 1 <> 0.
Proof.
  exact (proj2 (unbound_total_counts_as_one_ring 0 log0
                  (ada_backpressure_state_init None) 1 10 eq_refl eq_refl
                  ltac:(repeat split; cbn; lia))).
Defined.


(** ** Steady state and a whole exhaustion episode *)

Lemma sample_prefix_idem s free :
  bp_update_low_watermark
    (set_free_rings (bp_update_low_watermark (set_free_rings s free) free) free)
    free
  = bp_update_low_watermark (set_free_rings s free) free.
Proof.
  destruct s as [m t e b d f tot lw ld lr ps rc cfg].
  unfold bp_update_low_watermark, set_free_rings. cbn.
  destruct (N.ltb_spec free lw) as [Hlt|Hge]; cbn.
  - rewrite N.ltb_irrefl. reflexivity.
  - destruct (N.ltb_spec free lw); [lia|reflexivity].
Qed.

Lemma sample_normal_quiet clock l s free now_ns :
  mode s = NORMAL ->
  bp_threshold_crossed (pressure_threshold_percent (config s))
    (bp_total_effective s) free = false ->
  ada_backpressure_state_sample clock (l, s) free now_ns
  = (l, bp_update_low_watermark (set_free_rings s free) free).
Proof.
  intros Hm Hnc. unfold ada_backpressure_state_sample.
  rewrite sample_prefix_mode, sample_prefix_config, sample_prefix_total, Hm, Hnc.
  reflexivity.
Qed.

(** X12.  In NORMAL mode a sample that is not below the pressure threshold
    logs nothing, counts no transition and only records the free count (and
    a new low watermark); repeating the same sample, at whatever time,
    changes nothing further. *)
Theorem healthy_sampling_is_idempotent
    (clock clock' : N) (l : bp_log_t) (s : ada_backpressure_state_t)
    (free now_ns now_ns' : N) :
  mode s = NORMAL ->
  0 < total_rings s -> total_rings s < 4294967296 -> free < 4294967296 ->
  thresholds_ok (config s) ->
  pressure_threshold_percent (config s) * total_rings s <= free * 100 ->
  let w1 := ada_backpressure_state_sample clock (l, s) free now_ns in
  fst w1 = l
  /\ mode (snd w1) = NORMAL
  /\ transitions (snd w1) = transitions s
  /\ free_rings (snd w1) = free
  /\ ada_backpressure_state_sample clock' w1 free now_ns' = w1.
Proof.
  intros Hm HT HT32 Hf (Hp0 & Hpr & Hr100) Hok w1.
  assert (Hnc : bp_threshold_crossed (pressure_threshold_percent (config s))
                  (bp_total_effective s) free = false).
  { unfold bp_total_effective.
    destruct (N.eqb_spec (total_rings s) 0); [lia|].
    apply not_true_is_false. intros Hc.
    apply bp_threshold_crossed_spec in Hc; try assumption; [|lia].
    unfold below_threshold in Hc. lia. }
  subst w1. rewrite (sample_normal_quiet clock l s free now_ns Hm Hnc).
  cbn [fst snd]. split; [reflexivity|].
  split; [rewrite sample_prefix_mode; exact Hm|].
  split.
  { unfold bp_update_low_watermark, set_free_rings.
    destruct (_ <? _); reflexivity. }
  split.
  { unfold bp_update_low_watermark, set_free_rings.
    destruct (_ <? _); reflexivity. }
  rewrite sample_normal_quiet.
  - rewrite sample_prefix_idem. reflexivity.
  - rewrite sample_prefix_mode. exact Hm.
  - rewrite sample_prefix_config, sample_prefix_total. exact Hnc.
Qed.

Lemma healthy_sampling_is_idempotent_witness :
  let s := ada_backpressure_state_set_total_rings
             (ada_backpressure_state_init None) 16 in
  let w1 := ada_backpressure_state_sample 7 (log0, s) 12 0 in
  ada_backpressure_state_sample 9 w1 12 0 = w1.
Proof.
  intros s w1.
  refine (proj2 (proj2 (proj2 (proj2
            (healthy_sampling_is_idempotent 7 9 log0 s 12 0 0 eq_refl eq_refl
               eq_refl eq_refl _ _))))).
  - repeat split; cbn; lia.
  - cbn. lia.
Defined.

Lemma on_exhaustion_shape clock l s now_ns :
  let w' := ada_backpressure_state_on_exhaustion clock (l, s) now_ns in
  mode (snd w') = DROPPING
  /\ config (snd w') = config s
  /\ total_rings (snd w') = total_rings s
  /\ ada_backpressure_state_on_exhaustion clock w' now_ns = w'.
Proof.
  destruct s as [m t e b d f tot lw ld lr ps rc cfg].
  unfold ada_backpressure_state_on_exhaustion, bp_transition.
  destruct m; cbn; repeat split; reflexivity.
Qed.

Lemma bp_transition_taken l s expected desired now :
  mode s = expected ->
  let w' := bp_transition (l, s) expected desired now in
  mode (snd w') = desired
  /\ config (snd w') = config s
  /\ total_rings (snd w') = total_rings s
  /\ last_recovery_ns (snd w') = last_recovery_ns s
  /\ pressure_start_ns (snd w')
     = match desired with
       | PRESSURE => now
       | NORMAL => 0
       | _ => pressure_start_ns s
       end
  /\ recovery_candidate_ns (snd w')
     = match desired with
       | RECOVERY => now
       | NORMAL => 0
       | _ => recovery_candidate_ns s
       end.
Proof.
  intros He. unfold bp_transition. rewrite He.
  replace (mode_eqb expected expected) with true
    by (symmetry; apply mode_eqb_eq; reflexivity).
  cbn. repeat split; reflexivity.
Qed.

(** X13.  A whole exhaustion episode.  From any mode
    [ada_backpressure_state_on_exhaustion] leads to DROPPING and is
    idempotent; [ada_backpressure_state_on_recovery] at a non-zero time t1
    then leads to RECOVERY with t1 as the recovery candidate, whatever free
    count it is given; and a following sample at t2 >= t1 that is not
    below the pressure threshold returns to NORMAL, with
    [last_recovery_ns] = t2 and the episode's timestamps cleared, when the
    stable window has elapsed since t1, and otherwise stays in RECOVERY
    with the candidate kept. *)
Theorem exhaustion_episode_closes
    (c0 c1 c2 : N) (l : bp_log_t) (s : ada_backpressure_state_t)
    (n0 free1 n1 free2 n2 : N) :
  let t1 := resolve_now c1 n1 in
  let t2 := resolve_now c2 n2 in
  let w1 := ada_backpressure_state_on_exhaustion c0 (l, s) n0 in
  let w2 := ada_backpressure_state_on_recovery c1 w1 free1 n1 in
  let w3 := ada_backpressure_state_sample c2 w2 free2 n2 in
  0 < total_rings s -> total_rings s < 4294967296 -> free2 < 4294967296 ->
  thresholds_ok (config s) ->
  pressure_threshold_percent (config s) * total_rings s <= free2 * 100 ->
  t1 <> 0 -> t1 <= t2 -> t2 < 18446744073709551616 ->
  mode (snd w1) = DROPPING
  /\ ada_backpressure_state_on_exhaustion c0 w1 n0 = w1
  /\ mode (snd w2) = RECOVERY
  /\ recovery_candidate_ns (snd w2) = t1
  /\ (recovery_stable_ns (config s) <= t2 - t1 ->
        mode (snd w3) = NORMAL
        /\ last_recovery_ns (snd w3) = t2
        /\ pressure_start_ns (snd w3) = 0
        /\ recovery_candidate_ns (snd w3) = 0)
  /\ (t2 - t1 < recovery_stable_ns (config s) ->
        mode (snd w3) = RECOVERY
        /\ recovery_candidate_ns (snd w3) = t1).
Proof.
  intros t1 t2 w1 w2 w3 HT HT32 Hf (Hp0 & Hpr & Hr100) Hok Ht1 Ht12 Ht2.
  destruct (on_exhaustion_shape c0 l s n0) as (Hm1 & Hc1 & Htot1 & Hidem).
  fold w1 in Hm1, Hc1, Htot1, Hidem.
  split; [exact Hm1|]. split; [exact Hidem|].
  destruct w1 as [l1 s1]. cbn [snd] in *. clear Hidem.
  (* the recovery callback *)
  set (s1' := set_last_recovery_ns (set_free_rings s1 free1) t1).
  assert (Hw2 : w2 = bp_transition (l1, s1') DROPPING RECOVERY t1).
  { subst w2. unfold ada_backpressure_state_on_recovery. fold t1. fold s1'.
    replace (mode s1') with DROPPING by (symmetry; exact Hm1). reflexivity. }
  destruct (bp_transition_taken l1 s1' DROPPING RECOVERY t1 Hm1)
    as (Hm2 & Hc2 & Htot2 & _ & _ & Hrc2).
  rewrite <- Hw2 in Hm2, Hc2, Htot2, Hrc2.
  change (config s1') with (config s1) in Hc2.
  change (total_rings s1') with (total_rings s1) in Htot2.
  split; [exact Hm2|]. split; [exact Hrc2|].
  clearbody w2. clear Hw2 s1'. destruct w2 as [l2 s2]. cbn [snd] in *.
  (* the sample that follows *)
  set (sp := bp_update_low_watermark (set_free_rings s2 free2) free2).
  assert (Hmp : mode sp = RECOVERY)
    by (subst sp; rewrite sample_prefix_mode; exact Hm2).
  assert (Hcp : config sp = config s)
    by (subst sp; rewrite sample_prefix_config; congruence).
  assert (Hrp : recovery_candidate_ns sp = t1)
    by (subst sp; rewrite sample_prefix_candidate; exact Hrc2).
  assert (Htp : bp_total_effective sp = total_rings s).
  { subst sp. rewrite sample_prefix_total. unfold bp_total_effective.
    rewrite Htot2, Htot1. destruct (N.eqb_spec (total_rings s) 0); [lia|].
    reflexivity. }
  assert (Hnc : bp_threshold_crossed (pressure_threshold_percent (config s))
                  (total_rings s) free2 = false).
  { apply not_true_is_false. intros Hc.
    apply bp_threshold_crossed_spec in Hc; try assumption; [|lia].
    unfold below_threshold in Hc. lia. }
  assert (Hw3 : w3 =
    if recovery_stable_ns (config s) <=? t2 - t1
    then (fst (bp_transition (l2, sp) RECOVERY NORMAL t2),
          set_last_recovery_ns (snd (bp_transition (l2, sp) RECOVERY NORMAL t2)) t2)
    else (l2, sp)).
  { subst w3. unfold ada_backpressure_state_sample. fold sp. fold t2.
    rewrite Hmp, Hcp, Htp, Hnc, Hrp.
    destruct (N.eqb_spec t1 0); [contradiction|].
    rewrite (sub64_le t2 t1 Ht12 Ht2).
    destruct (_ <=? _); [|reflexivity].
    destruct (bp_transition (l2, sp) RECOVERY NORMAL t2); reflexivity. }
  rewrite Hw3. clear Hw3.
  destruct (bp_transition_taken l2 sp RECOVERY NORMAL t2 Hmp)
    as (Hm3 & _ & _ & _ & Hps3 & Hrc3).
  split; intros Hst.
  - destruct (N.leb_spec (recovery_stable_ns (config s)) (t2 - t1)); [|lia].
    cbn [snd]. unfold set_last_recovery_ns.
    cbn [mode last_recovery_ns pressure_start_ns recovery_candidate_ns].
    repeat split; assumption.
  - destruct (N.leb_spec (recovery_stable_ns (config s)) (t2 - t1)); [lia|].
    cbn [snd]. split; assumption.
Qed.

Lemma exhaustion_episode_closes_witness :
  let s := ada_backpressure_state_set_total_rings
             (ada_backpressure_state_init None) 4 in
  let w1 := ada_backpressure_state_on_exhaustion 0 (log0, s) 10 in
  let w2 := ada_backpressure_state_on_recovery 0 w1 3 30 in
  let w3 := ada_backpressure_state_sample 0 w2 3 1000000030 in
  mode (snd w3) = NORMAL /\ last_recovery_ns (snd w3) = 1000000030.
Proof.
  intros s w1 w2 w3.
  assert (Hok : thresholds_ok (config s)) by (repeat split; cbn; lia).
  destruct (exhaustion_episode_closes 0 0 0 log0 s 10 3 30 3 1000000030
              eq_refl eq_refl eq_refl Hok ltac:(cbn; lia) ltac:(discriminate)
              ltac:(cbn; lia) eq_refl)
    as (_ & _ & _ & _ & Hclose & _).
  destruct Hclose as (Hm & Hl & _); [cbn; lia|].
  split; [exact Hm|exact Hl].
Defined.

End BackpressureFacts.

Module DrainFacts.
Import Drain.

(** ** What [drain_lane] does to a well-formed lane *)

Lemma drained_0 ln : drained 0 ln = ln.
Proof. destruct ln as [s f c]. unfold drained. cbn. now rewrite app_nil_r. Qed.

Lemma drained_wf k ln : lane_wf ln -> lane_wf (drained k ln).
Proof.
  intros (Hroom & Hs & Hc). unfold lane_wf, drained. cbn.
  rewrite length_app, length_take, length_drop. repeat split.
  - lia.
  - apply Forall_drop, Hs.
  - exact Hc.
Qed.

Lemma return_attempts_full n ln r :
  (free_capacity ln <= length (free_q ln))%nat ->
  return_attempts n ln r = None.
Proof.
  intros Hfull. induction n as [|n IH]; [reflexivity|].
  cbn [return_attempts]. unfold lane_return_ring.
  destruct (Nat.ltb_spec (length (free_q ln)) (free_capacity ln)); [lia|].
  exact IH.
Qed.

Lemma return_ring_to_producer_room ln r :
  (length (free_q ln) < free_capacity ln)%nat ->
  return_ring_to_producer ln r
  = Some (mk_lane (submit_q ln) (free_q ln ++ [r]) (free_capacity ln)).
Proof.
  intros Hroom. unfold return_ring_to_producer.
  change 1000%nat with (S 999). cbn [return_attempts].
  unfold lane_return_ring.
  destruct (Nat.ltb_spec (length (free_q ln)) (free_capacity ln)); [|lia].
  reflexivity.
Qed.

Lemma return_ring_to_producer_full ln r :
  (free_capacity ln <= length (free_q ln))%nat ->
  return_ring_to_producer ln r = None.
Proof.
  intros Hfull. unfold return_ring_to_producer.
  rewrite return_attempts_full by exact Hfull.
  unfold lane_return_ring.
  destruct (Nat.ltb_spec (length (free_q ln)) (free_capacity ln)); [lia|].
  reflexivity.
Qed.

Lemma drain_lane_loop_spec fuel : forall limit processed ln,
  (length (free_q ln) + length (submit_q ln) <= free_capacity ln)%nat ->
  Forall (fun r => r <> UINT32_MAX) (submit_q ln) ->
  (length (submit_q ln) < fuel)%nat ->
  processed <= limit ->
  let k := quota (limit - processed) ln in
  drain_lane_loop fuel limit processed ln
  = Some (processed + N.of_nat k, drained k ln).
Proof.
  induction fuel as [|fuel IH]; intros limit processed ln Hroom Hs Hfuel Hle k;
    [lia|].
  cbn [drain_lane_loop]. subst k. unfold quota.
  destruct (N.ltb_spec processed limit) as [Hlt|Hge].
  - unfold lane_take_ring.
    destruct ln as [sub fr cap]. cbn in *.
    destruct sub as [|r rest]; cbn.
    + rewrite Nat.min_0_r, drained_0. change (N.of_nat 0) with 0.
      now rewrite N.add_0_r.
    + inversion Hs as [|? ? Hr Hrest]; subst.
      cbn [length] in Hroom, Hfuel.
      destruct (N.eqb_spec r UINT32_MAX) as [|_]; [contradiction|].
      rewrite return_ring_to_producer_room by (cbn; lia). cbn.
      rewrite IH; cbn; try assumption; try lia.
      2: { rewrite length_app. cbn. lia. }
      unfold quota, drained. cbn.
      replace (N.to_nat (limit - processed))
        with (S (N.to_nat (limit - (processed + 1)))) by lia.
      cbn. f_equal. f_equal; [lia|].
      f_equal. now rewrite <- app_assoc.
  - replace (limit - processed) with 0 by lia.
    change (N.to_nat 0) with 0%nat.
    rewrite Nat.min_0_l, drained_0. change (N.of_nat 0) with 0.
    now rewrite N.add_0_r.
Qed.

Lemma drain_lane_spec d slot ln is_detail final_pass :
  lane_wf ln ->
  let limit := compute_effective_limit d final_pass in
  let k := quota limit ln in
  drain_lane d slot (Some ln) is_detail final_pass
  = Some (N.of_nat k,
          negb (limit =? UINT32_MAX) && (N.of_nat k =? limit),
          (if N.of_nat k =? 0 then d
           else set_metrics d (add_ring_metrics (metrics d) slot is_detail
                                 (N.of_nat k))),
          Some (drained k ln)).
Proof.
  intros (Hroom & Hs & Hc) limit k. unfold drain_lane. fold limit.
  rewrite drain_lane_loop_spec; try assumption; try lia.
  replace (limit - 0) with limit by lia. fold k. cbn beta iota.
  rewrite N.add_0_l.
  destruct (N.eqb_spec (N.of_nat k) 0) as [->|_]; reflexivity.
Qed.

(** ** One slot of a cycle *)

Lemma same_control_refl d : same_control d d.
Proof. repeat split. Qed.

Lemma same_control_trans d1 d2 d3 :
  same_control d1 d2 -> same_control d2 d3 -> same_control d1 d3.
Proof. unfold same_control. intros (?&?&?) (?&?&?). repeat split; congruence. Qed.

Lemma same_loop_metrics_refl m : same_loop_metrics m m.
Proof. repeat split. Qed.

Lemma same_loop_metrics_trans m1 m2 m3 :
  same_loop_metrics m1 m2 -> same_loop_metrics m2 m3 -> same_loop_metrics m1 m3.
Proof.
  unfold same_loop_metrics. intros (?&?&?&?&?&?) (?&?&?&?&?&?).
  repeat split; congruence.
Qed.

Lemma compute_effective_limit_config d d' final_pass :
  config d' = config d ->
  compute_effective_limit d' final_pass = compute_effective_limit d final_pass.
Proof. intros H. unfold compute_effective_limit. now rewrite H. Qed.

Lemma after_lane_facts d slot ln is_detail final_pass :
  let d' := after_lane d slot ln is_detail final_pass in
  let limit := compute_effective_limit d final_pass in
  same_control d d'
  /\ registry d' = registry d
  /\ rr_cursor d' = rr_cursor d
  /\ same_loop_metrics (metrics d) (metrics d')
  /\ fairness_switches (metrics d')
     = Nat.iter (if lane_hit limit ln then 1 else 0)%nat incr64
         (fairness_switches (metrics d)).
Proof.
  unfold after_lane.
  destruct (lane_hit _ ln); destruct (_ =? 0);
    repeat split; reflexivity.
Qed.

Lemma drain_cycle_slot_spec d reg slot final_pass work :
  registry d = Some reg ->
  Forall (fun lanes => active lanes = true -> lanes_wf lanes) (slots reg) ->
  let limit := compute_effective_limit d final_pass in
  let here := slots reg !! N.to_nat slot in
  exists d' reg',
    drain_cycle_slot d slot final_pass work
    = Some (work || Nat.ltb 0 (from_option (slot_taken limit) O here), d')
    /\ registry d' = Some reg'
    /\ (forall j, slots reg' !! j
                  = if decide (j = N.to_nat slot)
                    then cycle_lanes limit <$> slots reg !! j
                    else slots reg !! j)
    /\ same_control d d'
    /\ rr_cursor d' = rr_cursor d
    /\ same_loop_metrics (metrics d) (metrics d')
    /\ fairness_switches (metrics d')
       = Nat.iter (from_option (slot_hits limit) O here) incr64
           (fairness_switches (metrics d)).
Proof.
  intros Hreg Hwf limit here. unfold drain_cycle_slot. rewrite Hreg.
  unfold thread_registry_get_thread_at. fold here.
  destruct here as [lanes|] eqn:Hhere; cbn [from_option].
  2: { exists d, reg. rewrite orb_false_r.
       repeat split; try reflexivity; try exact Hreg.
       intros j. destruct (decide (j = N.to_nat slot)) as [->|]; [|reflexivity].
       unfold here in Hhere. now rewrite Hhere. }
  unfold slot_taken, slot_hits.
  destruct (active lanes) eqn:Hact.
  2: { exists d, reg. rewrite orb_false_r.
       repeat split; try reflexivity; try exact Hreg.
       intros j. destruct (decide (j = N.to_nat slot)) as [->|]; [|reflexivity].
       unfold here in Hhere. rewrite Hhere. cbn. unfold cycle_lanes.
       now rewrite Hact. }
  assert (Hl : lanes_wf lanes).
  { rewrite Forall_forall in Hwf. apply Hwf; [|exact Hact].
    apply list_elem_of_lookup. eauto. }
  destruct Hl as [Hi Hd].
  unfold thread_lanes_get_index_lane, thread_lanes_get_detail_lane.
  rewrite (drain_lane_spec d slot (index_lane lanes) false final_pass Hi).
  fold limit. cbn beta iota zeta.
  set (d2 := after_lane d slot (index_lane lanes) false final_pass).
  assert (Hd2 : (if negb (limit =? UINT32_MAX)
                    && (N.of_nat (quota limit (index_lane lanes)) =? limit)
                 then add_fairness_switch
                        (if N.of_nat (quota limit (index_lane lanes)) =? 0
                         then d
                         else set_metrics d
                                (add_ring_metrics (metrics d) slot false
                                   (N.of_nat (quota limit (index_lane lanes)))))
                 else if N.of_nat (quota limit (index_lane lanes)) =? 0
                      then d
                      else set_metrics d
                             (add_ring_metrics (metrics d) slot false
                                (N.of_nat (quota limit (index_lane lanes)))))
                = d2) by reflexivity.
  rewrite Hd2. clear Hd2.
  pose proof (after_lane_facts d slot (index_lane lanes) false final_pass)
    as (Hc2 & Hr2 & Hrr2 & Hm2 & Hf2).
  fold d2 in Hc2, Hr2, Hrr2, Hm2, Hf2. fold limit in Hf2.
  assert (Hlim2 : compute_effective_limit d2 final_pass = limit).
  { apply compute_effective_limit_config. apply Hc2. }
  rewrite (drain_lane_spec d2 slot (detail_lane lanes) true final_pass Hd).
  rewrite Hlim2. cbn beta iota zeta.
  set (d4 := after_lane d2 slot (detail_lane lanes) true final_pass).
  pose proof (after_lane_facts d2 slot (detail_lane lanes) true final_pass)
    as (Hc4 & Hr4 & Hrr4 & Hm4 & Hf4).
  fold d4 in Hc4, Hr4, Hrr4, Hm4, Hf4. rewrite Hlim2 in Hf4.
  set (lanes' := mk_lanes (thread_id lanes) (active lanes)
                   (drained (quota limit (index_lane lanes)) (index_lane lanes))
                   (drained (quota limit (detail_lane lanes)) (detail_lane lanes))).
  exists (set_registry d4 (Some (store_lanes reg slot lanes'))),
         (store_lanes reg slot lanes').
  split.
  { f_equal. f_equal.
    - destruct (quota limit (index_lane lanes)), (quota limit (detail_lane lanes));
        cbn; rewrite ?orb_true_r, ?orb_false_r; try reflexivity;
        destruct work; reflexivity.
    - unfold d4, after_lane. rewrite Hlim2. reflexivity. }
  split; [cbn; reflexivity|].
  cbn [set_registry registry store_lanes slots state config thread_started
       rr_cursor metrics default from_option].
  split; [|split; [|split; [|split]]].
  - intros j. destruct (decide (j = N.to_nat slot)) as [->|Hne].
    + rewrite list_lookup_insert_eq
        by (apply lookup_lt_is_Some; unfold here in Hhere; eauto).
      unfold here in Hhere. rewrite Hhere. cbn. unfold cycle_lanes.
      subst lanes'. rewrite Hact. reflexivity.
    + now rewrite list_lookup_insert_ne by congruence.
  - eapply same_control_trans; [exact Hc2|].
    destruct Hc4 as (?&?&?). repeat split; assumption.
  - cbn. congruence.
  - eapply same_loop_metrics_trans; eassumption.
  - change (metrics (set_registry d4 _)) with (metrics d4).
    rewrite Hf4, Hf2. rewrite <- Nat.iter_add. f_equal. lia.
Qed.

(** ** The round-robin loop *)

Lemma drain_cycle_loop_visits n : forall offset start capacity final_pass work d,
  drain_cycle_loop n offset start capacity final_pass work d
  = visit_slots (cycle_order n offset start capacity) final_pass work d.
Proof.
  induction n as [|n IH]; intros; cbn; [reflexivity|].
  destruct (drain_cycle_slot _ _ _ _) as [[w d']|]; [apply IH|reflexivity].
Qed.

Lemma sum_list_with_ext_in {A} (f g : A -> nat) (l : list A) :
  (forall x, x ∈ l -> f x = g x) -> sum_list_with f l = sum_list_with g l.
Proof.
  induction l as [|x l IH]; intros H; cbn; [reflexivity|].
  rewrite H by left. rewrite IH; [reflexivity|].
  intros y Hy. apply H. now right.
Qed.

Lemma cycle_lanes_wf limit lanes :
  (active lanes = true -> lanes_wf lanes) ->
  active (cycle_lanes limit lanes) = true -> lanes_wf (cycle_lanes limit lanes).
Proof.
  unfold cycle_lanes. destruct (active lanes) eqn:Hact; [|congruence].
  intros H _. destruct (H eq_refl) as [Hi Hd].
  split; cbn; now apply drained_wf.
Qed.

Lemma visit_slots_spec final_pass idxs : forall work d reg,
  registry d = Some reg ->
  Forall (fun lanes => active lanes = true -> lanes_wf lanes) (slots reg) ->
  NoDup (N.to_nat <$> idxs) ->
  let limit := compute_effective_limit d final_pass in
  exists d' reg',
    visit_slots idxs final_pass work d
    = Some (work || Nat.ltb 0 (sum_list_with (taken_at limit reg) idxs), d')
    /\ registry d' = Some reg'
    /\ (forall j, slots reg' !! j
                  = if decide (j ∈ N.to_nat <$> idxs)
                    then cycle_lanes limit <$> slots reg !! j
                    else slots reg !! j)
    /\ same_control d d'
    /\ rr_cursor d' = rr_cursor d
    /\ same_loop_metrics (metrics d) (metrics d')
    /\ fairness_switches (metrics d')
       = Nat.iter (sum_list_with (hits_at limit reg) idxs) incr64
           (fairness_switches (metrics d)).
Proof.
  induction idxs as [|i rest IH]; intros work d reg Hreg Hwf Hnd limit.
  - exists d, reg. cbn. rewrite orb_false_r.
    repeat split; try reflexivity; try exact Hreg.
  - cbn [visit_slots fmap list_fmap] in *.
    apply NoDup_cons in Hnd as [Hni Hnd].
    destruct (drain_cycle_slot_spec d reg i final_pass work Hreg Hwf)
      as (d1 & reg1 & Hrun1 & Hreg1 & Hlk1 & Hc1 & Hrr1 & Hm1 & Hf1).
    fold limit in Hrun1, Hlk1, Hf1.
    assert (Hlim1 : compute_effective_limit d1 final_pass = limit).
    { apply compute_effective_limit_config, Hc1. }
    assert (Hwf1 : Forall (fun lanes => active lanes = true -> lanes_wf lanes)
                     (slots reg1)).
    { rewrite Forall_lookup. intros j x Hx. rewrite Hlk1 in Hx.
      rewrite Forall_lookup in Hwf.
      destruct (decide (j = N.to_nat i)).
      - destruct (slots reg !! j) as [y|] eqn:Hy; [|discriminate].
        cbn in Hx. injection Hx as <-. apply cycle_lanes_wf. eauto.
      - eauto. }
    destruct (IH (work || Nat.ltb 0 (taken_at limit reg i)) d1 reg1
                Hreg1 Hwf1 Hnd)
      as (d' & reg' & Hrun & Hreg' & Hlk & Hc & Hrr & Hm & Hf).
    rewrite Hlim1 in Hrun, Hlk, Hf.
    assert (Hsame : forall x, x ∈ rest ->
              slots reg1 !! N.to_nat x = slots reg !! N.to_nat x).
    { intros x Hx. rewrite Hlk1.
      destruct (decide (N.to_nat x = N.to_nat i)) as [E|]; [|reflexivity].
      exfalso. apply Hni. rewrite <- E. apply list_elem_of_fmap. eauto. }
    exists d', reg'. rewrite Hrun1. fold (taken_at limit reg i). rewrite Hrun.
    split; [|split; [exact Hreg'|split; [|split; [|split; [|split]]]]].
    + f_equal. f_equal.
      rewrite (sum_list_with_ext_in (taken_at limit reg1) (taken_at limit reg))
        by (intros x Hx; unfold taken_at; now rewrite Hsame).
      cbn [sum_list_with].
      destruct (taken_at limit reg i), (sum_list_with (taken_at limit reg) rest);
        cbn; rewrite ?orb_true_r, ?orb_false_r; reflexivity.
    + intros j. rewrite Hlk, Hlk1.
      destruct (decide (j = N.to_nat i)) as [Hji|Hji].
      * subst j.
        destruct (decide (N.to_nat i ∈ N.to_nat <$> rest)) as [?|_];
          [contradiction|].
        destruct (decide (_ ∈ _ :: _)) as [_|Hn]; [reflexivity|].
        exfalso. apply Hn. left.
      * destruct (decide (j ∈ N.to_nat <$> rest)) as [Hin|Hnin];
          destruct (decide (_ ∈ _ :: _)) as [Hall|Hall];
          try reflexivity; exfalso.
        -- apply Hall. now right.
        -- apply elem_of_cons in Hall as [?|?]; contradiction.
    + eapply same_control_trans; eassumption.
    + congruence.
    + eapply same_loop_metrics_trans; eassumption.
    + rewrite Hf, Hf1. fold (hits_at limit reg i).
      rewrite (sum_list_with_ext_in (hits_at limit reg1) (hits_at limit reg))
        by (intros x Hx; unfold hits_at; now rewrite Hsame).
      cbn [sum_list_with]. rewrite <- Nat.iter_add. f_equal. lia.
Qed.

Lemma mod_once a c :
  0 < c -> a < 2 * c -> a mod c = if a <? c then a else a - c.
Proof.
  intros Hc Ha. destruct (N.ltb_spec a c) as [Hlt|Hge].
  - now apply N.mod_small.
  - replace a with ((a - c) + 1 * c) at 1 by lia.
    rewrite N.Div0.mod_add. apply N.mod_small. lia.
Qed.

Lemma cycle_order_seq n : forall offset start capacity,
  start < capacity -> capacity <= 2147483648 ->
  offset + N.of_nat n <= capacity ->
  cycle_order n offset start capacity
  = (fun j => (start + offset + N.of_nat j) mod capacity) <$> seq 0 n.
Proof.
  induction n as [|n IH]; intros offset start capacity Hs Hc Hn;
    [reflexivity|].
  cbn [cycle_order seq fmap list_fmap].
  rewrite (wrap32_small (start + offset)) by lia.
  rewrite (wrap32_small (offset + 1)) by lia.
  f_equal.
  - f_equal. change (N.of_nat 0) with 0. lia.
  - rewrite IH by lia. rewrite <- seq_shift.
    change (map S (seq 0 n)) with (S <$> seq 0 n).
    rewrite <- list_fmap_compose. apply list_fmap_ext.
    intros _ j _. cbn. f_equal. lia.
Qed.

Lemma cycle_order_covers start capacity :
  start < capacity -> capacity <= 2147483648 ->
  N.to_nat <$> cycle_order (N.to_nat capacity) 0 start capacity
  ≡ₚ seq 0 (N.to_nat capacity).
Proof.
  intros Hs Hc. rewrite cycle_order_seq by lia.
  rewrite <- list_fmap_compose.
  set (g := N.to_nat ∘ (fun j => (start + 0 + N.of_nat j) mod capacity)).
  assert (Hg : forall j, (j < N.to_nat capacity)%nat ->
             g j = if (N.to_nat start + j <? N.to_nat capacity)%nat
                   then (N.to_nat start + j)%nat
                   else (N.to_nat start + j - N.to_nat capacity)%nat).
  { intros j Hj. unfold g, compose. rewrite mod_once by lia.
    destruct (N.ltb_spec (start + 0 + N.of_nat j) capacity);
      destruct (Nat.ltb_spec (N.to_nat start + j) (N.to_nat capacity)); lia. }
  apply NoDup_Permutation.
  - apply NoDup_fmap_2_strong; [|apply NoDup_seq].
    intros x y Hx Hy Hxy. apply elem_of_seq in Hx, Hy.
    rewrite !Hg in Hxy by lia.
    destruct (Nat.ltb_spec (N.to_nat start + x) (N.to_nat capacity));
      destruct (Nat.ltb_spec (N.to_nat start + y) (N.to_nat capacity)); lia.
  - apply NoDup_seq.
  - intros i. rewrite elem_of_seq, list_elem_of_fmap. split.
    + intros (j & -> & Hj). apply elem_of_seq in Hj. rewrite Hg by lia.
      destruct (Nat.ltb_spec (N.to_nat start + j) (N.to_nat capacity)); lia.
    + intros Hi.
      destruct (Nat.ltb_spec i (N.to_nat start)) as [Hlt|Hge].
      * exists (i + N.to_nat capacity - N.to_nat start)%nat. split.
        -- rewrite Hg by lia.
           destruct (Nat.ltb_spec
                       (N.to_nat start + (i + N.to_nat capacity - N.to_nat start))
                       (N.to_nat capacity)); lia.
        -- apply elem_of_seq. lia.
      * exists (i - N.to_nat start)%nat. split.
        -- rewrite Hg by lia.
           destruct (Nat.ltb_spec (N.to_nat start + (i - N.to_nat start))
                       (N.to_nat capacity)); lia.
        -- apply elem_of_seq. lia.
Qed.

Lemma sum_list_with_fmap {A B} (f : B -> nat) (g : A -> B) (l : list A) :
  sum_list_with f (g <$> l) = sum_list_with (f ∘ g) l.
Proof. induction l as [|x l IH]; cbn; [reflexivity|]. now rewrite IH. Qed.

Lemma sum_list_with_lookup {A} (f : A -> nat) (l : list A) :
  sum_list_with (fun j => from_option f O (l !! j)) (seq 0 (length l))
  = sum_list_with f l.
Proof.
  induction l as [|x l IH]; [reflexivity|].
  cbn [length seq sum_list_with]. rewrite <- seq_shift.
  change (map S (seq 0 (length l))) with (S <$> seq 0 (length l)).
  rewrite sum_list_with_fmap. cbn. f_equal. exact IH.
Qed.

(** One whole cycle over a well-formed registry: every slot is visited
    exactly once, whatever the round-robin cursor. *)
Lemma drain_cycle_spec now d reg final_pass :
  registry d = Some reg ->
  registry_wf reg ->
  let limit := compute_effective_limit d final_pass in
  exists d',
    drain_cycle now d final_pass
    = Some (Nat.ltb 0 (sum_list_with (slot_taken limit) (slots reg)), d')
    /\ registry d' = Some (mk_registry (cycle_lanes limit <$> slots reg))
    /\ same_control d d'
    /\ same_loop_metrics (metrics d) (metrics d')
    /\ fairness_switches (metrics d')
       = Nat.iter (sum_list_with (slot_hits limit) (slots reg)) incr64
           (fairness_switches (metrics d)).
Proof.
  intros Hreg [Hcap Hwf] limit. unfold drain_cycle. rewrite Hreg.
  unfold thread_registry_get_capacity.
  set (capacity := N.of_nat (length (slots reg))) in *.
  destruct (N.eqb_spec capacity 0) as [Hz|Hnz].
  - assert (Hnil : slots reg = []).
    { destruct (slots reg); [reflexivity|]. subst capacity. cbn in Hz. lia. }
    exists d. rewrite Hnil. cbn.
    repeat split; try reflexivity.
    rewrite Hreg. destruct reg as [sl]. cbn in Hnil. now rewrite Hnil.
  - set (start := if capacity <=? rr_cursor d then 0 else rr_cursor d).
    assert (Hstart : start < capacity).
    { subst start. destruct (N.leb_spec capacity (rr_cursor d)); lia. }
    rewrite drain_cycle_loop_visits.
    set (idxs := cycle_order (N.to_nat capacity) 0 start capacity).
    assert (Hperm : N.to_nat <$> idxs ≡ₚ seq 0 (length (slots reg))).
    { subst idxs. rewrite cycle_order_covers by assumption.
      subst capacity. now rewrite Nat2N.id. }
    assert (Hnd : NoDup (N.to_nat <$> idxs)).
    { rewrite Hperm. apply NoDup_seq. }
    destruct (visit_slots_spec final_pass idxs false d reg Hreg Hwf Hnd)
      as (d' & reg' & Hrun & Hreg' & Hlk & Hc & Hrr & Hm & Hf).
    fold limit in Hrun, Hlk, Hf. rewrite Hrun. cbn [orb].
    assert (Hsum : forall f : ThreadLaneSet -> nat,
              sum_list_with
                (fun i => from_option f O (slots reg !! N.to_nat i)) idxs
              = sum_list_with f (slots reg)).
    { intros f. rewrite <- (sum_list_with_lookup f (slots reg)).
      rewrite <- Hperm. now rewrite sum_list_with_fmap. }
    eexists. split; [|split; [|split; [|split]]].
    + f_equal. f_equal. f_equal. apply (Hsum (slot_taken limit)).
    + cbn. rewrite Hreg'. f_equal. destruct reg' as [sl']. f_equal. cbn in *.
      apply list_eq. intros j. rewrite Hlk, list_lookup_fmap.
      destruct (decide (j ∈ N.to_nat <$> idxs)) as [Hin|Hnin]; [reflexivity|].
      rewrite Hperm, elem_of_seq in Hnin.
      rewrite (lookup_ge_None_2 (slots reg) j) by lia. reflexivity.
    + destruct Hc as (?&?&?). repeat split; assumption.
    + exact Hm.
    + cbn. rewrite Hf. f_equal. apply (Hsum (slot_hits limit)).
Qed.

(** ** Rings taken by [drain_lane] *)


Lemma quota_le_length limit ln : (quota limit ln <= length (submit_q ln))%nat.
Proof. unfold quota. lia. Qed.


(** C3, as the code has it.  For the rings one [drain_lane] call takes from
    a lane's submit queue (its first [k] entries): they leave the submit
    queue and are appended, in order, to the lane's free queue; when any
    ring was taken, [rings_total], the matching [rings_index] or
    [rings_detail] counter and, for a slot index below [MAX_THREADS], the
    per-thread count of that slot and lane grow by [k] while the other
    lane's counters stay; and nothing is handed to a per-thread file
    writer. *)
Theorem drain_lane_recycles_and_counts
    (w : DrainWorld) (slot : N) (ln : Lane) (is_detail final_pass : bool) :
  lane_wf ln ->
  let k := quota (compute_effective_limit (drain w) final_pass) ln in
  let taken := take k (submit_q ln) in
  let m := metrics (drain w) in
  exists hit_limit w' ln',
    world_drain_lane w slot (Some ln) is_detail final_pass
    = Some (N.of_nat (length taken), hit_limit, w', Some ln')
    /\ submit_q ln = taken ++ submit_q ln'
    /\ free_q ln' = free_q ln ++ taken
    /\ handed_to_writer w' = handed_to_writer w
    /\ (taken = [] -> drain w' = drain w)
    /\ (taken <> [] ->
        let m' := metrics (drain w') in
        let n := N.of_nat (length taken) in
        rings_total m' = wrap64 (rings_total m + n)
        /\ (if is_detail
            then rings_detail m' = wrap64 (rings_detail m + n)
                 /\ rings_index m' = rings_index m
            else rings_index m' = wrap64 (rings_index m + n)
                 /\ rings_detail m' = rings_detail m)
        /\ (slot < MAX_THREADS ->
            per_thread_rings m' !! N.to_nat slot
            = (fun p => if is_detail then (fst p, wrap64 (snd p + n))
                        else (wrap64 (fst p + n), snd p))
              <$> per_thread_rings m !! N.to_nat slot)
        /\ (forall j, j <> N.to_nat slot ->
            per_thread_rings m' !! j = per_thread_rings m !! j)).
Proof.
  intros Hwf k taken m.
  assert (Hlen : length taken = k).
  { subst taken. rewrite length_take. pose proof (quota_le_length
      (compute_effective_limit (drain w) final_pass) ln). fold k in H. lia. }
  unfold world_drain_lane.
  rewrite (drain_lane_spec (drain w) slot ln is_detail final_pass Hwf).
  fold k. rewrite Hlen.
  eexists _, _, _. split; [reflexivity|].
  cbn [drain handed_to_writer drained submit_q free_q].
  split; [subst taken; now rewrite take_drop|].
  split; [reflexivity|]. split; [reflexivity|]. split.
  - intros Hnil. assert (k = O) as -> by (rewrite <- Hlen, Hnil; reflexivity).
    reflexivity.
  - intros Hne. destruct (N.eqb_spec (N.of_nat k) 0) as [Hz|Hnz].
    { exfalso. apply Hne. apply length_zero_iff_nil. lia. }
    cbn [set_metrics metrics add_ring_metrics rings_total rings_index
         rings_detail per_thread_rings]. fold m.
    split; [reflexivity|]. split; [destruct is_detail; split; reflexivity|].
    split.
    + intros Hslot. destruct (N.ltb_spec slot MAX_THREADS); [|lia].
      unfold per_thread_add. apply list_lookup_alter_eq.
    + intros j Hj. destruct (slot <? MAX_THREADS); [|reflexivity].
      unfold per_thread_add. apply list_lookup_alter_ne. congruence.
Qed.

Lemma drain_lane_recycles_and_counts_witness :
  exists hit_limit w' ln',
    world_drain_lane (mk_world (demo_drain DRAIN_STATE_RUNNING 2 8) []) 0
      (Some (lane_of [0; 1; 2] [3])) false false
    = Some (2, hit_limit, w', Some ln')
    /\ submit_q ln' = [2]
    /\ free_q ln' = [3; 0; 1]
    /\ rings_total (metrics (drain w')) = 2
    /\ rings_index (metrics (drain w')) = 2
    /\ per_thread_rings (metrics (drain w')) !! O = Some (2, 0).
Proof.
  assert (Hwf : lane_wf (lane_of [0; 1; 2] [3])).
  { repeat split; cbn; try lia.
    repeat constructor; unfold UINT32_MAX; lia. }
  destruct (drain_lane_recycles_and_counts
              (mk_world (demo_drain DRAIN_STATE_RUNNING 2 8) []) 0
              (lane_of [0; 1; 2] [3]) false false Hwf)
    as (hit & w' & ln' & Hrun & Hsub & Hfree & _ & _ & Hcnt).
  exists hit, w', ln'. split; [exact Hrun|].
  cbn in Hsub, Hfree.
  destruct (Hcnt ltac:(cbn; discriminate)) as (Ht & Hi & Hp & _).
  specialize (Hp eq_refl). cbn in Ht, Hi, Hp. destruct Hi as [Hi _].
  repeat split.
  - injection Hsub as <-. reflexivity.
  - exact Hfree.
  - exact Ht.
  - exact Hi.
  - exact Hp.
Defined.

(** C3 as stated fails: the hand-off to a per-thread file writer does not
    happen.  Ring 0 of slot 0's index lane is taken from submit, counted and
    returned to the free queue, and no ring has reached a writer. *)
Lemma drain_lane_hands_nothing_to_writer :
  exists hit_limit w' ln',
    world_drain_lane (mk_world (demo_drain DRAIN_STATE_RUNNING 8 8) []) 0
      (Some (lane_of [0] [1; 2; 3])) false false
    = Some (1, hit_limit, w', Some ln')
    /\ submit_q ln' = []
    /\ free_q ln' = [1; 2; 3; 0]
    /\ rings_total (metrics (drain w')) = 1
    /\ ~ In (0, false, 0) (handed_to_writer w').
Proof.
  eexists _, _, _. split; [vm_compute; reflexivity|].
  repeat split. intros [].
Qed.

(** ** Fairness quantum of a non-final cycle *)



Lemma demo_registry_wf : registry_wf demo_registry.
Proof.
  split; [cbn; lia|].
  repeat constructor; cbn; try lia; unfold UINT32_MAX; lia.
Qed.


(** ** The final pass *)

Lemma drained_unbounded ln :
  lane_wf ln -> drained (quota UINT32_MAX ln) ln = flushed ln.
Proof.
  intros (Hroom & _ & Hcap). unfold drained, flushed, quota.
  replace (Nat.min (N.to_nat UINT32_MAX) (length (submit_q ln)))
    with (length (submit_q ln)) by (unfold UINT32_MAX in *; lia).
  now rewrite drop_all, firstn_all.
Qed.

Lemma cycle_lanes_unbounded lanes :
  (active lanes = true -> lanes_wf lanes) ->
  cycle_lanes UINT32_MAX lanes = final_lanes lanes.
Proof.
  intros H. unfold cycle_lanes, final_lanes.
  destruct (active lanes); [|reflexivity].
  destruct (H eq_refl) as [Hi Hd]. now rewrite !drained_unbounded.
Qed.

Lemma flushed_wf ln : lane_wf ln -> lane_wf (flushed ln).
Proof.
  intros (Hroom & Hs & Hc). unfold lane_wf, flushed. cbn.
  rewrite length_app. repeat split; [lia|constructor|exact Hc].
Qed.

Lemma final_lanes_wf lanes :
  (active lanes = true -> lanes_wf lanes) ->
  active (final_lanes lanes) = true -> lanes_wf (final_lanes lanes).
Proof.
  unfold final_lanes. destruct (active lanes) eqn:Ha; [|congruence].
  intros H _. destruct (H eq_refl). split; cbn; now apply flushed_wf.
Qed.

Lemma final_lanes_idem lanes : final_lanes (final_lanes lanes) = final_lanes lanes.
Proof.
  unfold final_lanes. destruct (active lanes) eqn:Ha; cbn; [|now rewrite Ha].
  unfold flushed. cbn. now rewrite !app_nil_r.
Qed.

Lemma slot_taken_final limit lanes : slot_taken limit (final_lanes lanes) = O.
Proof.
  unfold slot_taken, final_lanes.
  destruct (active lanes) eqn:Ha; cbn; [|now rewrite Ha].
  unfold quota. cbn. now rewrite !Nat.min_0_r.
Qed.

Lemma final_registry_wf reg :
  registry_wf reg -> registry_wf (mk_registry (final_lanes <$> slots reg)).
Proof.
  intros [Hcap Hwf]. split; cbn.
  - now rewrite length_fmap.
  - rewrite Forall_fmap. eapply Forall_impl; [exact Hwf|].
    intros lanes H. cbn beta in *. intros Ha. now apply final_lanes_wf.
Qed.

Lemma final_cycle_spec now d reg :
  registry d = Some reg ->
  registry_wf reg ->
  exists work d',
    drain_cycle now d true = Some (work, d')
    /\ registry d' = Some (mk_registry (final_lanes <$> slots reg))
    /\ same_control d d'
    /\ same_loop_metrics (metrics d) (metrics d')
    /\ (sum_list_with lanes_pending
          (filter (fun lanes => active lanes = true) (slots reg)) = O
        -> work = false).
Proof.
  intros Hreg Hwf.
  destruct (drain_cycle_spec now d reg true Hreg Hwf)
    as (d' & Hrun & Hreg' & Hc & Hm & _).
  change (compute_effective_limit d true) with UINT32_MAX in Hrun, Hreg'.
  eexists _, d'. split; [exact Hrun|]. split; [|split; [exact Hc|split; [exact Hm|]]].
  - rewrite Hreg'. f_equal. f_equal. apply list_fmap_ext.
    intros i lanes Hi. apply cycle_lanes_unbounded.
    destruct Hwf as [_ Hwf]. rewrite Forall_lookup in Hwf. eauto.
  - intros Hnone.
    assert (Hz : sum_list_with (slot_taken UINT32_MAX) (slots reg) = O).
    { clear -Hnone. induction (slots reg) as [|x l IH]; [reflexivity|].
      cbn [sum_list_with]. rewrite filter_cons in Hnone.
      unfold slot_taken at 1.
      destruct (decide (active x = true)) as [Ha|Ha].
      - cbn [sum_list_with] in Hnone. rewrite Ha.
        unfold lanes_pending in Hnone at 1. unfold quota.
        rewrite IH by lia. lia.
      - destruct (active x); [congruence|]. now rewrite IH. }
    now rewrite Hz.
Qed.

Lemma final_lanes_nothing_pending (l : list ThreadLaneSet) :
  sum_list_with lanes_pending
    (filter (fun lanes => active lanes = true) (final_lanes <$> l)) = O.
Proof.
  induction l as [|x l IH]; [reflexivity|].
  cbn [fmap list_fmap]. rewrite filter_cons.
  destruct (decide (active (final_lanes x) = true)) as [Ha|Ha]; [|exact IH].
  cbn [sum_list_with]. rewrite IH.
  unfold final_lanes in *. destruct (active x) eqn:Hx; [reflexivity|].
  congruence.
Qed.

(** The final pass over a well-formed registry ends after at most two
    cycles, the last of which reports no work. *)
Lemma drain_final_pass_spec clock d reg :
  registry d = Some reg ->
  registry_wf reg ->
  exists d1 k d_last d_idle,
    drain_final_pass clock d = Some d1
    /\ drain_cycle (clock k) d_last true = Some (false, d_idle)
    /\ d1 = upd_metrics inc_cycles_total d_idle
    /\ registry d1 = Some (mk_registry (final_lanes <$> slots reg))
    /\ same_control d d1
    /\ final_drains (metrics d1) = wrap64 (final_drains (metrics d) + 1).
Proof.
  intros Hreg Hwf. unfold drain_final_pass.
  set (d0 := upd_metrics inc_final_drains d).
  cbn [final_pass_loop].
  destruct (final_cycle_spec (clock O) d0 reg Hreg Hwf)
    as (w1 & d1 & Hrun1 & Hreg1 & Hc1 & Hm1 & _).
  rewrite Hrun1.
  destruct w1.
  - set (d2 := upd_metrics inc_cycles_total d1).
    destruct (final_cycle_spec (clock 1%nat) d2
                (mk_registry (final_lanes <$> slots reg)) Hreg1
                (final_registry_wf reg Hwf))
      as (w2 & d3 & Hrun2 & Hreg3 & Hc3 & Hm3 & Hidle).
    rewrite Hrun2.
    rewrite (Hidle (final_lanes_nothing_pending (slots reg))) in *.
    exists (upd_metrics inc_cycles_total d3), 1%nat, d2, d3.
    split; [reflexivity|]. split; [exact Hrun2|]. split; [reflexivity|].
    cbn [slots] in Hreg3. split; [|split].
    + cbn. rewrite Hreg3. f_equal. f_equal.
      rewrite <- list_fmap_compose. apply list_fmap_ext.
      intros i x _. apply final_lanes_idem.
    + destruct Hc1 as (?&?&?), Hc3 as (?&?&?).
      subst d0 d2. repeat split; cbn in *; congruence.
    + destruct Hm1 as (_&_&_&_&H1&_), Hm3 as (_&_&_&_&H3&_).
      subst d0 d2. cbn in *. congruence.
  - exists (upd_metrics inc_cycles_total d1), O, d0, d1.
    split; [reflexivity|]. split; [exact Hrun1|]. split; [reflexivity|].
    split; [exact Hreg1|]. split.
    + destruct Hc1 as (?&?&?). subst d0. repeat split; cbn in *; congruence.
    + destruct Hm1 as (_&_&_&_&H1&_). subst d0. cbn in *. congruence.
Qed.

(** ** Lifecycle *)

(** C4.  [drain_thread_start] on a drain that is RUNNING returns 0 and
    changes nothing; on a drain that is STOPPING or STOPPED it fails with
    [-EALREADY] (which is not 0); [drain_thread_stop] on an INITIALIZED
    drain returns 0; and a [drain_thread_stop] that follows a
    [drain_thread_stop] that returned returns 0 and changes nothing, in
    particular after a successful stop. *)
Theorem lifecycle_idempotent
    (d : DrainThread) (clock clock' : nat -> N) (create_rc join_rc join_rc' : Z) :
  drain_thread_start create_rc (set_state d DRAIN_STATE_RUNNING)
  = (0%Z, set_state d DRAIN_STATE_RUNNING)
  /\ drain_thread_start create_rc (set_state d DRAIN_STATE_STOPPING)
     = ((- EALREADY)%Z, set_state d DRAIN_STATE_STOPPING)
  /\ drain_thread_start create_rc (set_state d DRAIN_STATE_STOPPED)
     = ((- EALREADY)%Z, set_state d DRAIN_STATE_STOPPED)
  /\ (- EALREADY)%Z <> 0%Z
  /\ drain_thread_stop clock join_rc (set_state d DRAIN_STATE_INITIALIZED)
     = Some (0%Z, set_state d DRAIN_STATE_INITIALIZED)
  /\ match drain_thread_stop clock join_rc d with
     | Some (rc, d1) =>
         drain_thread_stop clock' join_rc' d1 = Some (0%Z, d1)
     | None => True
     end.
Proof.
  repeat split; try discriminate.
  unfold drain_thread_stop at 1.
  destruct (state d) eqn:Hst.
  - (* UNINITIALIZED *)
    destruct (thread_started d) eqn:Hts.
    + destruct (join_rc =? 0)%Z.
      * unfold drain_worker_shutdown.
        destruct (drain_final_pass clock d) as [d2|]; [|exact I].
        reflexivity.
      * unfold drain_thread_stop. cbn. now rewrite Hst.
    + unfold drain_thread_stop. now rewrite Hst, Hts.
  - (* INITIALIZED *)
    unfold drain_thread_stop. now rewrite Hst.
  - (* RUNNING *)
    cbn [set_state thread_started].
    destruct (thread_started d) eqn:Hts.
    + destruct (join_rc =? 0)%Z.
      * unfold drain_worker_shutdown.
        destruct (drain_final_pass clock _) as [d2|]; [|exact I].
        reflexivity.
      * reflexivity.
    + unfold drain_thread_stop. cbn. now rewrite Hts.
  - (* STOPPING *)
    destruct (thread_started d) eqn:Hts.
    + destruct (join_rc =? 0)%Z.
      * unfold drain_worker_shutdown.
        destruct (drain_final_pass clock d) as [d2|]; [|exact I].
        reflexivity.
      * unfold drain_thread_stop. cbn. now rewrite Hst.
    + unfold drain_thread_stop. now rewrite Hst, Hts.
  - (* STOPPED *)
    destruct (thread_started d) eqn:Hts.
    + unfold drain_thread_stop. cbn. now rewrite Hst.
    + unfold drain_thread_stop. now rewrite Hst, Hts.
Qed.

(** A start, a successful stop that drains what was pending, and a second
    stop: both stops return 0 and the second leaves the drain as it was. *)
Lemma stop_twice_after_start :
  let d0 := demo_drain DRAIN_STATE_INITIALIZED 2 8 in
  let d0 := set_thread_started d0 false in
  let '(rc0, d1) := drain_thread_start 0 d0 in
  match drain_thread_stop (fun k => N.of_nat k) 0 d1 with
  | Some (rc1, d2) =>
      rc0 = 0%Z /\ state d1 = DRAIN_STATE_RUNNING
      /\ rc1 = 0%Z /\ state d2 = DRAIN_STATE_STOPPED
      /\ rings_total (metrics d2) = 6
      /\ drain_thread_stop (fun k => N.of_nat k) 0 d2 = Some (0%Z, d2)
      /\ drain_thread_start 0 d2 = ((- EALREADY)%Z, d2)
  | None => False
  end.
Proof. vm_compute. repeat split; reflexivity. Qed.

(** ** The fuel of the two loops is never what stops them *)

Lemma return_ring_to_producer_submit ln r ln' :
  return_ring_to_producer ln r = Some ln' -> submit_q ln' = submit_q ln.
Proof.
  destruct (Nat.lt_ge_cases (length (free_q ln)) (free_capacity ln)) as [H|H].
  - rewrite return_ring_to_producer_room by exact H. now intros [= <-].
  - rewrite return_ring_to_producer_full by exact H. discriminate.
Qed.

Lemma drain_lane_loop_enough fuel1 : forall fuel2 limit processed ln,
  (length (submit_q ln) < fuel1)%nat ->
  (length (submit_q ln) < fuel2)%nat ->
  drain_lane_loop fuel1 limit processed ln
  = drain_lane_loop fuel2 limit processed ln.
Proof.
  induction fuel1 as [|fuel1 IH]; intros fuel2 limit processed ln H1 H2; [lia|].
  destruct fuel2 as [|fuel2]; [lia|]. cbn [drain_lane_loop].
  destruct (processed <? limit); [|reflexivity].
  unfold lane_take_ring. destruct ln as [sub fr cap]. cbn in *.
  destruct sub as [|r rest]; [reflexivity|]. cbn [length] in *.
  destruct (r =? UINT32_MAX); [reflexivity|].
  destruct (return_ring_to_producer _ r) as [ln2|] eqn:Hret; [|reflexivity].
  apply return_ring_to_producer_submit in Hret. cbn in Hret.
  apply IH; rewrite Hret; lia.
Qed.

Lemma drain_lane_loop_pops fuel : forall limit processed ln processed' ln',
  drain_lane_loop fuel limit processed ln = Some (processed', ln') ->
  processed <= processed'
  /\ (length (submit_q ln') + N.to_nat (processed' - processed)
      <= length (submit_q ln))%nat.
Proof.
  induction fuel as [|fuel IH]; intros limit processed ln processed' ln' Hrun;
    [discriminate|].
  cbn [drain_lane_loop] in Hrun.
  destruct (processed <? limit).
  2: { injection Hrun as <- <-. lia. }
  unfold lane_take_ring in Hrun. destruct ln as [sub fr cap]. cbn in *.
  destruct sub as [|r rest].
  { cbn in Hrun. injection Hrun as <- <-. cbn. lia. }
  destruct (r =? UINT32_MAX).
  { injection Hrun as <- <-. cbn. lia. }
  destruct (return_ring_to_producer _ r) as [ln2|] eqn:Hret; [|discriminate].
  apply return_ring_to_producer_submit in Hret. cbn in Hret.
  apply IH in Hrun. rewrite Hret in Hrun. cbn [length]. lia.
Qed.

Lemma drain_lane_pops d slot ln is_detail final_pass processed hit d' ol :
  drain_lane d slot (Some ln) is_detail final_pass
  = Some (processed, hit, d', ol) ->
  exists ln', ol = Some ln'
    /\ (length (submit_q ln') + N.to_nat processed <= length (submit_q ln))%nat
    /\ registry d' = registry d /\ config d' = config d
    /\ state d' = state d.
Proof.
  unfold drain_lane.
  destruct (drain_lane_loop _ _ 0 ln) as [[p ln']|] eqn:Hloop; [|discriminate].
  apply drain_lane_loop_pops in Hloop.
  destruct (N.eqb_spec p 0); intros [= <- <- <- <-]; exists ln';
    repeat split; try reflexivity; lia.
Qed.

Lemma pending_insert (l : list ThreadLaneSet) : forall i x y,
  l !! i = Some x ->
  (lanes_pending y <= lanes_pending x)%nat ->
  (sum_list (lanes_pending <$> <[i:=y]> l)
   + (lanes_pending x - lanes_pending y)
   = sum_list (lanes_pending <$> l))%nat.
Proof.
  induction l as [|z l IH]; intros i x y Hi Hle; [discriminate|].
  destruct i as [|i]; cbn in *.
  - injection Hi as ->. lia.
  - rewrite <- Nat.add_assoc. f_equal. exact (IH i x y Hi Hle).
Qed.

Lemma drain_cycle_slot_pops d reg slot final_pass work work' d' :
  registry d = Some reg ->
  drain_cycle_slot d slot final_pass work = Some (work', d') ->
  exists reg', registry d' = Some reg'
    /\ config d' = config d /\ state d' = state d
    /\ (registry_pending reg' <= registry_pending reg)%nat
    /\ (work' = true ->
        work = true \/ (registry_pending reg' < registry_pending reg)%nat).
Proof.
  intros Hreg. unfold drain_cycle_slot. rewrite Hreg.
  unfold thread_registry_get_thread_at.
  destruct (slots reg !! N.to_nat slot) as [lanes|] eqn:Hl.
  2: { intros [= <- <-]. exists reg. repeat split; auto. }
  destruct (active lanes).
  2: { intros [= <- <-]. exists reg. repeat split; auto. }
  unfold thread_lanes_get_index_lane, thread_lanes_get_detail_lane.
  destruct (drain_lane d slot _ false final_pass) as [[[[p1 h1] d1] il]|] eqn:H1;
    [|discriminate].
  apply drain_lane_pops in H1 as (il' & -> & Hp1 & Hr1 & Hc1 & Hs1).
  destruct (drain_lane _ slot _ true final_pass) as [[[[p2 h2] d3] dl]|] eqn:H2;
    [|discriminate].
  apply drain_lane_pops in H2 as (dl' & -> & Hp2 & Hr2 & Hc2 & Hs2).
  intros [= <- <-]. eexists. split; [reflexivity|].
  cbn [default from_option store_lanes slots].
  set (lanes' := mk_lanes _ _ il' dl').
  assert (Hle : (lanes_pending lanes' + N.to_nat p1 + N.to_nat p2
                 <= lanes_pending lanes)%nat).
  { unfold lanes_pending, lanes'. cbn. lia. }
  pose proof (pending_insert (slots reg) (N.to_nat slot) lanes lanes' Hl
                ltac:(lia)) as Hsum.
  unfold registry_pending, store_lanes. cbn [slots].
  assert (Hcfg : forall (b : bool) (x : DrainThread),
             config (if b then add_fairness_switch x else x) = config x)
    by (intros []; reflexivity).
  assert (Hstt : forall (b : bool) (x : DrainThread),
             state (if b then add_fairness_switch x else x) = state x)
    by (intros []; reflexivity).
  split; [|split; [|split]].
  - cbn. rewrite Hcfg, Hc2, Hcfg. exact Hc1.
  - cbn. rewrite Hstt, Hs2, Hstt. exact Hs1.
  - lia.
  - intros Hw. destruct (N.ltb_spec 0 p2); [right; lia|].
    destruct (N.ltb_spec 0 p1); [right; lia|]. now left.
Qed.

Lemma drain_cycle_loop_pops n : forall offset start capacity final_pass work d reg work' d',
  registry d = Some reg ->
  drain_cycle_loop n offset start capacity final_pass work d = Some (work', d') ->
  exists reg', registry d' = Some reg'
    /\ config d' = config d /\ state d' = state d
    /\ (registry_pending reg' <= registry_pending reg)%nat
    /\ (work' = true ->
        work = true \/ (registry_pending reg' < registry_pending reg)%nat).
Proof.
  induction n as [|n IH]; intros offset start capacity final_pass work d reg
    work' d' Hreg Hrun; cbn [drain_cycle_loop] in Hrun.
  - injection Hrun as <- <-. exists reg. repeat split; auto.
  - destruct (drain_cycle_slot d _ final_pass work) as [[w1 d1]|] eqn:H1;
      [|discriminate].
    destruct (drain_cycle_slot_pops _ _ _ _ _ _ _ Hreg H1)
      as (reg1 & Hreg1 & Hc1 & Hs1 & Hle1 & Hw1).
    destruct (IH _ _ _ _ _ _ _ _ _ Hreg1 Hrun)
      as (reg' & Hreg' & Hc' & Hs' & Hle' & Hw').
    exists reg'. split; [exact Hreg'|]. split; [congruence|].
    split; [congruence|]. split; [lia|].
    intros Hw. destruct (Hw' Hw) as [Hw1'|Hlt]; [|right; lia].
    destruct (Hw1 Hw1'); [now left|right; lia].
Qed.

Lemma drain_cycle_pops now d final_pass work d' :
  drain_cycle now d final_pass = Some (work, d') ->
  (pending_rings d' <= pending_rings d)%nat
  /\ (work = true -> (pending_rings d' < pending_rings d)%nat).
Proof.
  unfold drain_cycle, pending_rings.
  destruct (registry d) as [reg|] eqn:Hreg.
  2: { intros [= <- <-]. rewrite Hreg. split; [lia|discriminate]. }
  destruct (_ =? 0).
  { intros [= <- <-]. rewrite Hreg. split; [lia|discriminate]. }
  destruct (drain_cycle_loop _ _ _ _ _ _ d) as [[w d1]|] eqn:Hloop;
    [|discriminate].
  destruct (drain_cycle_loop_pops _ _ _ _ _ _ _ _ _ _ Hreg Hloop)
    as (reg' & Hreg' & _ & _ & Hle & Hw).
  intros [= <- <-]. cbn [registry]. rewrite Hreg'.
  fold (registry_pending reg') (registry_pending reg). split; [exact Hle|].
  intros Hwork. destruct (Hw Hwork); [discriminate|assumption].
Qed.

(** Any fuel above the number of pending rings gives the final pass the
    same outcome: [None] stands for a spinning [return_ring_to_producer]
    alone. *)
Lemma final_pass_loop_enough fuel1 : forall fuel2 clock k d,
  (pending_rings d < fuel1)%nat ->
  (pending_rings d < fuel2)%nat ->
  final_pass_loop fuel1 clock k d = final_pass_loop fuel2 clock k d.
Proof.
  induction fuel1 as [|fuel1 IH]; intros fuel2 clock k d H1 H2; [lia|].
  destruct fuel2 as [|fuel2]; [lia|]. cbn [final_pass_loop].
  destruct (drain_cycle (clock k) d true) as [[had d1]|] eqn:Hc; [|reflexivity].
  destruct had; [|reflexivity].
  apply drain_cycle_pops in Hc as [_ Hlt]. specialize (Hlt eq_refl).
  apply IH; unfold pending_rings, upd_metrics in *; cbn; lia.
Qed.

(** ** The effective limit and progress of a lane drain *)

Lemma compute_effective_limit_pos d final_pass :
  compute_effective_limit d final_pass <> 0.
Proof.
  unfold compute_effective_limit, UINT32_MAX.
  destruct final_pass; [discriminate|].
  destruct (N.eqb_spec (max_batch_size (config d)) 0) as [Hb|Hb].
  - destruct (N.eqb_spec (fairness_quantum (config d)) 0); [discriminate|assumption].
  - destruct (N.ltb_spec 0 (fairness_quantum (config d)));
      destruct (N.ltb_spec (fairness_quantum (config d)) (max_batch_size (config d)));
      cbn [andb].
    + destruct (N.eqb_spec (fairness_quantum (config d)) 0); [discriminate|assumption].
    + destruct (N.eqb_spec (max_batch_size (config d)) 0); [discriminate|assumption].
    + destruct (N.eqb_spec (max_batch_size (config d)) 0); [discriminate|assumption].
    + destruct (N.eqb_spec (max_batch_size (config d)) 0); [discriminate|assumption].
Qed.




(** ** A ring is never dropped *)

(** X15.  [return_ring_to_producer] never gives up a ring: it returns, with
    the ring at the tail of the free queue, exactly when that queue has
    room, and spins forever otherwise.  Hence [drain_lane] on a lane whose
    free queue is full and whose submit queue holds a ring never returns,
    instead of dropping the ring it took. *)
Theorem full_free_queue_blocks_the_drain (ln : Lane) (r : N) :
  return_ring_to_producer ln r
  = (if Nat.ltb (length (free_q ln)) (free_capacity ln)
     then Some (mk_lane (submit_q ln) (free_q ln ++ [r]) (free_capacity ln))
     else None)
  /\ (forall d slot rest is_detail final_pass,
        (free_capacity ln <= length (free_q ln))%nat ->
        submit_q ln = r :: rest ->
        r <> UINT32_MAX ->
        drain_lane d slot (Some ln) is_detail final_pass = None).
Proof.
  split.
  - destruct (Nat.ltb_spec (length (free_q ln)) (free_capacity ln)) as [H|H].
    + apply return_ring_to_producer_room, H.
    + apply return_ring_to_producer_full, H.
  - intros d slot rest is_detail final_pass Hfull Hsub Hr.
    unfold drain_lane. rewrite Hsub. cbn [length drain_lane_loop].
    pose proof (compute_effective_limit_pos d final_pass) as Hpos.
    destruct (N.ltb_spec 0 (compute_effective_limit d final_pass)); [|lia].
    unfold lane_take_ring. rewrite Hsub.
    destruct (N.eqb_spec r UINT32_MAX); [contradiction|].
    rewrite return_ring_to_producer_full by exact Hfull. reflexivity.
Qed.


(** ** Ring counters follow the free queues *)

Lemma counter_add_0 x : counter_add x 0 = x.
Proof. reflexivity. Qed.

Lemma counter_add_from_0 a : counter_add 0 a = wrap64 a.
Proof.
  unfold counter_add. destruct (N.eqb_spec a 0) as [->|_]; reflexivity.
Qed.

Lemma counter_add_add x a b :
  counter_add (counter_add x a) b = counter_add x (a + b).
Proof.
  unfold counter_add.
  destruct (N.eqb_spec a 0) as [->|Ha]; [now rewrite N.add_0_l|].
  destruct (N.eqb_spec b 0) as [->|Hb].
  - rewrite N.add_0_r. destruct (N.eqb_spec a 0); [contradiction|reflexivity].
  - destruct (N.eqb_spec (a + b) 0); [lia|].
    rewrite wrap64_add_l. f_equal. lia.
Qed.

Lemma return_ring_to_producer_free ln r ln' :
  return_ring_to_producer ln r = Some ln' -> free_q ln' = free_q ln ++ [r].
Proof.
  destruct (Nat.lt_ge_cases (length (free_q ln)) (free_capacity ln)) as [H|H].
  - rewrite return_ring_to_producer_room by exact H. now intros [= <-].
  - rewrite return_ring_to_producer_full by exact H. discriminate.
Qed.

Lemma drain_lane_loop_frees fuel : forall limit processed ln processed' ln',
  drain_lane_loop fuel limit processed ln = Some (processed', ln') ->
  processed <= processed'
  /\ length (free_q ln')
     = (length (free_q ln) + N.to_nat (processed' - processed))%nat.
Proof.
  induction fuel as [|fuel IH]; intros limit processed ln processed' ln' Hrun;
    [discriminate|].
  cbn [drain_lane_loop] in Hrun.
  destruct (processed <? limit).
  2: { injection Hrun as <- <-. split; [lia|]. rewrite N.sub_diag. cbn. lia. }
  unfold lane_take_ring in Hrun. destruct ln as [sub fr cap]. cbn in *.
  destruct sub as [|r rest].
  { cbn in Hrun. injection Hrun as <- <-. cbn. split; [lia|].
    rewrite N.sub_diag. cbn. lia. }
  destruct (r =? UINT32_MAX).
  { injection Hrun as <- <-. cbn. split; [lia|]. rewrite N.sub_diag. cbn. lia. }
  destruct (return_ring_to_producer _ r) as [ln2|] eqn:Hret; [|discriminate].
  apply return_ring_to_producer_free in Hret. cbn in Hret.
  apply IH in Hrun. rewrite Hret, length_app in Hrun. cbn [length] in Hrun.
  lia.
Qed.

Lemma drain_lane_frees d slot ln is_detail final_pass processed hit d' ol :
  drain_lane d slot (Some ln) is_detail final_pass
  = Some (processed, hit, d', ol) ->
  exists ln', ol = Some ln'
    /\ length (free_q ln') = (length (free_q ln) + N.to_nat processed)%nat
    /\ d' = (if processed =? 0 then d
             else set_metrics d (add_ring_metrics (metrics d) slot is_detail
                                   processed)).
Proof.
  unfold drain_lane.
  destruct (drain_lane_loop _ _ 0 ln) as [[p ln']|] eqn:Hloop; [|discriminate].
  apply drain_lane_loop_frees in Hloop. rewrite N.sub_0_r in Hloop.
  destruct (N.eqb_spec p 0) as [->|Hp]; intros [= <- <- <- <-]; exists ln'.
  - split; [reflexivity|]. split; [apply Hloop|reflexivity].
  - destruct (N.eqb_spec p 0); [contradiction|].
    split; [reflexivity|]. split; [apply Hloop|reflexivity].
Qed.

Lemma sum_list_with_insert {A} (f : A -> nat) (l : list A) : forall i x y,
  l !! i = Some x ->
  (sum_list_with f (<[i:=y]> l) + f x = sum_list_with f l + f y)%nat.
Proof.
  induction l as [|z l IH]; intros i x y Hi; [discriminate|].
  destruct i as [|i].
  - injection Hi as ->.
    change (f y + sum_list_with f l + f x = f x + sum_list_with f l + f y)%nat.
    lia.
  - change (f z + sum_list_with f (<[i:=y]> l) + f x
            = f z + sum_list_with f l + f y)%nat.
    specialize (IH i x y Hi). lia.
Qed.

Lemma lane_step_rings d slot is_detail hit p :
  let d' := lane_step d slot is_detail hit p in
  registry d' = registry d
  /\ rings_total (metrics d') = counter_add (rings_total (metrics d)) p
  /\ rings_index (metrics d')
     = counter_add (rings_index (metrics d)) (if is_detail then 0 else p)
  /\ rings_detail (metrics d')
     = counter_add (rings_detail (metrics d)) (if is_detail then p else 0).
Proof.
  unfold lane_step, counter_add.
  destruct (N.eqb_spec p 0) as [->|Hp].
  - destruct hit, is_detail; cbn; repeat split; reflexivity.
  - destruct hit, is_detail; cbn; repeat split; try reflexivity;
      destruct (N.eqb_spec p 0); try contradiction; reflexivity.
Qed.


Lemma sum_N_alter_mod (g : N * N -> N) (f : N * N -> N * N) (p : N)
    (l : list (N * N)) : forall i,
  (i < length l)%nat ->
  (forall x, wrap64 (g (f x)) = wrap64 (g x + p)) ->
  wrap64 (sum_N (g <$> alter f i l)) = wrap64 (sum_N (g <$> l) + p).
Proof.
  induction l as [|x l IH]; intros i Hi Hf; [cbn in Hi; lia|].
  destruct i as [|i].
  - change (wrap64 (g (f x) + sum_N (g <$> l))
            = wrap64 (g x + sum_N (g <$> l) + p)).
    rewrite <- wrap64_add_l, Hf, wrap64_add_l. f_equal. lia.
  - change (wrap64 (g x + sum_N (g <$> alter f i l))
            = wrap64 (g x + sum_N (g <$> l) + p)).
    cbn [length] in Hi.
    rewrite <- wrap64_add_r, (IH i ltac:(lia) Hf), wrap64_add_r.
    f_equal. lia.
Qed.

Lemma add_ring_metrics_agree m slot is_detail p :
  slot < MAX_THREADS ->
  counters_agree m -> counters_agree (add_ring_metrics m slot is_detail p).
Proof.
  intros Hslot (Hlen & Htot & Hsum). unfold counters_agree, add_ring_metrics.
  destruct (N.ltb_spec slot MAX_THREADS); [|lia].
  cbn [per_thread_rings rings_total rings_index rings_detail].
  unfold per_thread_add. split; [|split].
  - rewrite length_alter. exact Hlen.
  - rewrite Htot, wrap64_add_l. destruct is_detail.
    + rewrite wrap64_add_r. f_equal. lia.
    + rewrite wrap64_add_l. f_equal. lia.
  - rewrite sum_N_alter_mod with (p := p).
    + rewrite <- Hsum, wrap64_add_l. reflexivity.
    + rewrite Hlen. lia.
    + intros [a b]. destruct is_detail; cbn [fst snd].
      * rewrite wrap64_add_r. f_equal. lia.
      * rewrite wrap64_add_l. f_equal. lia.
Qed.

Lemma lane_step_agree d slot is_detail hit p :
  slot < MAX_THREADS ->
  counters_agree (metrics d) ->
  counters_agree (metrics (lane_step d slot is_detail hit p)).
Proof.
  intros Hslot H. unfold lane_step.
  assert (H1 : counters_agree
                 (metrics (if p =? 0 then d
                           else set_metrics d
                                  (add_ring_metrics (metrics d) slot is_detail p)))).
  { destruct (p =? 0); [exact H|]. apply add_ring_metrics_agree; assumption. }
  destruct hit; [|exact H1]. exact H1.
Qed.

Lemma rings_counted_refl m reg : rings_counted m reg m reg.
Proof.
  unfold rings_counted. rewrite !Nat.sub_diag. cbn.
  repeat split; reflexivity || lia.
Qed.

Lemma rings_counted_trans m1 r1 m2 r2 m3 r3 :
  rings_counted m1 r1 m2 r2 -> rings_counted m2 r2 m3 r3 ->
  rings_counted m1 r1 m3 r3.
Proof.
  intros (Hi1 & Hd1 & Ei1 & Ed1 & Et1) (Hi2 & Hd2 & Ei2 & Ed2 & Et2).
  unfold rings_counted. split; [lia|]. split; [lia|].
  rewrite Ei2, Ed2, Et2, Ei1, Ed1, Et1, !counter_add_add.
  repeat split; f_equal; lia.
Qed.

Lemma drain_cycle_slot_counts d reg slot final_pass work work' d' :
  registry d = Some reg ->
  drain_cycle_slot d slot final_pass work = Some (work', d') ->
  exists reg', registry d' = Some reg'
    /\ length (slots reg') = length (slots reg)
    /\ rings_counted (metrics d) reg (metrics d') reg'
    /\ (slot < MAX_THREADS -> counters_agree (metrics d) ->
        counters_agree (metrics d')).
Proof.
  intros Hreg. unfold drain_cycle_slot. rewrite Hreg.
  unfold thread_registry_get_thread_at.
  destruct (slots reg !! N.to_nat slot) as [lanes|] eqn:Hl.
  2: { intros [= <- <-]. exists reg. split; [exact Hreg|].
       split; [reflexivity|]. split; [apply rings_counted_refl|auto]. }
  destruct (active lanes).
  2: { intros [= <- <-]. exists reg. split; [exact Hreg|].
       split; [reflexivity|]. split; [apply rings_counted_refl|auto]. }
  unfold thread_lanes_get_index_lane, thread_lanes_get_detail_lane.
  destruct (drain_lane d slot _ false final_pass) as [[[[p1 h1] d1] il]|] eqn:H1;
    [|discriminate].
  apply drain_lane_frees in H1 as (il' & -> & Hf1 & Hd1).
  set (d2 := if h1 then add_fairness_switch d1 else d1).
  assert (Hd2 : d2 = lane_step d slot false h1 p1)
    by (subst d2 d1; reflexivity).
  destruct (drain_lane d2 slot _ true final_pass) as [[[[p2 h2] d3] dl]|] eqn:H2;
    [|discriminate].
  apply drain_lane_frees in H2 as (dl' & -> & Hf2 & Hd3).
  set (d4 := if h2 then add_fairness_switch d3 else d3).
  assert (Hd4 : d4 = lane_step d2 slot true h2 p2)
    by (subst d4 d3; reflexivity).
  intros [= <- <-]. eexists. split; [reflexivity|].
  cbn [default from_option store_lanes slots set_registry metrics].
  set (lanes' := mk_lanes _ _ il' dl').
  pose proof (lane_step_rings d slot false h1 p1) as (_ & Et2 & Ei2 & Ed2).
  pose proof (lane_step_rings d2 slot true h2 p2) as (_ & Et4 & Ei4 & Ed4).
  cbv zeta in *. rewrite <- Hd2 in Et2, Ei2, Ed2. rewrite <- Hd4 in Et4, Ei4, Ed4.
  pose proof (sum_list_with_insert
                (fun x => length (free_q (index_lane x))) (slots reg)
                (N.to_nat slot) lanes lanes' Hl) as Hsi.
  pose proof (sum_list_with_insert
                (fun x => length (free_q (detail_lane x))) (slots reg)
                (N.to_nat slot) lanes lanes' Hl) as Hsd.
  cbn beta in Hsi, Hsd. subst lanes'. cbn [index_lane detail_lane] in Hsi, Hsd.
  split; [apply length_insert|]. split.
  - unfold rings_counted, freed_index, freed_detail, store_lanes. cbn [slots].
    split; [lia|]. split; [lia|].
    rewrite Ei4, Ed4, Et4, Ei2, Ed2, Et2, !counter_add_add.
    repeat split; f_equal; lia.
  - intros Hslot Hag. rewrite Hd4. apply lane_step_agree; [exact Hslot|].
    rewrite Hd2. apply lane_step_agree; assumption.
Qed.


Lemma ring_step_refl d reg : registry d = Some reg -> ring_step d d.
Proof.
  intros H. exists reg, reg. split; [exact H|]. split; [exact H|].
  split; [reflexivity|]. split; [apply rings_counted_refl|auto].
Qed.

Lemma ring_step_trans d1 d2 d3 :
  ring_step d1 d2 -> ring_step d2 d3 -> ring_step d1 d3.
Proof.
  intros (r1 & r2 & H1 & H2 & Hl12 & Hc12 & Ha12)
         (r2' & r3 & H2' & H3 & Hl23 & Hc23 & Ha23).
  assert (r2' = r2) by congruence. subst r2'.
  exists r1, r3. split; [exact H1|]. split; [exact H3|].
  split; [congruence|]. split; [eapply rings_counted_trans; eassumption|].
  intros Hcap Hag. apply Ha23; [lia|]. apply Ha12; assumption.
Qed.

Lemma same_rings_step d d' reg :
  registry d = Some reg -> same_rings d d' -> ring_step d d'.
Proof.
  intros Hreg (Hr & Ht & Hi & Hd & Hp). exists reg, reg.
  split; [exact Hreg|]. split; [congruence|]. split; [reflexivity|]. split.
  - unfold rings_counted. rewrite !Nat.sub_diag. cbn.
    repeat split; lia || assumption.
  - intros _ (Hlen & Htot & Hsum). unfold counters_agree.
    rewrite Hp, Ht, Hi, Hd. repeat split; assumption.
Qed.

Lemma same_rings_upd f d :
  (forall m, rings_total (f m) = rings_total m
             /\ rings_index (f m) = rings_index m
             /\ rings_detail (f m) = rings_detail m
             /\ per_thread_rings (f m) = per_thread_rings m) ->
  same_rings d (upd_metrics f d).
Proof.
  intros Hf. destruct (Hf (metrics d)) as (?&?&?&?).
  unfold same_rings, upd_metrics. cbn. repeat split; assumption.
Qed.

Lemma drain_cycle_loop_counts n :
  forall offset start capacity final_pass work d reg work' d',
  registry d = Some reg ->
  capacity <> 0 ->
  drain_cycle_loop n offset start capacity final_pass work d = Some (work', d') ->
  exists reg', registry d' = Some reg'
    /\ length (slots reg') = length (slots reg)
    /\ rings_counted (metrics d) reg (metrics d') reg'
    /\ (capacity <= MAX_THREADS -> counters_agree (metrics d) ->
        counters_agree (metrics d')).
Proof.
  induction n as [|n IH]; intros offset start capacity final_pass work d reg
    work' d' Hreg Hcap Hrun; cbn [drain_cycle_loop] in Hrun.
  - injection Hrun as <- <-. exists reg. split; [exact Hreg|].
    split; [reflexivity|]. split; [apply rings_counted_refl|auto].
  - destruct (drain_cycle_slot d _ final_pass work) as [[w1 d1]|] eqn:H1;
      [|discriminate].
    destruct (drain_cycle_slot_counts _ _ _ _ _ _ _ Hreg H1)
      as (reg1 & Hreg1 & Hl1 & Hc1 & Ha1).
    destruct (IH _ _ _ _ _ _ _ _ _ Hreg1 Hcap Hrun)
      as (reg' & Hreg' & Hl' & Hc' & Ha').
    exists reg'. split; [exact Hreg'|]. split; [congruence|].
    split; [eapply rings_counted_trans; eassumption|].
    intros Hmax Hag. apply Ha'; [exact Hmax|]. apply Ha1; [|exact Hag].
    pose proof (N.mod_lt (wrap32 (start + offset)) capacity Hcap). lia.
Qed.

Lemma drain_lane_started d slot lane is_detail final_pass p h d' o :
  drain_lane d slot lane is_detail final_pass = Some (p, h, d', o) ->
  thread_started d' = thread_started d.
Proof.
  unfold drain_lane. destruct lane as [ln|]; [|now intros [= <- <- <- <-]].
  destruct (drain_lane_loop _ _ _ _) as [[q ln']|]; [|discriminate].
  destruct (q =? 0); now intros [= <- <- <- <-].
Qed.

Lemma drain_cycle_slot_started d slot final_pass work work' d' :
  drain_cycle_slot d slot final_pass work = Some (work', d') ->
  thread_started d' = thread_started d.
Proof.
  unfold drain_cycle_slot.
  destruct (registry d) as [r|]; [|now intros [= <- <-]].
  destruct (thread_registry_get_thread_at r _); [|now intros [= <- <-]].
  destruct (drain_lane d _ _ false final_pass) as [[[[p1 h1] d1] il]|] eqn:E1;
    [|discriminate].
  destruct (drain_lane _ _ _ true final_pass) as [[[[p2 h2] d3] dl]|] eqn:E2;
    [|discriminate].
  intros [= <- <-]. cbn [set_registry thread_started].
  assert (Hts : forall (b : bool) (x : DrainThread),
             thread_started (if b then add_fairness_switch x else x)
             = thread_started x) by (intros []; reflexivity).
  rewrite Hts, (drain_lane_started _ _ _ _ _ _ _ _ _ E2), Hts.
  exact (drain_lane_started _ _ _ _ _ _ _ _ _ E1).
Qed.

Lemma drain_cycle_loop_started n :
  forall offset start capacity final_pass work d work' d',
  drain_cycle_loop n offset start capacity final_pass work d = Some (work', d') ->
  thread_started d' = thread_started d.
Proof.
  induction n as [|n IH]; intros offset start capacity final_pass work d
    work' d' Hrun; cbn [drain_cycle_loop] in Hrun.
  - now injection Hrun as <- <-.
  - destruct (drain_cycle_slot d _ final_pass work) as [[w1 d1]|] eqn:H1;
      [|discriminate].
    rewrite (IH _ _ _ _ _ _ _ _ Hrun).
    exact (drain_cycle_slot_started _ _ _ _ _ _ H1).
Qed.

Lemma drain_cycle_counts now d reg final_pass work d' :
  registry d = Some reg ->
  drain_cycle now d final_pass = Some (work, d') ->
  ring_step d d'
  /\ config d' = config d /\ state d' = state d
  /\ thread_started d' = thread_started d.
Proof.
  intros Hreg. unfold drain_cycle. rewrite Hreg.
  destruct (N.eqb_spec (thread_registry_get_capacity reg) 0) as [Hz|Hnz].
  { intros [= <- <-]. split; [eapply ring_step_refl; eassumption|]. auto. }
  destruct (drain_cycle_loop _ _ _ _ _ _ d) as [[w d1]|] eqn:Hloop;
    [|discriminate].
  destruct (drain_cycle_loop_counts _ _ _ _ _ _ _ _ _ _ Hreg Hnz Hloop)
    as (reg' & Hreg' & Hl & Hc & Ha).
  destruct (drain_cycle_loop_pops _ _ _ _ _ _ _ _ _ _ Hreg Hloop)
    as (reg'' & _ & Hcfg & Hst & _).
  pose proof (drain_cycle_loop_started _ _ _ _ _ _ _ _ _ Hloop) as Hts.
  intros [= <- <-]. cbn [config state thread_started].
  split; [|split; [exact Hcfg|split; [exact Hst|exact Hts]]].
  exists reg, reg'. cbn [registry metrics].
  split; [exact Hreg|]. split; [exact Hreg'|]. split; [exact Hl|].
  split; [exact Hc|]. intros Hmax. apply Ha.
  unfold thread_registry_get_capacity, MAX_THREADS in *. lia.
Qed.


Lemma ring_step_upd f d d' :
  (forall m, rings_total (f m) = rings_total m
             /\ rings_index (f m) = rings_index m
             /\ rings_detail (f m) = rings_detail m
             /\ per_thread_rings (f m) = per_thread_rings m) ->
  ring_step d d' -> ring_step d (upd_metrics f d').
Proof.
  intros Hf Hstep. eapply ring_step_trans; [exact Hstep|].
  destruct Hstep as (r & r' & _ & Hr' & _).
  eapply same_rings_step; [exact Hr'|]. apply same_rings_upd, Hf.
Qed.

Ltac keeps_rings := intros ?; repeat split; reflexivity.

Lemma drain_worker_iteration_counts now d reg d' :
  registry d = Some reg ->
  drain_worker_iteration now d = Some d' ->
  ring_step d d'
  /\ config d' = config d /\ state d' = state d
  /\ thread_started d' = thread_started d.
Proof.
  intros Hreg. unfold drain_worker_iteration.
  destruct (drain_cycle now d false) as [[work d1]|] eqn:Hc; [|discriminate].
  destruct (drain_cycle_counts _ _ _ _ _ _ Hreg Hc) as (Hs & Hcfg & Hst & Hts).
  assert (H2 : ring_step d (upd_metrics inc_cycles_total d1))
    by (apply ring_step_upd; [keeps_rings|exact Hs]).
  destruct work; [intros [= <-]; cbn; auto|].
  assert (H3 : ring_step d (upd_metrics inc_cycles_idle
                              (upd_metrics inc_cycles_total d1)))
    by (apply ring_step_upd; [keeps_rings|exact H2]).
  cbn [config upd_metrics set_metrics].
  destruct (yield_on_idle (config d1)).
  { intros [= <-]. split; [apply ring_step_upd; [keeps_rings|exact H3]|].
    cbn. auto. }
  destruct (0 <? poll_interval_us (config d1)).
  { intros [= <-]. split; [apply ring_step_upd; [keeps_rings|exact H3]|].
    cbn. auto. }
  intros [= <-]. split; [exact H3|]. cbn. auto.
Qed.

Lemma drain_worker_loop_counts n : forall clock k d reg d',
  registry d = Some reg ->
  drain_worker_loop n clock k d = Some d' ->
  ring_step d d'
  /\ config d' = config d /\ state d' = state d
  /\ thread_started d' = thread_started d.
Proof.
  induction n as [|n IH]; intros clock k d reg d' Hreg Hrun;
    cbn [drain_worker_loop] in Hrun.
  - injection Hrun as <-. split; [eapply ring_step_refl; eassumption|auto].
  - destruct (state d) eqn:Hst;
      try (injection Hrun as <-;
           split; [eapply ring_step_refl; eassumption|auto]).
    destruct (drain_worker_iteration (clock k) d) as [d1|] eqn:Hit;
      [|discriminate].
    destruct (drain_worker_iteration_counts _ _ _ _ Hreg Hit)
      as (Hs1 & Hc1 & Hst1 & Ht1).
    destruct Hs1 as (r & r1 & Hr & Hr1 & Hrest).
    destruct (IH _ _ _ _ _ Hr1 Hrun) as (Hs' & Hc' & Hst' & Ht').
    split; [|split; [congruence|split; congruence]].
    eapply ring_step_trans; [|exact Hs'].
    exists r, r1. split; [exact Hr|]. split; [exact Hr1|exact Hrest].
Qed.

Lemma final_pass_loop_counts fuel : forall clock k d reg d',
  registry d = Some reg ->
  final_pass_loop fuel clock k d = Some d' ->
  ring_step d d'
  /\ config d' = config d /\ state d' = state d
  /\ thread_started d' = thread_started d.
Proof.
  induction fuel as [|fuel IH]; intros clock k d reg d' Hreg Hrun;
    [discriminate|]. cbn [final_pass_loop] in Hrun.
  destruct (drain_cycle (clock k) d true) as [[had d1]|] eqn:Hc; [|discriminate].
  destruct (drain_cycle_counts _ _ _ _ _ _ Hreg Hc) as (Hs & Hcfg & Hst & Hts).
  assert (H2 : ring_step d (upd_metrics inc_cycles_total d1))
    by (apply ring_step_upd; [keeps_rings|exact Hs]).
  destruct had; [|injection Hrun as <-; cbn; auto].
  destruct H2 as (r & r1 & Hr & Hr1 & Hrest).
  destruct (IH _ _ _ _ _ Hr1 Hrun) as (Hs' & Hc' & Hst' & Ht').
  cbn in Hc', Hst', Ht'.
  split; [|split; [congruence|split; congruence]].
  eapply ring_step_trans; [|exact Hs'].
  exists r, r1. split; [exact Hr|]. split; [exact Hr1|exact Hrest].
Qed.

Lemma drain_final_pass_counts clock d reg d' :
  registry d = Some reg ->
  drain_final_pass clock d = Some d' ->
  ring_step d d'.
Proof.
  intros Hreg. unfold drain_final_pass. intros Hrun.
  apply (final_pass_loop_counts _ _ _ _ reg) in Hrun as (Hs & _); [|exact Hreg].
  eapply ring_step_trans; [|exact Hs].
  eapply same_rings_step; [exact Hreg|]. apply same_rings_upd. keeps_rings.
Qed.

Lemma drain_thread_stop_counts clock join_rc d reg rc d' :
  registry d = Some reg ->
  drain_thread_stop clock join_rc d = Some (rc, d') ->
  ring_step d d'.
Proof.
  intros Hreg. unfold drain_thread_stop.
  assert (Hrefl : forall x, same_rings d x -> ring_step d x)
    by (intros x; apply (same_rings_step d x reg Hreg)).
  assert (Hsr : forall x, x = d \/ x = set_state d DRAIN_STATE_STOPPING ->
            forall rc' y,
              (if thread_started x
               then if (join_rc =? 0)%Z
                    then match drain_worker_shutdown clock x with
                         | None => None
                         | Some d2 => Some (0%Z, set_thread_started d2 false)
                         end
                    else Some (join_rc, set_thread_started x false)
               else Some (0%Z, x)) = Some (rc', y) -> ring_step d y).
  { intros x Hx rc' y.
    assert (Hdx : same_rings d x)
      by (destruct Hx as [->| ->]; repeat split; reflexivity).
    destruct (thread_started x).
    2: { intros [= <- <-]. apply Hrefl, Hdx. }
    destruct (join_rc =? 0)%Z.
    2: { intros [= <- <-]. apply Hrefl.
         destruct Hdx as (?&?&?&?&?). repeat split; assumption. }
    unfold drain_worker_shutdown.
    destruct (drain_final_pass clock x) as [d1|] eqn:Hfp; [|discriminate].
    intros [= <- <-].
    assert (Hrx : registry x = Some reg)
      by (destruct Hx as [->| ->]; exact Hreg).
    pose proof (drain_final_pass_counts _ _ _ _ Hrx Hfp) as Hs.
    eapply ring_step_trans; [apply Hrefl, Hdx|].
    eapply ring_step_trans; [exact Hs|].
    destruct Hs as (r & r1 & _ & Hr1 & _).
    eapply same_rings_step; [exact Hr1|]. repeat split; reflexivity. }
  destruct (state d) eqn:Hst.
  - apply Hsr. now left.
  - intros [= <- <-]. apply Hrefl. repeat split; reflexivity.
  - apply Hsr. now right.
  - apply Hsr. now left.
  - destruct (thread_started d); intros [= <- <-]; apply Hrefl;
      repeat split; reflexivity.
Qed.


(** ** Closed forms over a well-formed registry *)

Lemma drained_drained a b ln :
  drained b (drained a ln) = drained (a + b) ln.
Proof.
  unfold drained. cbn [submit_q free_q free_capacity]. f_equal.
  - rewrite drop_drop. reflexivity.
  - rewrite <- app_assoc. f_equal. apply take_take_drop.
Qed.

Lemma quota_drained limit m ln :
  (quota m ln + quota limit (drained (quota m ln) ln))%nat
  = quota (m + limit) ln.
Proof.
  unfold quota, drained. cbn [submit_q]. rewrite length_drop. lia.
Qed.

Lemma cycle_lanes_batches limit n lanes :
  cycle_lanes limit (batches limit n lanes) = batches limit (S n) lanes.
Proof.
  unfold cycle_lanes, batches. destruct (active lanes) eqn:Ha; cbn [active].
  2: { rewrite Ha. reflexivity. }
  cbn [thread_id index_lane detail_lane]. rewrite !drained_drained.
  rewrite !quota_drained.
  replace (N.of_nat n * limit + limit) with (N.of_nat (S n) * limit) by lia.
  reflexivity.
Qed.

Lemma batches_cycle_lanes limit n lanes :
  batches limit n (cycle_lanes limit lanes) = batches limit (S n) lanes.
Proof.
  unfold cycle_lanes, batches. destruct (active lanes) eqn:Ha; cbn [active].
  2: { rewrite Ha. reflexivity. }
  cbn [thread_id index_lane detail_lane]. rewrite !drained_drained.
  rewrite !quota_drained.
  replace (limit + N.of_nat n * limit) with (N.of_nat (S n) * limit) by lia.
  reflexivity.
Qed.

Lemma batches_0 limit lanes : batches limit 0 lanes = lanes.
Proof.
  unfold batches. destruct lanes as [tid act il dl]. cbn.
  destruct act; [|reflexivity].
  unfold quota. cbn. rewrite !drained_0. reflexivity.
Qed.

Lemma batches_wf limit n lanes :
  (active lanes = true -> lanes_wf lanes) ->
  active (batches limit n lanes) = true -> lanes_wf (batches limit n lanes).
Proof.
  unfold batches. destruct (active lanes) eqn:Ha; [|congruence].
  intros H _. destruct (H eq_refl). split; cbn; now apply drained_wf.
Qed.

Lemma batches_registry_wf limit n reg :
  registry_wf reg -> registry_wf (mk_registry (batches limit n <$> slots reg)).
Proof.
  intros [Hcap Hwf]. split; cbn [slots].
  - now rewrite length_fmap.
  - rewrite Forall_fmap. eapply Forall_impl; [exact Hwf|].
    intros lanes H. cbn beta in *. intros Ha. now apply batches_wf.
Qed.

Lemma flushed_drained k ln : flushed (drained k ln) = flushed ln.
Proof.
  unfold flushed, drained. cbn [submit_q free_q free_capacity].
  rewrite <- app_assoc, take_drop. reflexivity.
Qed.

Lemma final_lanes_batches limit n lanes :
  final_lanes (batches limit n lanes) = final_lanes lanes.
Proof.
  unfold final_lanes, batches. destruct (active lanes) eqn:Ha; cbn [active].
  2: { rewrite Ha. reflexivity. }
  cbn [thread_id index_lane detail_lane]. rewrite !flushed_drained.
  reflexivity.
Qed.

Lemma batches_enough limit n lanes :
  (active lanes = true ->
   N.of_nat (length (submit_q (index_lane lanes))) <= N.of_nat n * limit
   /\ N.of_nat (length (submit_q (detail_lane lanes))) <= N.of_nat n * limit) ->
  batches limit n lanes = final_lanes lanes.
Proof.
  unfold batches, final_lanes. destruct (active lanes); [|reflexivity].
  intros H. destruct (H eq_refl) as [Hi Hd]. f_equal.
  - unfold drained, flushed, quota.
    replace (Nat.min _ _) with (length (submit_q (index_lane lanes))) by lia.
    now rewrite drop_all, firstn_all.
  - unfold drained, flushed, quota.
    replace (Nat.min _ _) with (length (submit_q (detail_lane lanes))) by lia.
    now rewrite drop_all, firstn_all.
Qed.


Lemma drain_cycle_cursor now d reg final_pass work d' :
  registry d = Some reg ->
  slots reg <> [] ->
  drain_cycle now d final_pass = Some (work, d') ->
  let capacity := thread_registry_get_capacity reg in
  let start := if capacity <=? rr_cursor d then 0 else rr_cursor d in
  rr_cursor d' = wrap32 (start + 1) mod capacity
  /\ last_cycle_ns d' = now.
Proof.
  intros Hreg Hne. unfold drain_cycle. rewrite Hreg.
  destruct (N.eqb_spec (thread_registry_get_capacity reg) 0) as [Hz|Hnz].
  { unfold thread_registry_get_capacity in Hz.
    destruct (slots reg); [congruence|discriminate]. }
  destruct (drain_cycle_loop _ _ _ _ _ _ d) as [[w d1]|]; [|discriminate].
  intros [= <- <-]. split; reflexivity.
Qed.

Lemma cycle_lanes_registry_wf limit reg :
  registry_wf reg -> registry_wf (mk_registry (cycle_lanes limit <$> slots reg)).
Proof.
  intros [Hcap Hwf]. split; cbn [slots].
  - now rewrite length_fmap.
  - rewrite Forall_fmap. eapply Forall_impl; [exact Hwf|].
    intros lanes H. cbn beta in *. intros Ha. now apply cycle_lanes_wf.
Qed.

(** Rings a cycle under a positive limit takes: none exactly when no active
    slot has a ring pending. *)
Lemma slot_taken_none limit (l : list ThreadLaneSet) :
  limit <> 0 ->
  sum_list_with (slot_taken limit) l = O
  <-> sum_list_with lanes_pending
        (filter (fun lanes => active lanes = true) l) = O.
Proof.
  intros Hl. induction l as [|x l IH]; [reflexivity|].
  cbn [sum_list_with]. rewrite filter_cons. unfold slot_taken at 1.
  destruct (decide (active x = true)) as [Ha|Ha].
  - rewrite Ha. cbn [sum_list_with]. unfold lanes_pending at 1, quota.
    split; intros H.
    + assert (sum_list_with (slot_taken limit) l = O) by lia.
      apply IH in H0. lia.
    + assert (sum_list_with lanes_pending
                (filter (fun lanes => active lanes = true) l) = O) by lia.
      apply IH in H0. lia.
  - destruct (active x); [congruence|]. exact IH.
Qed.

Lemma cycle_lanes_idle limit lanes :
  (active lanes = true -> lanes_pending lanes = O) ->
  cycle_lanes limit lanes = lanes.
Proof.
  unfold cycle_lanes, lanes_pending. destruct lanes as [tid act il dl]. cbn.
  destruct act; [|reflexivity]. intros H. specialize (H eq_refl).
  unfold quota.
  replace (length (submit_q il)) with O by lia.
  replace (length (submit_q dl)) with O by lia.
  rewrite !Nat.min_0_r, !drained_0. reflexivity.
Qed.

Lemma idle_registry limit reg :
  active_backlog reg = O ->
  mk_registry (cycle_lanes limit <$> slots reg) = reg.
Proof.
  destruct reg as [l]. unfold active_backlog. cbn [slots]. intros H. f_equal.
  induction l as [|x l IH]; [reflexivity|].
  rewrite filter_cons in H. cbn [fmap list_fmap].
  destruct (decide (active x = true)) as [Ha|Ha].
  - cbn [sum_list_with] in H. f_equal.
    + apply cycle_lanes_idle. intros _. lia.
    + apply IH. lia.
  - f_equal; [|apply IH, H]. apply cycle_lanes_idle. intros; contradiction.
Qed.

(** One iteration of the main loop over a well-formed registry. *)
Lemma drain_worker_iteration_spec now d reg :
  registry d = Some reg ->
  registry_wf reg ->
  let limit := compute_effective_limit d false in
  let busy := Nat.ltb 0 (sum_list_with (slot_taken limit) (slots reg)) in
  exists d1 d',
    drain_cycle now d false = Some (busy, d1)
    /\ registry d1 = Some (mk_registry (cycle_lanes limit <$> slots reg))
    /\ drain_worker_iteration now d = Some d'
    /\ registry d' = Some (mk_registry (cycle_lanes limit <$> slots reg))
    /\ same_control d d'
    /\ rr_cursor d' = rr_cursor d1 /\ last_cycle_ns d' = last_cycle_ns d1
    /\ ring_step d d'
    /\ metrics d'
       = (let m1 := inc_cycles_total (metrics d1) in
          if busy then m1
          else
            let m2 := inc_cycles_idle m1 in
            if yield_on_idle (config d) then inc_yields m2
            else if 0 <? poll_interval_us (config d)
                 then add_sleep (poll_interval_us (config d)) m2
                 else m2)
    /\ same_loop_metrics (metrics d) (metrics d1)
    /\ fairness_switches (metrics d')
       = Nat.iter (sum_list_with (slot_hits limit) (slots reg)) incr64
           (fairness_switches (metrics d)).
Proof.
  intros Hreg Hwf limit busy.
  destruct (drain_cycle_spec now d reg false Hreg Hwf)
    as (d1 & Hrun & Hreg1 & Hc1 & Hm1 & Hf1).
  fold limit in Hrun, Hreg1, Hf1. fold busy in Hrun.
  pose proof Hc1 as (Hst1 & Hcfg1 & Hts1).
  assert (Hit : exists d', drain_worker_iteration now d = Some d'
            /\ registry d' = registry d1 /\ state d' = state d1
            /\ config d' = config d1 /\ thread_started d' = thread_started d1
            /\ rr_cursor d' = rr_cursor d1 /\ last_cycle_ns d' = last_cycle_ns d1
            /\ metrics d'
               = (let m1 := inc_cycles_total (metrics d1) in
                  if busy then m1
                  else
                    let m2 := inc_cycles_idle m1 in
                    if yield_on_idle (config d) then inc_yields m2
                    else if 0 <? poll_interval_us (config d)
                         then add_sleep (poll_interval_us (config d)) m2
                         else m2)).
  { unfold drain_worker_iteration. rewrite Hrun.
    cbn [config upd_metrics set_metrics]. rewrite <- Hcfg1.
    destruct busy; [eexists; repeat split|].
    destruct (yield_on_idle (config d1)); [eexists; repeat split|].
    destruct (0 <? poll_interval_us (config d1)); eexists; repeat split. }
  destruct Hit as (d' & Hit & Hr' & Hs' & Hc' & Ht' & Hrr' & Hl' & Hm').
  exists d1, d'. split; [exact Hrun|]. split; [exact Hreg1|].
  split; [exact Hit|].
  split; [congruence|]. split; [repeat split; congruence|].
  split; [exact Hrr'|]. split; [exact Hl'|].
  split; [exact (proj1 (drain_worker_iteration_counts _ _ _ _ Hreg Hit))|].
  split; [exact Hm'|]. split; [exact Hm1|].
  rewrite Hm', <- Hf1. cbv zeta.
  destruct busy; [reflexivity|].
  destruct (yield_on_idle (config d)); [reflexivity|].
  destruct (0 <? poll_interval_us (config d)); reflexivity.
Qed.


Lemma drain_worker_loop_spec n : forall clock k d reg,
  registry d = Some reg ->
  registry_wf reg ->
  state d = DRAIN_STATE_RUNNING ->
  let limit := compute_effective_limit d false in
  exists d',
    drain_worker_loop n clock k d = Some d'
    /\ registry d' = Some (mk_registry (batches limit n <$> slots reg))
    /\ same_control d d'
    /\ ring_step d d'
    /\ cycles_total (metrics d') = Nat.iter n incr64 (cycles_total (metrics d))
    /\ final_drains (metrics d') = final_drains (metrics d).
Proof.
  induction n as [|n IH]; intros clock k d reg Hreg Hwf Hst limit.
  - exists d. split; [reflexivity|]. split.
    { rewrite Hreg. f_equal. destruct reg as [l]. cbn [slots]. f_equal.
      rewrite <- (list_fmap_id l) at 1. apply list_fmap_ext.
      intros i x _. symmetry. apply batches_0. }
    split; [apply same_control_refl|].
    split; [eapply ring_step_refl; eassumption|]. split; reflexivity.
  - cbn [drain_worker_loop]. rewrite Hst.
    destruct (drain_worker_iteration_spec (clock k) d reg Hreg Hwf)
      as (dc & d1 & _ & _ & Hit & Hreg1 & Hc1 & _ & _ & Hs1 & Hm1 & Hlm & _).
    fold limit in Hreg1. rewrite Hit.
    pose proof Hc1 as (Hst1 & Hcfg1 & Hts1).
    assert (Hlim1 : compute_effective_limit d1 false = limit)
      by (apply compute_effective_limit_config; exact Hcfg1).
    destruct (IH clock (S k) d1 _ Hreg1 (cycle_lanes_registry_wf limit reg Hwf)
                ltac:(congruence))
      as (d' & Hrun & Hreg' & Hc' & Hs' & Hct & Hfd).
    rewrite Hlim1 in Hreg'. cbn [slots] in Hreg'.
    exists d'. split; [exact Hrun|]. split.
    { rewrite Hreg'. f_equal. f_equal. rewrite <- list_fmap_compose.
      apply list_fmap_ext. intros i x _. cbn.
      apply batches_cycle_lanes. }
    split; [eapply same_control_trans; eassumption|].
    split; [eapply ring_step_trans; eassumption|].
    destruct Hlm as (Hct1 & _ & _ & _ & Hfd1 & _).
    split.
    + rewrite Hct, Hm1. cbv zeta.
      assert (Hx : forall m, cycles_total
                 (if Nat.ltb 0 (sum_list_with (slot_taken limit) (slots reg))
                  then inc_cycles_total m
                  else if yield_on_idle (config d)
                       then inc_yields (inc_cycles_idle (inc_cycles_total m))
                       else if 0 <? poll_interval_us (config d)
                            then add_sleep (poll_interval_us (config d))
                                   (inc_cycles_idle (inc_cycles_total m))
                            else inc_cycles_idle (inc_cycles_total m))
                 = incr64 (cycles_total m)).
      { intros m. destruct (Nat.ltb _ _); [reflexivity|].
        destruct (yield_on_idle _); [reflexivity|].
        destruct (_ <? _); reflexivity. }
      fold limit. rewrite Hx, Hct1. symmetry. apply Nat.iter_succ_r.
    + rewrite Hfd, Hm1. cbv zeta. fold limit. rewrite <- Hfd1.
      destruct (Nat.ltb _ _); [reflexivity|].
      destruct (yield_on_idle _); [reflexivity|].
      destruct (_ <? _); reflexivity.
Qed.


(** ** The main loop *)

(** X16.  With producers quiescent, [n] iterations of the worker's main loop
    over a well-formed registry leave every lane of every active slot with
    its first min(n * limit, pending) rings moved, in order, to the free
    queue, where [limit] is the effective non-final limit; inactive slots
    and the control fields stay as they were and [cycles_total] has grown
    by [n].  Once n * limit covers every active lane, all their submit
    queues are empty. *)
Theorem worker_loop_drains_in_batches
    (n : nat) (clock : nat -> N) (k : nat) (d : DrainThread)
    (reg : ThreadRegistry) :
  registry d = Some reg ->
  registry_wf reg ->
  state d = DRAIN_STATE_RUNNING ->
  let limit := compute_effective_limit d false in
  exists d',
    drain_worker_loop n clock k d = Some d'
    /\ registry d' = Some (mk_registry (batches limit n <$> slots reg))
    /\ same_control d d'
    /\ cycles_total (metrics d') = Nat.iter n incr64 (cycles_total (metrics d))
    /\ ((forall lanes, lanes ∈ slots reg -> active lanes = true ->
           N.of_nat (length (submit_q (index_lane lanes))) <= N.of_nat n * limit
           /\ N.of_nat (length (submit_q (detail_lane lanes)))
              <= N.of_nat n * limit) ->
        registry d' = Some (mk_registry (final_lanes <$> slots reg))).
Proof.
  intros Hreg Hwf Hst limit.
  destruct (drain_worker_loop_spec n clock k d reg Hreg Hwf Hst)
    as (d' & Hrun & Hreg' & Hc & _ & Hct & _).
  fold limit in Hreg'.
  exists d'. split; [exact Hrun|]. split; [exact Hreg'|].
  split; [exact Hc|]. split; [exact Hct|].
  intros Hall. rewrite Hreg'. f_equal. f_equal.
  apply list_fmap_ext. intros i x Hi. apply batches_enough.
  intros Ha. apply Hall; [|exact Ha]. apply list_elem_of_lookup. eauto.
Qed.

Lemma worker_loop_drains_in_batches_witness :
  exists d',
    drain_worker_loop 2 (fun j => N.of_nat j) 0
      (demo_drain DRAIN_STATE_RUNNING 2 8) = Some d'
    /\ registry d' = Some (mk_registry (final_lanes <$> slots demo_registry))
    /\ cycles_total (metrics d') = 2.
Proof.
  destruct (worker_loop_drains_in_batches 2 (fun j => N.of_nat j) 0
              (demo_drain DRAIN_STATE_RUNNING 2 8) demo_registry
              eq_refl demo_registry_wf eq_refl)
    as (d' & Hrun & _ & _ & Hct & Hall).
  exists d'. split; [exact Hrun|]. split; [|exact Hct].
  apply Hall. intros lanes Hin Ha.
  repeat (apply elem_of_cons in Hin as [->|Hin]; [cbn; lia|]).
  inversion Hin.
Defined.

(** X17.  One iteration of the main loop always counts one cycle.  It is
    idle exactly when no active slot has a ring pending: it then leaves the
    registry and the ring counters alone, counts one idle cycle, and either
    yields (counting a yield), or sleeps [poll_interval_us] (counting the
    sleep and its duration), or does neither when both are off.  Otherwise
    it takes at least one ring and touches none of the idle counters. *)
Theorem worker_iteration_accounting
    (now : N) (d : DrainThread) (reg : ThreadRegistry) :
  registry d = Some reg ->
  registry_wf reg ->
  exists d',
    drain_worker_iteration now d = Some d'
    /\ cycles_total (metrics d') = incr64 (cycles_total (metrics d))
    /\ (active_backlog reg <> O ->
        (pending_rings d' < pending_rings d)%nat
        /\ cycles_idle (metrics d') = cycles_idle (metrics d)
        /\ yields (metrics d') = yields (metrics d)
        /\ sleeps (metrics d') = sleeps (metrics d)
        /\ total_sleep_us (metrics d') = total_sleep_us (metrics d))
    /\ (active_backlog reg = O ->
        registry d' = Some reg
        /\ rings_total (metrics d') = rings_total (metrics d)
        /\ cycles_idle (metrics d') = incr64 (cycles_idle (metrics d))
        /\ (if yield_on_idle (config d)
            then yields (metrics d') = incr64 (yields (metrics d))
                 /\ sleeps (metrics d') = sleeps (metrics d)
                 /\ total_sleep_us (metrics d') = total_sleep_us (metrics d)
            else if 0 <? poll_interval_us (config d)
            then yields (metrics d') = yields (metrics d)
                 /\ sleeps (metrics d') = incr64 (sleeps (metrics d))
                 /\ total_sleep_us (metrics d')
                    = wrap64 (total_sleep_us (metrics d)
                              + poll_interval_us (config d))
            else yields (metrics d') = yields (metrics d)
                 /\ sleeps (metrics d') = sleeps (metrics d)
                 /\ total_sleep_us (metrics d') = total_sleep_us (metrics d))).
Proof.
  intros Hreg Hwf.
  destruct (drain_worker_iteration_spec now d reg Hreg Hwf)
    as (d1 & d' & Hcyc & Hd1 & Hit & Hreg' & Hc & _ & _ & Hstep & Hm & Hlm & _).
  cbv zeta in *.
  set (limit := compute_effective_limit d false) in *.
  pose proof (compute_effective_limit_pos d false) as Hpos. fold limit in Hpos.
  pose proof (slot_taken_none limit (slots reg) Hpos) as Hnone.
  fold (active_backlog reg) in Hnone.
  destruct Hlm as (Hct & Hci & Hsl & Hy & _ & Hts).
  exists d'. split; [exact Hit|]. split; [|split].
  - rewrite Hm, <- Hct. destruct (Nat.ltb _ _); [reflexivity|].
    destruct (yield_on_idle _); [reflexivity|].
    destruct (_ <? _); reflexivity.
  - intros Hbusy.
    destruct (Nat.ltb_spec 0 (sum_list_with (slot_taken limit) (slots reg)))
      as [Hlt|Hge]; [|exfalso; apply Hbusy, Hnone; lia].
    apply drain_cycle_pops in Hcyc as [_ Hlt']. specialize (Hlt' eq_refl).
    split.
    { unfold pending_rings in *. rewrite Hreg'. rewrite Hd1 in Hlt'.
      exact Hlt'. }
    rewrite Hm, <- Hci, <- Hy, <- Hsl, <- Hts. repeat split; reflexivity.
  - intros Hidle.
    destruct (Nat.ltb_spec 0 (sum_list_with (slot_taken limit) (slots reg)))
      as [Hlt|Hge]; [apply Hnone in Hidle; lia|].
    split; [rewrite Hreg', idle_registry by exact Hidle; reflexivity|].
    split.
    { destruct Hstep as (r & r' & Hr & Hr' & _ & (_ & _ & _ & _ & Et) & _).
      assert (r = reg) by congruence. subst r.
      assert (r' = reg).
      { rewrite Hreg' in Hr'. injection Hr' as <-.
        apply idle_registry, Hidle. }
      subst r'. rewrite Et, !Nat.sub_diag. reflexivity. }
    rewrite Hm, <- Hci, <- Hy, <- Hsl, <- Hts.
    destruct (yield_on_idle (config d)); [repeat split; reflexivity|].
    destruct (0 <? poll_interval_us (config d)); repeat split; reflexivity.
Qed.


Lemma worker_iteration_accounting_witness :
  exists d',
    drain_worker_iteration 7 (demo_drain DRAIN_STATE_RUNNING 2 8) = Some d'
    /\ cycles_total (metrics d') = 1
    /\ cycles_idle (metrics d') = 0
    /\ (pending_rings d' < pending_rings (demo_drain DRAIN_STATE_RUNNING 2 8))%nat.
Proof.
  destruct (worker_iteration_accounting 7 (demo_drain DRAIN_STATE_RUNNING 2 8)
              demo_registry eq_refl demo_registry_wf)
    as (d' & Hit & Hct & Hbusy & _).
  destruct Hbusy as (Hp & Hci & _); [discriminate|].
  exists d'. repeat split; assumption.
Defined.

(** ** The round-robin cursor *)

(** X18.  The round-robin cursor advances by one slot per cycle, modulo the
    registry's capacity: after n + 1 iterations it is
    (start + n + 1) mod capacity, where a stored cursor beyond the capacity
    counts as start 0; it always ends below the capacity, and
    [last_cycle_ns] holds the clock of the last cycle. *)
Theorem rr_cursor_rotates
    (n : nat) (clock : nat -> N) (k : nat) (d : DrainThread)
    (reg : ThreadRegistry) :
  registry d = Some reg ->
  registry_wf reg ->
  slots reg <> [] ->
  state d = DRAIN_STATE_RUNNING ->
  let capacity := thread_registry_get_capacity reg in
  let start := if capacity <=? rr_cursor d then 0 else rr_cursor d in
  exists d',
    drain_worker_loop (S n) clock k d = Some d'
    /\ drain_thread_test_get_rr_cursor d' = (start + N.of_nat (S n)) mod capacity
    /\ drain_thread_test_get_rr_cursor d' < capacity
    /\ last_cycle_ns d' = clock (k + n)%nat.
Proof.
  revert clock k d reg.
  induction n as [|n IH]; intros clock k d reg Hreg Hwf Hne Hst capacity start.
  - cbn [drain_worker_loop]. rewrite Hst.
    destruct (drain_worker_iteration_spec (clock k) d reg Hreg Hwf)
      as (d1 & d' & Hcyc & _ & Hit & _ & _ & Hrr & Hlc & _).
    rewrite Hit. exists d'. split; [reflexivity|].
    destruct (drain_cycle_cursor _ _ _ _ _ _ Hreg Hne Hcyc) as [Hc Hl].
    fold capacity in Hc. fold start in Hc.
    assert (Hcap : 0 < capacity /\ capacity <= 2147483648).
    { destruct Hwf as [Hlen _]. unfold capacity, thread_registry_get_capacity.
      destruct (slots reg); [congruence|]. cbn [length] in *. lia. }
    assert (Hstart : start < capacity).
    { subst start. destruct (N.leb_spec capacity (rr_cursor d)); lia. }
    unfold drain_thread_test_get_rr_cursor. rewrite Hrr, Hlc, Hc, Hl.
    rewrite wrap32_small by lia.
    split; [reflexivity|]. split; [apply N.mod_lt; lia|].
    f_equal. lia.
  - change (drain_worker_loop (S (S n)) clock k d)
      with (match state d with
            | DRAIN_STATE_RUNNING =>
                match drain_worker_iteration (clock k) d with
                | None => None
                | Some d' => drain_worker_loop (S n) clock (S k) d'
                end
            | _ => Some d
            end).
    rewrite Hst.
    destruct (drain_worker_iteration_spec (clock k) d reg Hreg Hwf)
      as (d1 & d2 & Hcyc & _ & Hit & Hreg2 & Hc2 & Hrr & _).
    rewrite Hit.
    destruct (drain_cycle_cursor _ _ _ _ _ _ Hreg Hne Hcyc) as [Hc _].
    fold capacity in Hc. fold start in Hc.
    assert (Hcap : 0 < capacity /\ capacity <= 2147483648).
    { destruct Hwf as [Hlen _]. unfold capacity, thread_registry_get_capacity.
      destruct (slots reg); [congruence|]. cbn [length] in *. lia. }
    assert (Hstart : start < capacity).
    { subst start. destruct (N.leb_spec capacity (rr_cursor d)); lia. }
    rewrite wrap32_small in Hc by lia.
    set (reg2 := mk_registry
                   (cycle_lanes (compute_effective_limit d false) <$> slots reg))
      in *.
    assert (Hne2 : slots reg2 <> []).
    { subst reg2. cbn [slots]. destruct (slots reg); [congruence|discriminate]. }
    assert (Hcap2 : thread_registry_get_capacity reg2 = capacity).
    { subst reg2. unfold thread_registry_get_capacity. cbn [slots].
      rewrite length_fmap. reflexivity. }
    destruct (IH clock (S k) d2 reg2 Hreg2
                (cycle_lanes_registry_wf _ reg Hwf) Hne2
                ltac:(destruct Hc2 as (? & _); congruence))
      as (d' & Hrun & Hcur & Hlt & Hlast).
    rewrite Hcap2 in Hcur, Hlt.
    exists d'. split; [exact Hrun|]. split; [|split; [exact Hlt|]].
    + rewrite Hcur, Hrr, Hc.
      destruct (N.leb_spec capacity ((start + 1) mod capacity)) as [Hle|_].
      { pose proof (N.mod_lt (start + 1) capacity ltac:(lia)). lia. }
      rewrite N.Div0.add_mod_idemp_l. f_equal. lia.
    + rewrite Hlast. f_equal. lia.
Qed.

Lemma rr_cursor_rotates_witness :
  exists d',
    drain_worker_loop 4 (fun j => N.of_nat j) 0
      (drain_thread_test_set_rr_cursor (demo_drain DRAIN_STATE_RUNNING 2 8) 9)
    = Some d'
    /\ drain_thread_test_get_rr_cursor d' = 1.
Proof.
  destruct (rr_cursor_rotates 3 (fun j => N.of_nat j) 0
              (drain_thread_test_set_rr_cursor
                 (demo_drain DRAIN_STATE_RUNNING 2 8) 9)
              demo_registry eq_refl demo_registry_wf ltac:(discriminate) eq_refl)
    as (d' & Hrun & Hcur & _).
  exists d'. split; [exact Hrun|exact Hcur].
Defined.


(** ** The final pass, counted *)

Lemma slot_hits_unbounded (l : list ThreadLaneSet) :
  sum_list_with (slot_hits UINT32_MAX) l = O.
Proof.
  induction l as [|x l IH]; [reflexivity|].
  cbn [sum_list_with]. rewrite IH. unfold slot_hits, lane_hit.
  destruct (active x); reflexivity.
Qed.

Lemma final_cycle_counted now d reg :
  registry d = Some reg ->
  registry_wf reg ->
  exists d',
    drain_cycle now d true = Some (negb (Nat.eqb (active_backlog reg) 0), d')
    /\ registry d' = Some (mk_registry (final_lanes <$> slots reg))
    /\ same_control d d'
    /\ same_loop_metrics (metrics d) (metrics d')
    /\ fairness_switches (metrics d') = fairness_switches (metrics d).
Proof.
  intros Hreg Hwf.
  destruct (drain_cycle_spec now d reg true Hreg Hwf)
    as (d' & Hrun & Hreg' & Hc & Hm & Hf).
  change (compute_effective_limit d true) with UINT32_MAX in Hrun, Hreg', Hf.
  rewrite slot_hits_unbounded in Hf. cbn [Nat.iter] in Hf.
  exists d'. split; [|split; [|split; [exact Hc|split; [exact Hm|exact Hf]]]].
  - rewrite Hrun. f_equal. f_equal.
    pose proof (slot_taken_none UINT32_MAX (slots reg) ltac:(discriminate))
      as Hnone.
    fold (active_backlog reg) in Hnone.
    destruct (Nat.eqb_spec (active_backlog reg) 0) as [Hz|Hnz]; cbn [negb].
    + apply Nat.ltb_ge. apply Hnone in Hz. lia.
    + apply Nat.ltb_lt.
      destruct (sum_list_with (slot_taken UINT32_MAX) (slots reg)) eqn:E; [|lia].
      exfalso. apply Hnz, Hnone. reflexivity.
  - rewrite Hreg'. f_equal. f_equal. apply list_fmap_ext.
    intros i lanes Hi. apply cycle_lanes_unbounded.
    destruct Hwf as [_ Hwf]. rewrite Forall_lookup in Hwf. eauto.
Qed.

Lemma final_registry_idle reg :
  active_backlog (mk_registry (final_lanes <$> slots reg)) = O.
Proof. apply final_lanes_nothing_pending. Qed.

Lemma final_registry_idem reg :
  mk_registry (final_lanes <$> slots (mk_registry (final_lanes <$> slots reg)))
  = mk_registry (final_lanes <$> slots reg).
Proof.
  cbn [slots]. f_equal. rewrite <- list_fmap_compose. apply list_fmap_ext.
  intros i x _. apply final_lanes_idem.
Qed.

Lemma drain_final_pass_counted clock d reg :
  registry d = Some reg ->
  registry_wf reg ->
  exists d1,
    drain_final_pass clock d = Some d1
    /\ registry d1 = Some (mk_registry (final_lanes <$> slots reg))
    /\ same_control d d1
    /\ ring_step d d1
    /\ cycles_total (metrics d1)
       = Nat.iter (if Nat.eqb (active_backlog reg) 0 then 1 else 2) incr64
           (cycles_total (metrics d))
    /\ final_drains (metrics d1) = incr64 (final_drains (metrics d))
    /\ fairness_switches (metrics d1) = fairness_switches (metrics d)
    /\ cycles_idle (metrics d1) = cycles_idle (metrics d)
    /\ yields (metrics d1) = yields (metrics d)
    /\ sleeps (metrics d1) = sleeps (metrics d)
    /\ total_sleep_us (metrics d1) = total_sleep_us (metrics d).
Proof.
  intros Hreg Hwf.
  assert (Hex : exists d1,
    drain_final_pass clock d = Some d1
    /\ registry d1 = Some (mk_registry (final_lanes <$> slots reg))
    /\ same_control d d1
    /\ cycles_total (metrics d1)
       = Nat.iter (if Nat.eqb (active_backlog reg) 0 then 1 else 2) incr64
           (cycles_total (metrics d))
    /\ final_drains (metrics d1) = incr64 (final_drains (metrics d))
    /\ fairness_switches (metrics d1) = fairness_switches (metrics d)
    /\ cycles_idle (metrics d1) = cycles_idle (metrics d)
    /\ yields (metrics d1) = yields (metrics d)
    /\ sleeps (metrics d1) = sleeps (metrics d)
    /\ total_sleep_us (metrics d1) = total_sleep_us (metrics d)).
  { unfold drain_final_pass.
    set (d0 := upd_metrics inc_final_drains d).
    cbn [final_pass_loop].
    destruct (final_cycle_counted (clock O) d0 reg Hreg Hwf)
      as (d1 & Hrun1 & Hreg1 & Hc1 & Hm1 & Hf1).
    rewrite Hrun1.
    destruct Hc1 as (Hs1 & Hcf1 & Ht1).
    destruct Hm1 as (Hct1 & Hci1 & Hsl1 & Hy1 & Hfd1 & Hts1).
    destruct (Nat.eqb_spec (active_backlog reg) 0) as [Hz|Hnz]; cbn [negb].
    - eexists. split; [reflexivity|]. cbn [upd_metrics set_metrics registry
        state config thread_started metrics inc_cycles_total cycles_total
        final_drains fairness_switches cycles_idle yields sleeps total_sleep_us].
      split; [exact Hreg1|]. split; [repeat split; assumption|].
      rewrite Hct1, Hfd1, Hf1, Hci1, Hy1, Hsl1, Hts1.
      repeat split; reflexivity.
    - set (d2 := upd_metrics inc_cycles_total d1).
      destruct (final_cycle_counted (clock 1%nat) d2
                  (mk_registry (final_lanes <$> slots reg)) Hreg1
                  (final_registry_wf reg Hwf))
        as (d3 & Hrun3 & Hreg3 & Hc3 & Hm3 & Hf3).
      rewrite final_registry_idle in Hrun3. cbn [Nat.eqb negb] in Hrun3.
      rewrite Hrun3. rewrite final_registry_idem in Hreg3.
      destruct Hc3 as (Hs3 & Hcf3 & Ht3).
      destruct Hm3 as (Hct3 & Hci3 & Hsl3 & Hy3 & Hfd3 & Hts3).
      eexists. split; [reflexivity|]. cbn [upd_metrics set_metrics registry
        state config thread_started metrics inc_cycles_total cycles_total
        final_drains fairness_switches cycles_idle yields sleeps total_sleep_us].
      split; [exact Hreg3|].
      split.
      { subst d2 d0.
        cbn [upd_metrics set_metrics state config thread_started] in *.
        repeat split; cbn; congruence. }
      rewrite Hct3, Hfd3, Hf3, Hci3, Hy3, Hsl3, Hts3.
      subst d2. cbn [upd_metrics set_metrics metrics inc_cycles_total
        cycles_total final_drains fairness_switches cycles_idle yields sleeps
        total_sleep_us].
      rewrite Hct1, Hfd1, Hf1, Hci1, Hy1, Hsl1, Hts1.
      repeat split; reflexivity. }
  destruct Hex as (d1 & Hrun & Hrest).
  exists d1. split; [exact Hrun|].
  destruct Hrest as (Hr & Hc & Hrest). split; [exact Hr|]. split; [exact Hc|].
  split; [exact (drain_final_pass_counts _ _ _ _ Hreg Hrun)|exact Hrest].
Qed.

Lemma final_lanes_freed (l : list ThreadLaneSet) :
  (sum_list_with (fun x => length (free_q (index_lane x))) l
   <= sum_list_with (fun x => length (free_q (index_lane x))) (final_lanes <$> l))%nat
  /\ (sum_list_with (fun x => length (free_q (detail_lane x))) l
      <= sum_list_with (fun x => length (free_q (detail_lane x)))
           (final_lanes <$> l))%nat
  /\ (sum_list_with (fun x => length (free_q (index_lane x))) (final_lanes <$> l)
      + sum_list_with (fun x => length (free_q (detail_lane x))) (final_lanes <$> l)
      = sum_list_with (fun x => length (free_q (index_lane x))) l
        + sum_list_with (fun x => length (free_q (detail_lane x))) l
        + sum_list_with lanes_pending
            (filter (fun lanes => active lanes = true) l))%nat.
Proof.
  induction l as [|x l (IHi & IHd & IHs)]; [cbn; lia|].
  cbn [fmap list_fmap sum_list_with]. rewrite filter_cons.
  unfold final_lanes at 1 3 5 7. 
  destruct (decide (active x = true)) as [Ha|Ha].
  - rewrite Ha. cbn [index_lane detail_lane flushed free_q sum_list_with].
    rewrite !length_app. unfold lanes_pending at 1. lia.
  - destruct (active x); [congruence|]. lia.
Qed.


Lemma ring_step_total d d' reg reg' :
  registry d = Some reg -> registry d' = Some reg' ->
  ring_step d d' ->
  rings_total (metrics d')
  = counter_add (rings_total (metrics d))
      (N.of_nat ((freed_index reg' - freed_index reg)
                 + (freed_detail reg' - freed_detail reg)))
  /\ (freed_index reg <= freed_index reg')%nat
  /\ (freed_detail reg <= freed_detail reg')%nat.
Proof.
  intros Hr Hr' (r & r' & Hr1 & Hr1' & _ & (Hi & Hd & _ & _ & Et) & _).
  assert (r = reg) by congruence. assert (r' = reg') by congruence.
  subst r r'. repeat split; assumption.
Qed.

Lemma final_registry_freed reg :
  let fin := mk_registry (final_lanes <$> slots reg) in
  (freed_index reg <= freed_index fin)%nat
  /\ (freed_detail reg <= freed_detail fin)%nat
  /\ ((freed_index fin - freed_index reg) + (freed_detail fin - freed_detail reg)
      = active_backlog reg)%nat.
Proof.
  cbv zeta. unfold freed_index, freed_detail, active_backlog. cbn [slots].
  destruct (final_lanes_freed (slots reg)) as (Hi & Hd & Hs). lia.
Qed.

(** C2, as the code has it.  Once the worker has left its main loop on
    STOPPING, its final pass counts one final drain and then runs full
    cycles, each with the unbounded per-lane limit [UINT32_MAX] whatever
    the configuration, until one of them reports no work, and only then is
    STOPPED stored.  Over a well-formed registry (producers quiescent)
    the first cycle, started from the state the pass found, already moves
    every ring of every slot the registry hands out (an active slot) from
    the submit queue to the lane's free queue, after what was free before,
    and no lane reaches the limit; if it found work, a second cycle,
    started from what the first left with [cycles_total] advanced, reports
    none and ends the pass.  So [cycles_total] grows by one when nothing
    was pending and by two otherwise, [rings_total] by the number of rings
    that were pending in active slots, and [fairness_switches] not at all;
    the state is still the one found when the pass ends; inactive slots
    are untouched, and nothing is handed to a per-thread file writer. *)
Theorem shutdown_drains_active_slots
    (clock : nat -> N) (w : DrainWorld) (reg : ThreadRegistry) :
  registry (drain w) = Some reg ->
  registry_wf reg ->
  let d0 := upd_metrics inc_final_drains (drain w) in
  let reg1 := mk_registry (final_lanes <$> slots reg) in
  let idle := Nat.eqb (active_backlog reg) 0 in
  (forall d, compute_effective_limit d true = UINT32_MAX)
  /\ exists d_first d_last d_idle d1,
       drain_cycle (clock O) d0 true = Some (negb idle, d_first)
       /\ registry d_first = Some reg1
       /\ state d_first = state (drain w)
       /\ fairness_switches (metrics d_first)
          = fairness_switches (metrics (drain w))
       /\ d_last = (if idle then d0 else upd_metrics inc_cycles_total d_first)
       /\ drain_cycle (clock (if idle then O else 1%nat)) d_last true
          = Some (false, d_idle)
       /\ d1 = upd_metrics inc_cycles_total d_idle
       /\ drain_final_pass clock (drain w) = Some d1
       /\ state d1 = state (drain w)
       /\ final_drains (metrics d1)
          = wrap64 (final_drains (metrics (drain w)) + 1)
       /\ cycles_total (metrics d1)
          = Nat.iter (if idle then 1 else 2) incr64
              (cycles_total (metrics (drain w)))
       /\ fairness_switches (metrics d1)
          = fairness_switches (metrics (drain w))
       /\ rings_total (metrics d1)
          = counter_add (rings_total (metrics (drain w)))
              (N.of_nat (active_backlog reg))
       /\ registry d1 = Some reg1
       /\ length (slots reg1) = length (slots reg)
       /\ (forall i lanes, slots reg !! i = Some lanes ->
             exists lanes',
               slots reg1 !! i = Some lanes'
               /\ (active lanes = true ->
                   submit_q (index_lane lanes') = []
                   /\ free_q (index_lane lanes')
                      = free_q (index_lane lanes) ++ submit_q (index_lane lanes)
                   /\ submit_q (detail_lane lanes') = []
                   /\ free_q (detail_lane lanes')
                      = free_q (detail_lane lanes) ++ submit_q (detail_lane lanes))
               /\ (active lanes = false -> lanes' = lanes))
       /\ world_worker_shutdown clock w
          = Some (mk_world (set_state d1 DRAIN_STATE_STOPPED)
                    (handed_to_writer w)).
Proof.
  intros Hreg Hwf. cbv zeta. split; [reflexivity|].
  set (d0 := upd_metrics inc_final_drains (drain w)).
  destruct (final_cycle_counted (clock O) d0 reg Hreg Hwf)
    as (d_first & Hrun1 & Hreg1 & (Hs1 & _) & _ & Hf1).
  destruct (drain_final_pass_counted clock (drain w) reg Hreg Hwf)
    as (d1 & Hrun & Hr1 & (Hs & _) & Hstep & Hct & Hfd & Hfs & _).
  assert (Hlast : exists d_idle,
            drain_cycle
              (clock (if Nat.eqb (active_backlog reg) 0 then O else 1%nat))
              (if Nat.eqb (active_backlog reg) 0 then d0
               else upd_metrics inc_cycles_total d_first) true
            = Some (false, d_idle)
            /\ d1 = upd_metrics inc_cycles_total d_idle).
  { pose proof Hrun as Hpass. unfold drain_final_pass in Hpass.
    fold d0 in Hpass. cbn [final_pass_loop] in Hpass.
    rewrite Hrun1 in Hpass.
    destruct (Nat.eqb (active_backlog reg) 0); cbn [negb] in *.
    - exists d_first. split; [exact Hrun1|].
      cbv beta iota in Hpass. congruence.
    - destruct (final_cycle_counted (clock 1%nat)
                  (upd_metrics inc_cycles_total d_first)
                  (mk_registry (final_lanes <$> slots reg)) Hreg1
                  (final_registry_wf reg Hwf)) as (d3 & Hrun3 & _).
      rewrite final_registry_idle in Hrun3. cbn [Nat.eqb negb] in Hrun3.
      cbv beta iota in Hpass. rewrite Hrun3 in Hpass.
      cbv beta iota in Hpass.
      exists d3. split; [exact Hrun3|]. congruence. }
  destruct Hlast as (d_idle & Hidle & Hd1).
  exists d_first, (if Nat.eqb (active_backlog reg) 0 then d0
                   else upd_metrics inc_cycles_total d_first), d_idle, d1.
  split; [exact Hrun1|]. split; [exact Hreg1|]. split; [exact Hs1|].
  split; [exact Hf1|]. split; [reflexivity|]. split; [exact Hidle|].
  split; [exact Hd1|]. split; [exact Hrun|]. split; [exact Hs|].
  split; [exact Hfd|]. split; [exact Hct|]. split; [exact Hfs|].
  split.
  { destruct (ring_step_total _ _ _ _ Hreg Hr1 Hstep) as (Et & _ & _).
    destruct (final_registry_freed reg) as (_ & _ & Hsum).
    rewrite Et, Hsum. reflexivity. }
  split; [exact Hr1|].
  cbn [slots]. split; [apply length_fmap|]. split.
  - intros i lanes Hi. exists (final_lanes lanes).
    rewrite list_lookup_fmap, Hi. split; [reflexivity|].
    unfold final_lanes. split; intros Ha; rewrite Ha; [|reflexivity].
    cbn. repeat split.
  - unfold world_worker_shutdown, drain_worker_shutdown. now rewrite Hrun.
Qed.

Lemma shutdown_drains_active_slots_witness :
  exists d1 reg1 lanes',
    drain_final_pass (fun k => N.of_nat k) (drain (demo_world DRAIN_STATE_STOPPING))
    = Some d1
    /\ registry d1 = Some reg1
    /\ state d1 = DRAIN_STATE_STOPPING
    /\ cycles_total (metrics d1) = 2
    /\ slots reg1 !! O = Some lanes'
    /\ submit_q (index_lane lanes') = []
    /\ free_q (index_lane lanes') = [3; 0; 1; 2]
    /\ world_worker_shutdown (fun k => N.of_nat k) (demo_world DRAIN_STATE_STOPPING)
       = Some (mk_world (set_state d1 DRAIN_STATE_STOPPED) []).
Proof.
  destruct (shutdown_drains_active_slots (fun k => N.of_nat k)
              (demo_world DRAIN_STATE_STOPPING) demo_registry
              eq_refl demo_registry_wf)
    as (_ & d_first & d_last & d_idle & d1 & _ & _ & _ & _ & _ & _ & _ & Hrun
        & Hst & _ & Hct & _ & _ & Hreg1 & _ & Hlanes & Hworld).
  destruct (Hlanes O _ eq_refl) as (lanes' & Hl & Hact & _).
  destruct (Hact eq_refl) as (Hs & Hf & _).
  exists d1, (mk_registry (final_lanes <$> slots demo_registry)), lanes'.
  repeat split; assumption.
Defined.

(** C2 as stated fails: "every ring of any lane is recycled and its events
    are persisted before STOPPED" breaks twice on a three-slot registry whose
    middle slot is inactive: at STOPPED slot 0's rings stand in the free
    queue and nothing has reached a writer, and the inactive slot 1 still
    holds ring 1 in its submit queue. *)
Lemma shutdown_persists_nothing :
  exists w' reg',
    world_worker_shutdown (fun k => N.of_nat k) (demo_world DRAIN_STATE_STOPPING)
    = Some w'
    /\ state (drain w') = DRAIN_STATE_STOPPED
    /\ registry (drain w') = Some reg'
    /\ index_lane <$> slots reg' !! O = Some (lane_of [] [3; 0; 1; 2])
    /\ handed_to_writer w' = []
    /\ ~ In (0, false, 0) (handed_to_writer w')
    /\ index_lane <$> slots reg' !! 1%nat = Some (lane_of [1] [0; 2]).
Proof.
  eexists _, _. split; [vm_compute; reflexivity|].
  cbn [drain state registry]. split; [reflexivity|]. split; [reflexivity|].
  repeat split. intros [].
Qed.

(** X19.  The final pass over a well-formed registry recycles and counts
    exactly the rings pending in active slots: [rings_total] grows by that
    number, [final_drains] by one, and [cycles_total] by one when nothing
    was pending and by two otherwise (one cycle to drain, one to see no
    work).  It never counts a fairness switch, an idle cycle, a yield or a
    sleep. *)
Theorem final_pass_counts_every_ring
    (clock : nat -> N) (d : DrainThread) (reg : ThreadRegistry) :
  registry d = Some reg ->
  registry_wf reg ->
  exists d1,
    drain_final_pass clock d = Some d1
    /\ registry d1 = Some (mk_registry (final_lanes <$> slots reg))
    /\ rings_total (metrics d1)
       = counter_add (rings_total (metrics d)) (N.of_nat (active_backlog reg))
    /\ cycles_total (metrics d1)
       = Nat.iter (if Nat.eqb (active_backlog reg) 0 then 1 else 2) incr64
           (cycles_total (metrics d))
    /\ final_drains (metrics d1) = incr64 (final_drains (metrics d))
    /\ fairness_switches (metrics d1) = fairness_switches (metrics d)
    /\ cycles_idle (metrics d1) = cycles_idle (metrics d)
    /\ yields (metrics d1) = yields (metrics d)
    /\ sleeps (metrics d1) = sleeps (metrics d)
    /\ total_sleep_us (metrics d1) = total_sleep_us (metrics d).
Proof.
  intros Hreg Hwf.
  destruct (drain_final_pass_counted clock d reg Hreg Hwf)
    as (d1 & Hrun & Hreg1 & _ & Hstep & Hrest).
  exists d1. split; [exact Hrun|]. split; [exact Hreg1|].
  split; [|exact Hrest].
  destruct (ring_step_total _ _ _ _ Hreg Hreg1 Hstep) as (Et & _ & _).
  destruct (final_registry_freed reg) as (_ & _ & Hsum).
  rewrite Et, Hsum. reflexivity.
Qed.

Lemma final_pass_counts_every_ring_witness :
  exists d1,
    drain_final_pass (fun j => N.of_nat j) (demo_drain DRAIN_STATE_STOPPING 2 8)
    = Some d1
    /\ rings_total (metrics d1) = 6
    /\ cycles_total (metrics d1) = 2.
Proof.
  destruct (final_pass_counts_every_ring (fun j => N.of_nat j)
              (demo_drain DRAIN_STATE_STOPPING 2 8) demo_registry
              eq_refl demo_registry_wf)
    as (d1 & Hrun & _ & Ht & Hc & _).
  exists d1. split; [exact Hrun|]. split; [exact Ht|exact Hc].
Defined.


(** ** Stopping, sessions and snapshots *)

(** [drain_thread_stop] on a drain whose worker runs, the join succeeding. *)
Lemma drain_thread_stop_spec clock d reg :
  registry d = Some reg ->
  registry_wf reg ->
  state d = DRAIN_STATE_RUNNING \/ state d = DRAIN_STATE_STOPPING ->
  thread_started d = true ->
  exists d3,
    drain_thread_stop clock 0 d = Some (0%Z, d3)
    /\ state d3 = DRAIN_STATE_STOPPED
    /\ thread_started d3 = false
    /\ config d3 = config d
    /\ registry d3 = Some (mk_registry (final_lanes <$> slots reg))
    /\ ring_step d d3
    /\ final_drains (metrics d3) = incr64 (final_drains (metrics d)).
Proof.
  intros Hreg Hwf Hst Hts.
  set (d1 := set_state d DRAIN_STATE_STOPPING).
  assert (Hstop : drain_thread_stop clock 0 d
                  = match drain_worker_shutdown clock d1 with
                    | None => None
                    | Some d2 => Some (0%Z, set_thread_started d2 false)
                    end).
  { unfold drain_thread_stop. destruct Hst as [Hs|Hs]; rewrite Hs.
    - cbn [set_state thread_started]. rewrite Hts. reflexivity.
    - rewrite Hts. cbn [Z.eqb]. subst d1. unfold set_state. rewrite <- Hs.
      destruct d. reflexivity. }
  destruct (drain_final_pass_counted clock d1 reg Hreg Hwf)
    as (d2 & Hrun & Hreg2 & (Hs2 & Hc2 & Ht2) & Hstep & _ & Hfd & _).
  exists (set_thread_started (set_state d2 DRAIN_STATE_STOPPED) false).
  split.
  { rewrite Hstop. unfold drain_worker_shutdown. rewrite Hrun. reflexivity. }
  split; [reflexivity|]. split; [reflexivity|].
  split; [exact Hc2|]. split; [exact Hreg2|]. split; [|exact Hfd].
  pose proof (drain_thread_stop_counts clock 0 d reg 0%Z
                (set_thread_started (set_state d2 DRAIN_STATE_STOPPED) false)
                Hreg) as Hcount.
  apply Hcount. rewrite Hstop. unfold drain_worker_shutdown. rewrite Hrun.
  reflexivity.
Qed.

Lemma snapshot_rows (l : list (N * N)) n :
  length l = n ->
  (fun i => default (0, 0) (l !! i)) <$> seq 0 n = l.
Proof.
  intros Hl. apply list_eq. intros i. rewrite list_lookup_fmap.
  destruct (l !! i) as [x|] eqn:Hi.
  - rewrite lookup_seq_lt by (apply lookup_lt_Some in Hi; lia).
    cbn. rewrite Hi. reflexivity.
  - rewrite lookup_seq_ge by (apply lookup_ge_None in Hi; lia). reflexivity.
Qed.

Lemma counters_agree_reset : counters_agree drain_metrics_atomic_reset.
Proof. repeat split. Qed.

(** X20.  A whole session with producers quiescent: create, start, any
    number of main-loop iterations, stop.  Every call succeeds, the state
    ends STOPPED, every active lane is flushed, and the metrics snapshot
    reports [rings_total] equal to the number of rings that were pending in
    active slots at creation, one final drain, [rings_total] =
    [rings_index] + [rings_detail], and, for a registry of at most
    [MAX_THREADS] slots, per-thread rows that add up to [rings_total]. *)
Theorem session_counts_every_ring
    (reg : ThreadRegistry) (cfg : option DrainConfig) (now : N)
    (n : nat) (clock clock' : nat -> N) :
  registry_wf reg ->
  exists d0 d1 d2 d3,
    drain_thread_create true 0 now (Some reg) cfg = Some d0
    /\ drain_thread_start 0 d0 = (0%Z, d1)
    /\ drain_worker_loop n clock 0 d1 = Some d2
    /\ drain_thread_stop clock' 0 d2 = Some (0%Z, d3)
    /\ drain_thread_get_state (Some d3) = DRAIN_STATE_STOPPED
    /\ registry d3 = Some (mk_registry (final_lanes <$> slots reg))
    /\ (let m := drain_thread_get_metrics d3 in
        Snapshot.rings_total m = wrap64 (N.of_nat (active_backlog reg))
        /\ Snapshot.final_drains m = 1
        /\ Snapshot.rings_total m
           = wrap64 (Snapshot.rings_index m + Snapshot.rings_detail m)
        /\ ((length (slots reg) <= N.to_nat MAX_THREADS)%nat ->
            wrap64 (sum_N ((fun p => fst p + snd p)
                             <$> Snapshot.rings_per_thread m))
            = Snapshot.rings_total m)).
Proof.
  intros Hwf.
  set (local_config := match cfg with
                       | Some c => c
                       | None => drain_config_default
                       end).
  set (d0 := mk_drain DRAIN_STATE_INITIALIZED (Some reg) local_config false 0
               now drain_metrics_atomic_reset).
  set (d1 := set_thread_started (set_state d0 DRAIN_STATE_RUNNING) true).
  destruct (drain_worker_loop_spec n clock 0 d1 reg eq_refl Hwf eq_refl)
    as (d2 & Hloop & Hreg2 & (Hs2 & Hc2 & Ht2) & Hstep2 & _ & Hfd2).
  destruct (drain_thread_stop_spec clock' d2 _ Hreg2
              (batches_registry_wf _ n reg Hwf)
              ltac:(left; exact Hs2) Ht2)
    as (d3 & Hstop & Hs3 & Ht3 & Hc3 & Hreg3 & Hstep3 & Hfd3).
  assert (Hfin : mk_registry
                   (final_lanes <$>
                    slots (mk_registry
                             (batches (compute_effective_limit d1 false) n
                                <$> slots reg)))
                 = mk_registry (final_lanes <$> slots reg)).
  { cbn [slots]. f_equal. rewrite <- list_fmap_compose. apply list_fmap_ext.
    intros i x _. apply final_lanes_batches. }
  rewrite Hfin in Hreg3.
  pose proof (ring_step_trans _ _ _ Hstep2 Hstep3) as Hstep.
  exists d0, d1, d2, d3.
  split; [reflexivity|]. split; [reflexivity|]. split; [exact Hloop|].
  split; [exact Hstop|]. split; [exact Hs3|]. split; [exact Hreg3|].
  destruct (ring_step_total d1 d3 reg _ eq_refl Hreg3 Hstep) as (Et & _ & _).
  destruct (final_registry_freed reg) as (_ & _ & Hsum).
  rewrite Hsum in Et.
  destruct Hstep as (r & r' & Hr & Hr' & _ & (_ & _ & Ei & Ed & Et') & Hag).
  assert (r = reg) by (cbn in Hr; congruence). subst r.
  cbv zeta. unfold drain_thread_get_metrics, drain_metrics_snapshot.
  cbn [Snapshot.rings_total Snapshot.final_drains Snapshot.rings_index
       Snapshot.rings_detail Snapshot.rings_per_thread].
  split.
  { rewrite Et. apply counter_add_from_0. }
  split; [rewrite Hfd3, Hfd2; reflexivity|].
  assert (Hagree : (length (slots reg) <= N.to_nat MAX_THREADS)%nat ->
                   counters_agree (metrics d3)).
  { intros Hcap. apply Hag; [exact Hcap|]. apply counters_agree_reset. }
  split.
  - rewrite Et', Ei, Ed. cbn [metrics d1 set_thread_started set_state d0
      rings_total rings_index rings_detail drain_metrics_atomic_reset].
    rewrite !counter_add_from_0, wrap64_add_l, wrap64_add_r. f_equal. lia.
  - intros Hcap. destruct (Hagree Hcap) as (Hlen & _ & Hrows).
    rewrite snapshot_rows by exact Hlen. exact Hrows.
Qed.


Lemma session_counts_every_ring_witness :
  exists d0 d1 d2 d3,
    drain_thread_create true 0 5 (Some demo_registry) None = Some d0
    /\ drain_thread_start 0 d0 = (0%Z, d1)
    /\ drain_worker_loop 1 (fun j => N.of_nat j) 0 d1 = Some d2
    /\ drain_thread_stop (fun j => N.of_nat j) 0 d2 = Some (0%Z, d3)
    /\ Snapshot.rings_total (drain_thread_get_metrics d3) = 6.
Proof.
  destruct (session_counts_every_ring demo_registry None 5 1
              (fun j => N.of_nat j) (fun j => N.of_nat j) demo_registry_wf)
    as (d0 & d1 & d2 & d3 & H0 & H1 & H2 & H3 & _ & _ & Hm).
  exists d0, d1, d2, d3. repeat (split; [assumption|]). exact (proj1 Hm).
Defined.

(** X21.  While the worker runs, every metrics snapshot taken between
    iterations is consistent, for a registry of at most [MAX_THREADS]
    slots: [rings_total] = [rings_index] + [rings_detail] and the
    per-thread rows add up to [rings_total] (all modulo 2^64), provided
    this held when the loop began, as it does after
    [drain_metrics_atomic_reset]. *)
Theorem running_snapshot_is_consistent
    (n : nat) (clock : nat -> N) (k : nat) (d : DrainThread)
    (reg : ThreadRegistry) :
  registry d = Some reg ->
  registry_wf reg ->
  (length (slots reg) <= N.to_nat MAX_THREADS)%nat ->
  state d = DRAIN_STATE_RUNNING ->
  counters_agree (metrics d) ->
  exists d',
    drain_worker_loop n clock k d = Some d'
    /\ (let m := drain_thread_get_metrics d' in
        Snapshot.rings_total m
        = wrap64 (Snapshot.rings_index m + Snapshot.rings_detail m)
        /\ wrap64 (sum_N ((fun p => fst p + snd p)
                            <$> Snapshot.rings_per_thread m))
           = Snapshot.rings_total m
        /\ Snapshot.rings_per_thread m = per_thread_rings (metrics d')
        /\ length (Snapshot.rings_per_thread m) = N.to_nat MAX_THREADS).
Proof.
  intros Hreg Hwf Hcap Hst Hag.
  destruct (drain_worker_loop_spec n clock k d reg Hreg Hwf Hst)
    as (d' & Hrun & _ & _ & Hstep & _).
  exists d'. split; [exact Hrun|].
  destruct Hstep as (r & r' & Hr & _ & _ & _ & Hag').
  assert (r = reg) by congruence. subst r.
  destruct (Hag' Hcap Hag) as (Hlen & Htot & Hrows).
  cbv zeta. unfold drain_thread_get_metrics, drain_metrics_snapshot.
  cbn [Snapshot.rings_total Snapshot.rings_index Snapshot.rings_detail
       Snapshot.rings_per_thread].
  rewrite snapshot_rows by exact Hlen.
  repeat split; assumption.
Qed.

Lemma running_snapshot_is_consistent_witness :
  exists d',
    drain_worker_loop 1 (fun j => N.of_nat j) 0
      (demo_drain DRAIN_STATE_RUNNING 2 8) = Some d'
    /\ wrap64 (sum_N ((fun p => fst p + snd p)
                        <$> Snapshot.rings_per_thread (drain_thread_get_metrics d')))
       = Snapshot.rings_total (drain_thread_get_metrics d').
Proof.
  destruct (running_snapshot_is_consistent 1 (fun j => N.of_nat j) 0
              (demo_drain DRAIN_STATE_RUNNING 2 8) demo_registry eq_refl
              demo_registry_wf ltac:(apply Nat.leb_le; reflexivity) eq_refl
              counters_agree_reset)
    as (d' & Hrun & _ & Hrows & _).
  exists d'. split; [exact Hrun|exact Hrows].
Defined.

(** X22.  [drain_thread_destroy] on a drain whose worker is still RUNNING or
    STOPPING stops it first: with the join succeeding, the registry is left
    with every active lane flushed and nothing pending in an active
    slot. *)
Theorem destroy_drains_before_freeing
    (clock : nat -> N) (d : DrainThread) (reg : ThreadRegistry) :
  registry d = Some reg ->
  registry_wf reg ->
  state d = DRAIN_STATE_RUNNING \/ state d = DRAIN_STATE_STOPPING ->
  thread_started d = true ->
  drain_thread_destroy clock 0 d
  = Some (Some (mk_registry (final_lanes <$> slots reg)))
  /\ active_backlog (mk_registry (final_lanes <$> slots reg)) = O.
Proof.
  intros Hreg Hwf Hst Hts.
  destruct (drain_thread_stop_spec clock d reg Hreg Hwf Hst Hts)
    as (d3 & Hstop & _ & _ & _ & Hreg3 & _).
  split; [|apply final_registry_idle].
  unfold drain_thread_destroy. rewrite Hstop, Hreg3.
  destruct Hst as [-> | ->]; reflexivity.
Qed.

Lemma destroy_drains_before_freeing_witness :
  drain_thread_destroy (fun j => N.of_nat j) 0 (demo_drain DRAIN_STATE_RUNNING 2 8)
  = Some (Some (mk_registry (final_lanes <$> slots demo_registry))).
Proof.
  exact (proj1 (destroy_drains_before_freeing (fun j => N.of_nat j)
                  (demo_drain DRAIN_STATE_RUNNING 2 8) demo_registry eq_refl
                  demo_registry_wf ltac:(left; reflexivity) eq_refl)).
Defined.

(** X23.  Reconfiguration follows the lifecycle.  A freshly created drain
    accepts [drain_thread_update_config]; once started, and however long it
    has run, the call fails with [-EBUSY] and changes nothing, so the
    worker's configuration is the one it was started with until the stop
    has completed; a stopped drain accepts a new configuration (and only
    the configuration changes) but cannot be started again ([-EALREADY]);
    a null configuration is refused with [-EINVAL]. *)
Theorem reconfiguration_follows_lifecycle
    (reg : ThreadRegistry) (cfg : option DrainConfig) (c : DrainConfig)
    (now : N) (n : nat) (clock clock' : nat -> N) :
  registry_wf reg ->
  exists d0 d1 d2 d3,
    drain_thread_create true 0 now (Some reg) cfg = Some d0
    /\ fst (drain_thread_update_config d0 (Some c)) = 0%Z
    /\ drain_thread_start 0 d0 = (0%Z, d1)
    /\ drain_worker_loop n clock 0 d1 = Some d2
    /\ drain_thread_update_config d2 (Some c) = ((- EBUSY)%Z, d2)
    /\ config d2 = config d0
    /\ drain_thread_stop clock' 0 d2 = Some (0%Z, d3)
    /\ config d3 = config d0
    /\ (let '(rc, d4) := drain_thread_update_config d3 (Some c) in
        rc = 0%Z /\ config d4 = c
        /\ registry d4 = registry d3 /\ metrics d4 = metrics d3
        /\ drain_thread_start 0 d4 = ((- EALREADY)%Z, d4))
    /\ drain_thread_update_config d3 None = ((- EINVAL)%Z, d3).
Proof.
  intros Hwf.
  set (local_config := match cfg with
                       | Some c => c
                       | None => drain_config_default
                       end).
  set (d0 := mk_drain DRAIN_STATE_INITIALIZED (Some reg) local_config false 0
               now drain_metrics_atomic_reset).
  set (d1 := set_thread_started (set_state d0 DRAIN_STATE_RUNNING) true).
  destruct (drain_worker_loop_spec n clock 0 d1 reg eq_refl Hwf eq_refl)
    as (d2 & Hloop & Hreg2 & (Hs2 & Hc2 & Ht2) & _).
  destruct (drain_thread_stop_spec clock' d2 _ Hreg2
              (batches_registry_wf _ n reg Hwf)
              ltac:(left; exact Hs2) Ht2)
    as (d3 & Hstop & Hs3 & Ht3 & Hc3 & _).
  exists d0, d1, d2, d3.
  split; [reflexivity|]. split; [reflexivity|]. split; [reflexivity|].
  split; [exact Hloop|]. split.
  { unfold drain_thread_update_config. rewrite Hs2. reflexivity. }
  split; [exact Hc2|]. split; [exact Hstop|].
  split; [rewrite Hc3, Hc2; reflexivity|].
  split; [|reflexivity].
  unfold drain_thread_update_config. rewrite Hs3.
  repeat split; unfold drain_thread_start; cbn [state]; rewrite Hs3;
    reflexivity.
Qed.

Lemma reconfiguration_follows_lifecycle_witness :
  exists d0 d1 d2,
    drain_thread_create true 0 5 (Some demo_registry) None = Some d0
    /\ drain_thread_start 0 d0 = (0%Z, d1)
    /\ drain_worker_loop 1 (fun j => N.of_nat j) 0 d1 = Some d2
    /\ drain_thread_update_config d2 (Some (mk_drain_config 0 1 1 true))
       = ((- EBUSY)%Z, d2).
Proof.
  destruct (reconfiguration_follows_lifecycle demo_registry None
              (mk_drain_config 0 1 1 true) 5 1
              (fun j => N.of_nat j) (fun j => N.of_nat j) demo_registry_wf)
    as (d0 & d1 & d2 & d3 & H0 & _ & H1 & H2 & H3 & _).
  exists d0, d1, d2. repeat (split; [assumption|]). exact H3.
Defined.

End DrainFacts.
